(** * zoekt-sandbox: the bootstrap sequence of [cmd/zoekt-sandbox/mkbox.c]

    [mkbox.c] is a single, strictly sequential C program: it unshares the
    process into fresh namespaces, interprets its options one by one (each
    option performs its system calls at once), pivots into the sandbox root,
    seals it, drops its capabilities and replaces itself with the target
    binary.

    The program is embedded as a function in a small trace monad.  Every
    system call the source makes is an event; the kernel is an arbitrary
    function from the history of events and the call to the call's answer,
    so every statement below holds for whatever the kernel does.  [exit],
    a successful [execv] and a [path] buffer of [recursive_mkdir] left
    without its final zero byte end the computation. *)

From Stdlib Require Import ZArith List String Ascii Bool Lia.
From Stdlib Require Import DecimalString DecimalPos.
Import ListNotations.

Local Open Scope string_scope.
Local Open Scope list_scope.
Local Open Scope Z_scope.

(* ------------------------------------------------------------------ *)
(** ** Constants of the Linux headers used by the source *)

Module K.
(** <sys/mount.h> *)
Definition MS_RDONLY   : Z := 1.
Definition MS_NOSUID   : Z := 2.
Definition MS_NODEV    : Z := 4.
Definition MS_NOEXEC   : Z := 8.
Definition MS_REMOUNT  : Z := 32.
Definition MS_NOATIME  : Z := 1024.
Definition MS_BIND     : Z := 4096.
Definition MS_REC      : Z := 16384.
Definition MS_PRIVATE  : Z := 262144.
Definition MNT_DETACH  : Z := 2.
(** <sched.h> *)
Definition CLONE_NEWNS   : Z := 0x00020000.
Definition CLONE_NEWUTS  : Z := 0x04000000.
Definition CLONE_NEWIPC  : Z := 0x08000000.
Definition CLONE_NEWUSER : Z := 0x10000000.
Definition CLONE_NEWPID  : Z := 0x20000000.
Definition CLONE_NEWNET  : Z := 0x40000000.
(** <sys/prctl.h>, <signal.h> *)
Definition PR_SET_PDEATHSIG : Z := 1.
Definition SIGKILL          : Z := 9.
(** <fcntl.h> *)
Definition O_WRONLY : Z := 1.
Definition O_CREAT  : Z := 64.
Definition O_EXCL   : Z := 128.
(** <sys/stat.h> *)
Definition S_IFMT  : Z := 61440.
Definition S_IFDIR : Z := 16384.
(** <errno.h> *)
Definition ENOENT : Z := 2.
Definition EACCES : Z := 13.
(** <linux/capability.h> *)
Definition _LINUX_CAPABILITY_VERSION_3 : Z := 0x20080522.
Definition _LINUX_CAPABILITY_U32S_3    : nat := 2.
End K.

(** Bit [i] of a flag word. *)
Definition has_flag (flags bit : Z) : bool := negb (Z.land flags bit =? 0).

(** [S_ISDIR(m)] of <sys/stat.h>. *)
Definition S_ISDIR (m : Z) : bool := Z.land m K.S_IFMT =? K.S_IFDIR.

(* ------------------------------------------------------------------ *)
(** ** C integers *)

(** The value of type [int] a 32-bit pattern stands for. *)
Definition to_int (x : Z) : Z := (x + 2 ^ 31) mod 2 ^ 32 - 2 ^ 31.

(** Conversion to [uid_t] / [gid_t] (unsigned, 32 bits). *)
Definition to_uid (x : Z) : Z := x mod 2 ^ 32.

(** The decimal digits of [z], with a minus sign when it is negative. *)
Definition decimal (z : Z) : string := NilZero.string_of_int (Z.to_int z).

(** What a [%d] conversion prints for an argument holding [x]: the decimal
    digits of the [int] read from the argument slot. *)
Definition fmt_d (x : Z) : string := decimal (to_int x).

Definition strlen (s : string) : Z := Z.of_nat (String.length s).

(* ------------------------------------------------------------------ *)
(** ** System calls, answers and events *)

Inductive syscall : Type :=
| Prctl (option_ arg2 : Z)
| Unshare (flags : Z)
| Setdomainname (name : string) (len : Z)
| Sethostname (name : string) (len : Z)
| Mount (source target : string) (fstype : option string) (flags : Z)
        (data : option string)
| Umount2 (target : string) (flags : Z)
| PivotRoot (new_root put_old : string)
| Chroot (path : string)
| Chdir (path : string)
| Stat (path : string)
| Lstat (path : string)
| Mkdir (path : string) (mode : Z)
| Rmdir (path : string)
| Open (path : string) (flags : Z) (mode : option Z)
| Write (fd : Z) (buf : string) (count : Z)
| Close (fd : Z)
| Setresuid (r e s : Z)
| Setresgid (r e s : Z)
| Capset (version : Z) (pid : Z) (data : list (Z * Z * Z))
| Execv (path : option string) (argv : list string).

(** What the kernel hands back: the return value, [errno] after the call
    and, for [stat] and [lstat], the [st_mode] written to the buffer. *)
Record answer : Type := { ret : Z; err : Z; st_mode : Z }.

Inductive event : Type :=
| Call (c : syscall) (a : answer)
| Stderr (msg : string)
  (** what [checkreturn] prints: the name, the argument text, r and errno
      (the line number and the [strerror] text are left out) *)
| Report (name arg : string) (res errno : Z).

(** The kernel: any function of the history and the call. *)
Definition os : Type := list event -> syscall -> answer.

(** How a computation can end for good. *)
Inductive stop : Type :=
| Exited (status : Z)    (** [exit] was called; the exit status *)
| Replaced               (** [execv] succeeded: the image is gone *)
| Undefined.             (** [path[1024]] lost its final zero byte *)

Inductive outcome (A : Type) : Type :=
| Ret (a : A)            (** the code goes on with [a] *)
| Stop (s : stop).

Arguments Ret {A} a.
Arguments Stop {A} s.

(** A computation reads the history so far and yields the events it adds. *)
Definition M (A : Type) : Type := list event -> list event * outcome A.

Definition ret_ {A} (a : A) : M A := fun _ => ([], Ret a).

Definition bind {A B} (m : M A) (f : A -> M B) : M B :=
  fun h =>
    match m h with
    | (es, Ret a) => let (es', o) := f a (h ++ es) in (es ++ es', o)
    | (es, Stop s) => (es, Stop s)
    end.

Declare Scope mkbox_scope.
Delimit Scope mkbox_scope with mkbox.
Notation "x <- m ;; k" := (bind m (fun x => k))
  (at level 100, m at next level, right associativity) : mkbox_scope.
Notation "m ;; k" := (bind m (fun _ => k))
  (at level 100, right associativity) : mkbox_scope.
Local Open Scope mkbox_scope.

Definition emit (e : event) : M unit := fun _ => ([e], Ret tt).

(** [fprintf(stderr, ...)] with the text already formatted. *)
Definition eprint (msg : string) : M unit := emit (Stderr msg).

(** [exit(code)]: the status the parent sees is [code & 0377]. *)
Definition exit {A} (code : Z) : M A :=
  fun _ => ([], Stop (Exited (Z.land code 255))).

Definition undefined {A} : M A := fun _ => ([], Stop Undefined).

(** [#define errorf(...) do { fprintf(stderr, __VA_ARGS__); exit(-1); } while (0)] *)
Definition errorf {A} (msg : string) : M A := eprint msg ;; exit (-1).

(* ------------------------------------------------------------------ *)
(** ** The C library's string functions used by the source *)

(** [strchr(s, c)]: the index of the first [c] in [s]. *)
Fixpoint strchr (s : string) (c : ascii) : option nat :=
  match s with
  | EmptyString => None
  | String x s' => if Ascii.eqb x c then Some O else option_map S (strchr s' c)
  end.

(** [strchrnul(s + from, c) - s]: the index of the first [c] at or after
    [from], or the length of [s]. *)
Fixpoint strchrnul (s : string) (from : nat) (c : ascii) : nat :=
  match s with
  | EmptyString => O
  | String x s' =>
      match from with
      | O => if Ascii.eqb x c then O else S (strchrnul s' O c)
      | S from' => S (strchrnul s' from' c)
      end
  end.

(** The first [n] characters of [s]. *)
Definition prefix (n : nat) (s : string) : string := substring 0 n s.

(** The characters of [s] from index [n] on (the C pointer [s + n]). *)
Fixpoint drop (n : nat) (s : string) : string :=
  match n, s with
  | O, _ => s
  | S n', String _ s' => drop n' s'
  | S _, EmptyString => EmptyString
  end.

Definition isspace (c : ascii) : bool :=
  let n := nat_of_ascii c in ((9 <=? n) && (n <=? 13))%nat || (n =? 32)%nat.

Definition digit_of (c : ascii) : option Z :=
  let n := nat_of_ascii c in
  if ((48 <=? n) && (n <=? 57))%nat then Some (Z.of_nat n - 48) else None.

Fixpoint skip_space (s : string) : string :=
  match s with
  | String c s' => if isspace c then skip_space s' else s
  | EmptyString => s
  end.

(** The digits at the head of [s], read in base ten onto [acc]; [None] when
    [s] does not start with a digit. *)
Fixpoint scan_digits (s : string) (acc : Z) (seen : bool) : option Z :=
  match s with
  | String c s' =>
      match digit_of c with
      | Some d => scan_digits s' (10 * acc + d) true
      | None => if seen then Some acc else None
      end
  | EmptyString => if seen then Some acc else None
  end.

(** The C library reads the digits of [%d] as [strtol] does, into a [long]
    of 64 bits: a value out of its range becomes LONG_MAX or LONG_MIN. *)
Definition to_long (x : Z) : Z := Z.max (- 2 ^ 63) (Z.min x (2 ^ 63 - 1)).

(** [sscanf(s, "%d", &x) == 1] and the [int] stored in [x]: white space is
    skipped, a sign may follow, then at least one digit; what follows the
    digits is left unread.  The [long] that was read is stored cut to an
    [int]. *)
Definition sscanf_d (s : string) : option Z :=
  match skip_space s with
  | String "-" s' =>
      option_map (fun v => to_int (to_long (- v))) (scan_digits s' 0 false)
  | String "+" s' =>
      option_map (fun v => to_int (to_long v)) (scan_digits s' 0 false)
  | s' => option_map (fun v => to_int (to_long v)) (scan_digits s' 0 false)
  end.

(* ------------------------------------------------------------------ *)
(** ** [getopt]

    [getopt(argc, argv, "+b:B:d:D:g:qr:s:t:u:Z")] of the C library.  The
    leading [+] makes the scan stop at the first argument that is not an
    option.  [getopt] only reads [argv], so the sequence of its results is
    a function of the arguments: [getopt_all] lists the pairs
    (option character, [optarg]) of the successive calls, and the arguments
    left at [argv + optind] when it returns -1.  An unknown option and a
    missing argument both give ['?']; what [getopt] itself prints then is
    left out of the trace. *)

Definition optstring : string := "b:B:d:D:g:qr:s:t:u:Z".

(** [Some true]: the option takes an argument; [None]: not an option. *)
Fixpoint lookup_opt (spec : string) (c : ascii) : option bool :=
  match spec with
  | EmptyString => None
  | String x spec' =>
      if Ascii.eqb x c then
        Some (match spec' with String ":" _ => true | _ => false end)
      else lookup_opt spec' c
  end.

Definition option_kind (c : ascii) : option bool :=
  if Ascii.eqb c ":" || Ascii.eqb c ";" then None else lookup_opt optstring c.

Definition getopt_result : Type := (ascii * string)%type.

(** The options of one argument [-xyz...]; [next] is the argument after it.
    The boolean tells whether [next] was taken as an [optarg]. *)
Fixpoint cluster (cl : string) (next : option string)
  : list getopt_result * bool :=
  match cl with
  | EmptyString => ([], false)
  | String c cl' =>
      match option_kind c with
      | None => let (r, used) := cluster cl' next in (("?"%char, "") :: r, used)
      | Some false => let (r, used) := cluster cl' next in ((c, "") :: r, used)
      | Some true =>
          match cl', next with
          | String _ _, _ => ([(c, cl')], false)
          | EmptyString, Some a => ([(c, a)], true)
          | EmptyString, None => ([("?"%char, "")], false)
          end
      end
  end.

Fixpoint getopt_all (args : list string) : list getopt_result * list string :=
  match args with
  | [] => ([], [])
  | a :: rest =>
      match a with
      | String "-" EmptyString => ([], args)
      | String "-" (String "-" EmptyString) => ([], rest)
      | String "-" cl =>
          let (here, used) := cluster cl (hd_error rest) in
          let (later, operands) :=
            if used then
              match rest with
              | [] => ([], [])
              | _ :: rest' => getopt_all rest'
              end
            else getopt_all rest in
          (here ++ later, operands)
      | _ => ([], args)
      end
  end.

(* ------------------------------------------------------------------ *)
(** ** The program *)

Definition nl : string := String (ascii_of_nat 10) EmptyString.
Definition dq : string := String (ascii_of_nat 34) EmptyString.

Definition my_domain : string := "localdomain".
Definition my_host : string := "localhost".

(** The local variables of [main] that the option loop sets. *)
Record locals : Type := {
  verbose : bool;
  root_set : bool;
  child_dir : option string;
  binary : option string
}.

Section Program.

Variable kernel : os.

(** A system call: the kernel answers, the call and its answer are
    recorded. *)
Definition sys (c : syscall) : M answer :=
  fun h => let a := kernel h c in ([Call c a], Ret a).

(** [checkreturn(res, name, arg, line)] *)
Definition checkreturn (a : answer) (name arg : string) : M answer :=
  if 0 <=? ret a then ret_ a
  else emit (Report name arg (ret a) (err a)) ;; exit (-1).

(** [#define ok(fname, arg...) checkreturn(fname(arg), #fname, #arg, __LINE__)] *)
Definition ok (name arg : string) (c : syscall) : M answer :=
  a <- sys c ;; checkreturn a name arg.

(** [execv] comes back only when it failed. *)
Definition execv (path : option string) (argv : list string) : M answer :=
  fun h =>
    let c := Execv path argv in
    let a := kernel h c in
    ([Call c a], if ret a <? 0 then Ret a else Stop Replaced).

(** [dropcaps]: all capability sets cleared, for the calling process. *)
Definition dropcaps : syscall :=
  Capset K._LINUX_CAPABILITY_VERSION_3 0
         (repeat (0, 0, 0) K._LINUX_CAPABILITY_U32S_3).

(** The [while] loop of [recursive_mkdir], entered with [end == end_].
    Every turn moves [end] forward, so [S (length dir)] turns are enough
    ([mkdir_loop_fuel] below).  [strncpy] fills [path[1024]], which must
    keep its final zero byte. *)
Fixpoint mkdir_loop (fuel : nat) (dir : string) (mode : Z) (end_ : nat)
  : M unit :=
  match fuel with
  | O => ret_ tt
  | S fuel' =>
      match get end_ dir with
      | None => ret_ tt
      | Some _ =>
          let endp := strchrnul dir (S end_) "/" in
          if 1024 <=? Z.of_nat endp then undefined
          else
            let path := prefix endp dir in
            a <- sys (Lstat path) ;;
            if (0 <=? ret a) && negb (Z.land (st_mode a) K.S_IFDIR =? 0)
            then mkdir_loop fuel' dir mode endp
            else
              r <- sys (Mkdir path mode) ;;
              if ret r <? 0 then
                eprint ("mkdir(" ++ path ++ "): " ++ fmt_d (err r)) ;;
                exit (-1)
              else mkdir_loop fuel' dir mode endp
      end
  end.

Definition recursive_mkdir (dir : string) (mode : Z) : M unit :=
  mkdir_loop (S (String.length dir)) dir mode 0.

Definition when (b : bool) (m : M unit) : M unit := if b then m else ret_ tt.

(** [case 's'] *)
Definition opt_s (l : locals) (optarg : string) : M locals :=
  sys (Mount "none" "/" None (Z.lor K.MS_REC K.MS_PRIVATE) None) ;;
  ok "mount" "optarg, optarg, NULL, MS_BIND|MS_NOSUID, NULL"
     (Mount optarg optarg None (Z.lor K.MS_BIND K.MS_NOSUID) None) ;;
  when (verbose l) (eprint ("root dir: " ++ optarg ++ nl)) ;;
  ok "chdir" "optarg" (Chdir optarg) ;;
  ret_ {| verbose := verbose l; root_set := true;
          child_dir := child_dir l; binary := binary l |}.

(** Lines 154 to 181 of [case 'b'], once [src] and [dst] are cut out of
    the argument. *)
Definition bind_mount (l : locals) (src dst : string) : M locals :=
  when (verbose l) (eprint ("mount: " ++ src ++ " => " ++ dst ++ nl)) ;;
  buf <- ok "stat" "src, &buf" (Stat src) ;;
  (if S_ISDIR (st_mode buf) then
     buf' <- sys (Lstat dst) ;;
     when (ret buf' <? 0) (recursive_mkdir dst 493) ;;
     ok "mount" "src, dst, NULL, MS_REC|MS_BIND, NULL"
        (Mount src dst None (Z.lor K.MS_REC K.MS_BIND) None)
   else
     fd <- ok "open" "dst, O_WRONLY|O_CREAT, 0666"
              (Open dst (Z.lor K.O_WRONLY K.O_CREAT) (Some 438)) ;;
     ok "close" "ok(open, dst, O_WRONLY|O_CREAT, 0666)"
        (Close (ret fd)) ;;
     ok "mount" "src, dst, NULL, MS_BIND, NULL"
        (Mount src dst None K.MS_BIND None)) ;;
  ret_ l.

(** [case 'b'] *)
Definition opt_b (l : locals) (optarg : string) : M locals :=
  match strchr optarg "=" with
  | None => errorf ("argument must have '=': " ++ optarg)
  | Some i =>
      if match get (S i) optarg with
         | Some c => Ascii.eqb c "/"
         | None => false
         end
      then errorf ("destination for " ++ optarg ++
                   " must be relative to sandbox root." ++ nl)
      else bind_mount l (prefix i optarg) (drop (S i) optarg)
  end.

Definition tmpfs_flags : Z :=
  Z.lor (Z.lor K.MS_NOSUID K.MS_NOEXEC) K.MS_NOATIME.

Definition tmpfs_data : string := "size=16m,nr_inodes=16k,mode=755".

(** [case 't'] *)
Definition opt_t (l : locals) (optarg : string) : M locals :=
  when (verbose l) (eprint ("tmp: " ++ optarg ++ nl)) ;;
  buf <- sys (Lstat optarg) ;;
  when (ret buf <? 0) (recursive_mkdir optarg 493) ;;
  ok "mount"
     (dq ++ "sandbox-tmp" ++ dq ++ ", optarg, " ++ dq ++ "tmpfs" ++ dq ++
      ", MS_NOSUID|MS_NOEXEC|MS_NOATIME, " ++ dq ++ tmpfs_data ++ dq)
     (Mount "sandbox-tmp" optarg (Some "tmpfs") tmpfs_flags
            (Some tmpfs_data)) ;;
  ret_ l.

(** [sprintf(buf, "%d %d 1\n", inner, outer)]; [outer] is the [uid_t] or
    [gid_t] of the caller, which [%d] reads as an [int]. *)
Definition map_line (inner outer : Z) : string :=
  fmt_d inner ++ " " ++ fmt_d outer ++ " 1" ++ nl.

(** [case 'u']; [uid] is the [uid_t] that [getuid] returned. *)
Definition opt_u (uid : Z) (l : locals) (optarg : string) : M locals :=
  match sscanf_d optarg with
  | None => errorf ("could not parse " ++ optarg)
  | Some newuid =>
      let buf := map_line newuid uid in
      fd <- ok "open" (dq ++ "/proc/self/uid_map" ++ dq ++ ", O_WRONLY")
               (Open "/proc/self/uid_map" K.O_WRONLY None) ;;
      ok "write" "fd, buf, strlen(buf)" (Write (ret fd) buf (strlen buf)) ;;
      ok "close" "fd" (Close (ret fd)) ;;
      ok "setresuid" "newuid, newuid, newuid"
         (Setresuid (to_uid newuid) (to_uid newuid) (to_uid newuid)) ;;
      ret_ l
  end.

(** Lines 232 to 237, the start of [case 'g']: the guard file is
    written when [open] gave a descriptor above 0. *)
Definition deny_setgroups : M unit :=
  fd <- sys (Open "/proc/self/setgroups" K.O_WRONLY None) ;;
  when (0 <? ret fd)
       (ok "write" "fd, buf, strlen(buf)"
           (Write (ret fd) "deny" (strlen "deny")) ;;
        ok "close" "fd" (Close (ret fd)) ;;
        ret_ tt).

(** Lines 239 to 250, the rest of [case 'g']; [gid] is the [gid_t] that
    [getgid] returned. *)
Definition write_gid_map (gid : Z) (optarg : string) : M unit :=
  match sscanf_d optarg with
  | None => errorf ("could not parse " ++ optarg)
  | Some newgid =>
      let buf := map_line newgid gid in
      fd <- ok "open" (dq ++ "/proc/self/gid_map" ++ dq ++ ", O_WRONLY")
               (Open "/proc/self/gid_map" K.O_WRONLY None) ;;
      ok "write" "fd, buf, strlen(buf)" (Write (ret fd) buf (strlen buf)) ;;
      ok "close" "fd" (Close (ret fd)) ;;
      ok "setresgid" "newgid, newgid, newgid"
         (Setresgid (to_uid newgid) (to_uid newgid) (to_uid newgid)) ;;
      ret_ tt
  end.

(** [case 'g'] *)
Definition opt_g (gid : Z) (l : locals) (optarg : string) : M locals :=
  deny_setgroups ;;
  write_gid_map gid optarg ;;
  ret_ l.

(** The body of the [switch (opt)]. *)
Definition option_case (uid gid : Z) (l : locals) (o : getopt_result)
  : M locals :=
  let (opt, optarg) := o in
  if Ascii.eqb opt "q" then
    ret_ {| verbose := false; root_set := root_set l;
            child_dir := child_dir l; binary := binary l |}
  else if Ascii.eqb opt "s" then opt_s l optarg
  else if Ascii.eqb opt "B" then
    ret_ {| verbose := verbose l; root_set := root_set l;
            child_dir := child_dir l; binary := Some optarg |}
  else if Ascii.eqb opt "b" then opt_b l optarg
  else if Ascii.eqb opt "t" then opt_t l optarg
  else if Ascii.eqb opt "u" then opt_u uid l optarg
  else if Ascii.eqb opt "g" then opt_g gid l optarg
  else if Ascii.eqb opt "d" then
    ret_ {| verbose := verbose l; root_set := root_set l;
            child_dir := Some optarg; binary := binary l |}
  else if Ascii.eqb opt "D" then recursive_mkdir optarg 493 ;; ret_ l
  else errorf ("option " ++ String opt EmptyString ++ " unknown").

(** The [while ((opt = getopt(...)) != -1)] loop over the results of
    [getopt]. *)
Fixpoint option_loop (uid gid : Z) (opts : list getopt_result) (l : locals)
  : M locals :=
  match opts with
  | [] => ret_ l
  | o :: opts' =>
      l' <- option_case uid gid l o ;; option_loop uid gid opts' l'
  end.

Definition unshare_flags : Z :=
  Z.lor (Z.lor (Z.lor (Z.lor (Z.lor K.CLONE_NEWNS K.CLONE_NEWUTS)
                             K.CLONE_NEWPID) K.CLONE_NEWIPC)
               K.CLONE_NEWUSER) K.CLONE_NEWNET.

Definition remount_flags : Z :=
  Z.lor (Z.lor (Z.lor (Z.lor (Z.lor K.MS_REMOUNT K.MS_BIND) K.MS_NOEXEC)
                      K.MS_NOSUID) K.MS_NODEV) K.MS_RDONLY.

(** Lines 99 to 108 of [main]: what runs before the first [getopt]. *)
Definition prologue : M unit :=
  ok "prctl" "PR_SET_PDEATHSIG, SIGKILL"
     (Prctl K.PR_SET_PDEATHSIG K.SIGKILL) ;;
  ok "unshare" "unshare_flags" (Unshare unshare_flags) ;;
  ok "setdomainname" "my_domain, strlen(my_domain)"
     (Setdomainname my_domain (strlen my_domain)) ;;
  ok "sethostname" "my_host, strlen(my_host)"
     (Sethostname my_host (strlen my_host)) ;;
  ret_ tt.

(** Lines 276 to 289 of [main]: the sandbox becomes the root. *)
Definition pivot : M unit :=
  ok "mkdir" (dq ++ ".oldroot" ++ dq ++ ", 0755") (Mkdir ".oldroot" 493) ;;
  ok "pivot_root" (dq ++ "." ++ dq ++ ", " ++ dq ++ ".oldroot" ++ dq)
     (PivotRoot "." ".oldroot") ;;
  ok "chroot" (dq ++ "." ++ dq) (Chroot ".") ;;
  ok "umount2" (dq ++ ".oldroot" ++ dq ++ ", MNT_DETACH")
     (Umount2 ".oldroot" K.MNT_DETACH) ;;
  ok "rmdir" (dq ++ ".oldroot" ++ dq) (Rmdir ".oldroot") ;;
  ok "mount"
     (dq ++ "/" ++ dq ++ ", " ++ dq ++ "/" ++ dq ++
      ", NULL, MS_REMOUNT|MS_BIND|MS_NOEXEC|MS_NOSUID|MS_NODEV|MS_RDONLY, NULL")
     (Mount "/" "/" None remount_flags None) ;;
  ret_ tt.

(** Lines 291 to 299 of [main]; [operands] is [argv + optind]. *)
Definition handoff (l : locals) (operands : list string) : M unit :=
  match child_dir l with
  | Some d => ok "chdir" "child_dir" (Chdir d) ;; ret_ tt
  | None => ret_ tt
  end ;;
  ok "dropcaps" "" dropcaps ;;
  let binary' :=
    match binary l with
    | Some b => Some b
    | None => hd_error operands
    end in
  a <- execv binary' operands ;;
  checkreturn a "execv" "binary, argv + optind" ;;
  ret_ tt.

Definition initial : locals :=
  {| verbose := true; root_set := false; child_dir := None; binary := None |}.

(** [main]: [uid] and [gid] are what [getuid] and [getgid] return at its
    start, [args] is [argv] without [argv[0]].  The test of [root_set] is
    that of lines 271 to 273. *)
Definition main (uid gid : Z) (args : list string) : M unit :=
  prologue ;;
  let (opts, operands) := getopt_all args in
  l <- option_loop uid gid opts initial ;;
  (if root_set l then ret_ tt else errorf "-s option is mandatory") ;;
  pivot ;;
  handoff l operands.

End Program.

(** The events of a whole run, and how it ends. *)
Definition run (kernel : os) (uid gid : Z) (args : list string)
  : list event * outcome unit :=
  main kernel uid gid args [].

(* ------------------------------------------------------------------ *)
(** ** Kernels to run the program on *)

Definition fine : answer := {| ret := 0; err := 0; st_mode := 0 |}.

Definition failed (errno : Z) : answer :=
  {| ret := -1; err := errno; st_mode := 0 |}.

(** Every call succeeds; [open] hands out descriptor 3; [stat] finds a
    directory when [isdir] says so and a regular file otherwise; [lstat]
    finds what [exists_] says is there. *)
Definition kernel_ok (isdir exists_ : string -> bool) : os :=
  fun _ c =>
    match c with
    | Open _ _ _ => {| ret := 3; err := 0; st_mode := 0 |}
    | Stat p => {| ret := 0; err := 0;
                   st_mode := if isdir p then 16877 else 33188 |}
    | Lstat p => if exists_ p then {| ret := 0; err := 0; st_mode := 16877 |}
                 else failed K.ENOENT
    | _ => fine
    end.

Definition friendly : os := kernel_ok (fun _ => true) (fun _ => false).

(* ------------------------------------------------------------------ *)
(** ** The vocabulary of the statements *)

(** The system calls of a trace, in order. *)
Fixpoint calls (es : list event) : list syscall :=
  match es with
  | [] => []
  | Call c _ :: es' => c :: calls es'
  | _ :: es' => calls es'
  end.

(** [sat P R S m]: whatever the history, every system call [m] makes
    satisfies [P], a value it returns satisfies [R], and a way it stops
    satisfies [S]. *)
Definition sat {A} (P : syscall -> Prop) (R : A -> Prop) (S : stop -> Prop)
  (m : M A) : Prop :=
  forall h,
    Forall P (calls (fst (m h))) /\
    match snd (m h) with Ret a => R a | Stop s => S s end.

Definition any {A} : A -> Prop := fun _ => True.

(** The system calls of [recursive_mkdir]. *)
Inductive mkdir_call : syscall -> Prop :=
| mk_lstat p : mkdir_call (Lstat p)
| mk_mkdir p : mkdir_call (Mkdir p 493).

(** The system calls of [case 't'] for the path [path]. *)
Inductive tmp_call (path : string) : syscall -> Prop :=
| tc_lstat : tmp_call path (Lstat path)
| tc_mount :
    tmp_call path (Mount "sandbox-tmp" path (Some "tmpfs") tmpfs_flags
                         (Some tmpfs_data))
| tc_mkdir c : mkdir_call c -> tmp_call path c.

(** The system calls of [case 'b'] for the rule [src=dst]. *)
Inductive bind_call (src dst : string) : syscall -> Prop :=
| bc_stat : bind_call src dst (Stat src)
| bc_lstat : bind_call src dst (Lstat dst)
| bc_bind_dir :
    bind_call src dst (Mount src dst None (Z.lor K.MS_REC K.MS_BIND) None)
| bc_create :
    bind_call src dst (Open dst (Z.lor K.O_WRONLY K.O_CREAT) (Some 438))
| bc_close fd : bind_call src dst (Close fd)
| bc_bind_file : bind_call src dst (Mount src dst None K.MS_BIND None)
| bc_mkdir c : mkdir_call c -> bind_call src dst c.

(** Every shape of system call a [case] of the [switch] can make. *)
Inductive option_call : syscall -> Prop :=
| oc_rprivate :
    option_call (Mount "none" "/" None (Z.lor K.MS_REC K.MS_PRIVATE) None)
| oc_root p :
    option_call (Mount p p None (Z.lor K.MS_BIND K.MS_NOSUID) None)
| oc_chdir p : option_call (Chdir p)
| oc_stat p : option_call (Stat p)
| oc_lstat p : option_call (Lstat p)
| oc_mkdir c : mkdir_call c -> option_call c
| oc_bind_dir src dst :
    option_call (Mount src dst None (Z.lor K.MS_REC K.MS_BIND) None)
| oc_create dst :
    option_call (Open dst (Z.lor K.O_WRONLY K.O_CREAT) (Some 438))
| oc_bind_file src dst : option_call (Mount src dst None K.MS_BIND None)
| oc_tmpfs path :
    option_call (Mount "sandbox-tmp" path (Some "tmpfs") tmpfs_flags
                       (Some tmpfs_data))
| oc_uid_map : option_call (Open "/proc/self/uid_map" K.O_WRONLY None)
| oc_setgroups : option_call (Open "/proc/self/setgroups" K.O_WRONLY None)
| oc_gid_map : option_call (Open "/proc/self/gid_map" K.O_WRONLY None)
| oc_write fd buf : option_call (Write fd buf (strlen buf))
| oc_close fd : option_call (Close fd)
| oc_setresuid u : option_call (Setresuid u u u)
| oc_setresgid g : option_call (Setresgid g g g).

(** A string that fits [path[1024]] with its final zero byte. *)
Definition short (s : string) : Prop := strlen s < 1024.

(** What can be called before the check of [root_set]. *)
Inductive early_call : syscall -> Prop :=
| ec_prctl : early_call (Prctl K.PR_SET_PDEATHSIG K.SIGKILL)
| ec_unshare : early_call (Unshare unshare_flags)
| ec_setdomainname : early_call (Setdomainname my_domain (strlen my_domain))
| ec_sethostname : early_call (Sethostname my_host (strlen my_host))
| ec_option c : option_call c -> early_call c.

(** Every shape of system call a run can make. *)
Inductive main_call : syscall -> Prop :=
| mc_oldroot : main_call (Mkdir ".oldroot" 493)
| mc_pivot_root : main_call (PivotRoot "." ".oldroot")
| mc_chroot : main_call (Chroot ".")
| mc_umount2 : main_call (Umount2 ".oldroot" K.MNT_DETACH)
| mc_rmdir : main_call (Rmdir ".oldroot")
| mc_remount : main_call (Mount "/" "/" None remount_flags None)
| mc_chdir d : main_call (Chdir d)
| mc_dropcaps : main_call dropcaps
| mc_execv b argv : main_call (Execv b argv)
| mc_early c : early_call c -> main_call c.

(** [fatal T m]: when a system call of [m] that is not in [T] fails, it is
    the last call [m] makes, and [m] stops with exit status 255. *)
Definition fatal {A} (T : syscall -> Prop) (m : M A) : Prop :=
  forall h es1 c a es2,
    fst (m h) = es1 ++ Call c a :: es2 ->
    ret a < 0 -> ~ T c ->
    calls es2 = [] /\ snd (m h) = Stop (Exited 255).

(** [m] makes no system call and stops with exit status 255. *)
Definition gives_up {A} (m : M A) : Prop :=
  forall h, calls (fst (m h)) = [] /\ snd (m h) = Stop (Exited 255).

(** The [mount] of line 121, which makes the old root private. *)
Definition rprivate : syscall :=
  Mount "none" "/" None (Z.lor K.MS_REC K.MS_PRIVATE) None.

(** The [open] of line 232. *)
Definition open_setgroups : syscall :=
  Open "/proc/self/setgroups" K.O_WRONLY None.

Definition is_lstat (c : syscall) : Prop := exists p, c = Lstat p.

Definition nothing (c : syscall) : Prop := False.

(** The calls whose failure the source neither passes to [checkreturn] nor
    turns into an [exit] itself. *)
Inductive unchecked : syscall -> Prop :=
| un_lstat p : unchecked (Lstat p)
| un_rprivate : unchecked rprivate
| un_setgroups : unchecked open_setgroups.

(** [k], except that the calls picked by [bad] fail with [errno]. *)
Definition refusing (bad : syscall -> bool) (errno : Z) (k : os) : os :=
  fun h c => if bad c then failed errno else k h c.

(** The calls to refuse: [rprivate], as a test. *)
Definition is_rprivate (c : syscall) : bool :=
  match c with
  | Mount source target None flags None =>
      String.eqb source "none" && String.eqb target "/" &&
      (flags =? Z.lor K.MS_REC K.MS_PRIVATE)
  | _ => false
  end.

(** The calls to refuse: any [open] of [/proc/self/setgroups]. *)
Definition is_open_setgroups (c : syscall) : bool :=
  match c with
  | Open path _ _ => String.eqb path "/proc/self/setgroups"
  | _ => false
  end.

(** A call that makes namespaces or mounts something. *)
Definition namespace_or_mount (c : syscall) : bool :=
  match c with
  | Unshare _ | Mount _ _ _ _ _ => true
  | _ => false
  end.

(** The system calls of [pivot] when each of them goes well. *)
Definition pivot_calls : list syscall :=
  [ Mkdir ".oldroot" 493;
    PivotRoot "." ".oldroot";
    Chroot ".";
    Umount2 ".oldroot" K.MNT_DETACH;
    Rmdir ".oldroot";
    Mount "/" "/" None remount_flags None ].

(** The argument has no ['=']. *)
Definition lacks_separator (arg : string) : Prop :=
  ~ In "="%char (list_ascii_of_string arg).

(** The argument is [src=dst] with a [dst] that starts with ['/']; the
    separator is the first ['='] of the argument. *)
Definition absolute_destination (arg : string) : Prop :=
  exists src dst,
    arg = (src ++ "=" ++ String "/" dst)%string /\ lacks_separator src.

(** The argument is [src=dst], split at its first ['=']. *)
Definition splits_into (arg src dst : string) : Prop :=
  arg = (src ++ "=" ++ dst)%string /\ lacks_separator src.

(** [s[0] == '/'] *)
Definition starts_with_slash (s : string) : bool :=
  match s with
  | String c _ => Ascii.eqb c "/"
  | EmptyString => false
  end.

(** The test of lines 143 and 146. *)
Definition refuses (arg : string) : bool :=
  match strchr arg "=" with
  | None => true
  | Some i => match get (S i) arg with
              | Some c => Ascii.eqb c "/"
              | None => false
              end
  end.

(** The events of [recursive_mkdir]: an [lstat] that found a directory, or
    an [lstat] that did not, followed by the [mkdir] of the same path. *)
Inductive mkdir_trace : list event -> Prop :=
| mt_nil : mkdir_trace []
| mt_skip p a es :
    0 <= ret a -> Z.land (st_mode a) K.S_IFDIR <> 0 ->
    mkdir_trace es -> mkdir_trace (Call (Lstat p) a :: es)
| mt_make p a m a' es :
    ret a < 0 \/ Z.land (st_mode a) K.S_IFDIR = 0 ->
    mkdir_trace es ->
    mkdir_trace (Call (Lstat p) a :: Call (Mkdir p m) a' :: es)
| mt_msg msg es : mkdir_trace es -> mkdir_trace (Stderr msg :: es).

(** A first run on a host where [/etc/resolv.conf] is a regular file and
    nothing is in the sandbox root yet. *)
Definition host : os :=
  kernel_ok (fun p => negb (String.eqb p "/etc/resolv.conf")) (fun _ => false).

(** A second run: everything is already there. *)
Definition settled : os := kernel_ok (fun _ => true) (fun _ => true).

(** A second run on [host]: everything is already there, and
    [/etc/resolv.conf] is a regular file. *)
Definition rerun : os :=
  kernel_ok (fun p => negb (String.eqb p "/etc/resolv.conf")) (fun _ => true).

(* ------------------------------------------------------------------ *)
(** ** The vocabulary of the further statements *)

(** [dir[j]] is ['/'] or the final zero byte. *)
Definition slash_or_end (dir : string) (j : nat) : bool :=
  match get j dir with
  | Some c => Ascii.eqb c "/"
  | None => true
  end.

(** The indices above [e], up to the length of [dir], where [dir] has a
    ['/'] or ends. *)
Definition cuts_after (dir : string) (e : nat) : list nat :=
  filter (slash_or_end dir) (seq (S e) (String.length dir - e)).

(** [dir] cut at each of these indices above [e]. *)
Definition paths_after (dir : string) (e : nat) : list string :=
  map (fun j => prefix j dir) (cuts_after dir e).

(** [dir] cut before each ['/'] that is not its first character, and [dir]
    itself: for [a/b/c], the paths [a], [a/b] and [a/b/c]. *)
Definition components (dir : string) : list string := paths_after dir 0.

(** The paths of the [lstat] calls, in order. *)
Fixpoint lstat_paths (cs : list syscall) : list string :=
  match cs with
  | [] => []
  | Lstat p :: cs' => p :: lstat_paths cs'
  | _ :: cs' => lstat_paths cs'
  end.

(** What a [case] of the [switch] assigns to the locals. *)
Definition settle (l : locals) (o : getopt_result) : locals :=
  let (opt, optarg) := o in
  if Ascii.eqb opt "q" then
    {| verbose := false; root_set := root_set l;
       child_dir := child_dir l; binary := binary l |}
  else if Ascii.eqb opt "s" then
    {| verbose := verbose l; root_set := true;
       child_dir := child_dir l; binary := binary l |}
  else if Ascii.eqb opt "B" then
    {| verbose := verbose l; root_set := root_set l;
       child_dir := child_dir l; binary := Some optarg |}
  else if Ascii.eqb opt "d" then
    {| verbose := verbose l; root_set := root_set l;
       child_dir := Some optarg; binary := binary l |}
  else l.

(** The option [c] is among [opts]. *)
Definition mentions (c : ascii) (opts : list getopt_result) : bool :=
  existsb (fun o => Ascii.eqb (fst o) c) opts.

(** The argument of the last [c] among [opts], or [default]. *)
Definition last_optarg (c : ascii) (opts : list getopt_result)
  (default : option string) : option string :=
  fold_left (fun acc o => if Ascii.eqb (fst o) c then Some (snd o) else acc)
            opts default.

(** The option characters that have a [case] in the [switch]. *)
Definition handled (c : ascii) : bool :=
  existsb (Ascii.eqb c)
          ["q"; "s"; "B"; "b"; "t"; "u"; "g"; "d"; "D"]%char.

(** A command line for [opts]: each option as a word of its own, followed
    by its argument when it takes one. *)
Definition render (opts : list getopt_result) : list string :=
  flat_map (fun o : getopt_result =>
              let word := String "-" (String (fst o) EmptyString) in
              match option_kind (fst o) with
              | Some true => [word; snd o]
              | _ => [word]
              end) opts.

(** An option as [getopt] can hand it out for a word of its own. *)
Definition well_formed (o : getopt_result) : Prop :=
  option_kind (fst o) = Some true \/
  (option_kind (fst o) = Some false /\ snd o = "").

(** The first operand, if any, does not start with ['-']. *)
Definition plain_operands (operands : list string) : Prop :=
  match operands with
  | [] => True
  | a :: _ => forall s, a <> String "-" s
  end.

(** The system calls of [prologue] when each of them goes well. *)
Definition prologue_calls : list syscall :=
  [ Prctl K.PR_SET_PDEATHSIG K.SIGKILL;
    Unshare unshare_flags;
    Setdomainname my_domain (strlen my_domain);
    Sethostname my_host (strlen my_host) ].

(** [junk] is empty or starts with something that is not a digit. *)
Definition no_digit_first (junk : string) : Prop :=
  match junk with
  | EmptyString => True
  | String c _ => digit_of c = None
  end.

(** What the arguments of a system call other than [mount] have to look
    like.  Nothing is asked of [chdir], [stat], [lstat], [close] and
    [execv], whose arguments come from the command line or from the
    kernel. *)
Definition expected_shape (c : syscall) : Prop :=
  match c with
  | Prctl option_ arg2 => option_ = K.PR_SET_PDEATHSIG /\ arg2 = K.SIGKILL
  | Unshare flags => flags = unshare_flags
  | Setdomainname name len => name = my_domain /\ len = strlen my_domain
  | Sethostname name len => name = my_host /\ len = strlen my_host
  | Mkdir _ mode => mode = 493
  | Open path flags mode =>
      (flags = K.O_WRONLY /\ mode = None /\
       (path = "/proc/self/setgroups" \/ path = "/proc/self/uid_map" \/
        path = "/proc/self/gid_map")) \/
      (flags = Z.lor K.O_WRONLY K.O_CREAT /\ mode = Some 438)
  | Write _ buf count => count = strlen buf
  | Setresuid r e s => r = e /\ e = s
  | Setresgid r e s => r = e /\ e = s
  | PivotRoot new_root put_old => new_root = "." /\ put_old = ".oldroot"
  | Chroot path => path = "."
  | Umount2 target flags => target = ".oldroot" /\ flags = K.MNT_DETACH
  | Rmdir path => path = ".oldroot"
  | Capset version pid data => c = dropcaps
  | _ => True
  end.

(** The calls of the prologue, by their names. *)
Definition is_setup (c : syscall) : bool :=
  match c with
  | Prctl _ _ | Unshare _ | Setdomainname _ _ | Sethostname _ _ => true
  | _ => false
  end.

Definition is_execv (c : syscall) : bool :=
  match c with
  | Execv _ _ => true
  | _ => false
  end.

(** [s] does not start a number for [%d]: after white space and one
    optional sign there is no digit. *)
Definition no_number (s : string) : Prop :=
  match skip_space s with
  | EmptyString => True
  | String c rest =>
      if Ascii.eqb c "-" || Ascii.eqb c "+" then no_digit_first rest
      else digit_of c = None
  end.

(** An [int]. *)
Definition is_int (x : Z) : Prop := - 2 ^ 31 <= x < 2 ^ 31.

(** A kernel on which every path is there, as a socket. *)
Definition sockets : os :=
  fun _ c =>
    match c with
    | Lstat _ => {| ret := 0; err := 0; st_mode := 49645 |}
    | _ => fine
    end.

(** A name of 1024 bytes, one more than [path[1024]] can hold together
    with its final zero byte. *)
Definition long_name : string :=
  string_of_list_ascii (repeat "a"%char 1024).

(** The calls to refuse: any [chdir]. *)
Definition is_chdir (c : syscall) : bool :=
  match c with
  | Chdir _ => true
  | _ => false
  end.

(** [said Q m]: when [m] emits an event in [Q], no system call follows it
    and [m] stops with exit status 255. *)
Definition said {A} (Q : event -> Prop) (m : M A) : Prop :=
  forall h es1 e es2,
    fst (m h) = es1 ++ e :: es2 -> Q e ->
    calls es2 = [] /\ snd (m h) = Stop (Exited 255).

(** Something printed to [stderr]. *)
Definition printed (e : event) : Prop :=
  match e with
  | Call _ _ => False
  | _ => True
  end.

(* ------------------------------------------------------------------ *)
(** ** Reasoning about computations *)

Lemma syscall_eq_dec (c c' : syscall) : {c = c'} + {c <> c'}.
Proof.
  repeat decide equality;
    auto using Z.eq_dec, string_dec, list_eq_dec, ascii_dec, bool_dec.
Defined.

Lemma calls_app es1 es2 : calls (es1 ++ es2) = calls es1 ++ calls es2.
Proof.
  induction es1 as [|e es1 IH]; simpl; [reflexivity|].
  destruct e; simpl; rewrite IH; reflexivity.
Qed.

Lemma in_calls c es : In c (calls es) <-> exists a, In (Call c a) es.
Proof.
  induction es as [|e es IH]; simpl.
  - split; [tauto | intros [a []]].
  - destruct e as [c' a'| |]; simpl; rewrite ?IH; split.
    + intros [->|[a Ha]]; eauto.
    + intros [a [Ha|Ha]]; [inversion Ha; auto | eauto].
    + intros [a Ha]; eauto.
    + intros [a [Ha|Ha]]; [discriminate | eauto].
    + intros [a Ha]; eauto.
    + intros [a [Ha|Ha]]; [discriminate | eauto].
Qed.

Lemma sat_ret {A} P (R : A -> Prop) S a : R a -> sat P R S (ret_ a).
Proof. intros Ha h; simpl; auto. Qed.

Lemma sat_bind {A B} P (R1 : A -> Prop) (R2 : B -> Prop) S m f :
  sat P R1 S m -> (forall a, R1 a -> sat P R2 S (f a)) -> sat P R2 S (bind m f).
Proof.
  intros Hm Hf h. unfold bind.
  destruct (Hm h) as [Hes Ho]. destruct (m h) as [es [a|s]]; simpl in *.
  - destruct (Hf a Ho (h ++ es)) as [Hes' Ho'].
    destruct (f a (h ++ es)) as [es' o']; simpl in *.
    rewrite calls_app, Forall_app. auto.
  - auto.
Qed.

Lemma sat_weaken {A} (P P' : syscall -> Prop) (R R' : A -> Prop)
      (S S' : stop -> Prop) m :
  sat P R S m ->
  (forall c, P c -> P' c) -> (forall a, R a -> R' a) ->
  (forall s, S s -> S' s) -> sat P' R' S' m.
Proof.
  intros Hm HP HR HS h. destruct (Hm h) as [Hes Ho]. split.
  - eapply Forall_impl; eauto.
  - destruct (snd (m h)); auto.
Qed.

Lemma sat_emit P (R : unit -> Prop) S e :
  (forall c a, e <> Call c a) -> R tt -> sat P R S (emit e).
Proof.
  intros He HR h; simpl. destruct e; simpl; auto.
  exfalso; eapply He; reflexivity.
Qed.

Lemma sat_eprint P (R : unit -> Prop) S msg : R tt -> sat P R S (eprint msg).
Proof. intros; apply sat_emit; auto; discriminate. Qed.

Lemma sat_exit {A} P (R : A -> Prop) (S : stop -> Prop) :
  S (Exited 255) -> sat P R S (exit (-1)).
Proof. intros HS h; simpl; auto. Qed.

Lemma sat_errorf {A} P (R : A -> Prop) (S : stop -> Prop) msg :
  S (Exited 255) -> sat P R S (errorf msg).
Proof.
  intros HS. unfold errorf.
  apply sat_bind with (R1 := any); [apply sat_eprint; exact I|].
  intros; apply sat_exit; assumption.
Qed.

Lemma sat_undefined {A} P (R : A -> Prop) (S : stop -> Prop) :
  S Undefined -> sat P R S undefined.
Proof. intros HS h; simpl; auto. Qed.

Lemma sat_when P (R : unit -> Prop) S b m :
  R tt -> sat P R S m -> sat P R S (when b m).
Proof. intros HR Hm; destruct b; simpl; [assumption | apply sat_ret; assumption]. Qed.

Section SatProgram.

Variable kernel : os.
Variable P : syscall -> Prop.
Variable S : stop -> Prop.
Hypothesis exits_255 : S (Exited 255).

Lemma sat_sys (R : answer -> Prop) c :
  P c -> (forall a, R a) -> sat P R S (sys kernel c).
Proof. intros Hc HR h; simpl; auto. Qed.

Lemma sat_checkreturn (R : answer -> Prop) a name arg :
  (0 <= ret a -> R a) -> sat P R S (checkreturn a name arg).
Proof.
  intros HR. unfold checkreturn. destruct (Z.leb_spec 0 (ret a)).
  - apply sat_ret; auto.
  - apply sat_bind with (R1 := any); [apply sat_emit; [discriminate | exact I]|].
    intros; apply sat_exit; assumption.
Qed.

Lemma sat_ok (R : answer -> Prop) name arg c :
  P c -> (forall a, 0 <= ret a -> R a) -> sat P R S (ok kernel name arg c).
Proof.
  intros Hc HR. unfold ok.
  apply sat_bind with (R1 := any); [apply sat_sys; [assumption | exact (fun _ => I)]|].
  intros a _. apply sat_checkreturn. auto.
Qed.

End SatProgram.

(* ------------------------------------------------------------------ *)
(** ** The system calls of the option loop *)

Lemma strchrnul_le s from c : (strchrnul s from c <= String.length s)%nat.
Proof.
  revert from; induction s as [|x s IH]; intros from; simpl; [lia|].
  destruct from; [destruct (Ascii.eqb x c)|]; try lia.
  - specialize (IH O); lia.
  - specialize (IH from); lia.
Qed.

Lemma length_drop n s : (String.length (drop n s) <= String.length s)%nat.
Proof.
  revert s; induction n as [|n IH]; intros s; simpl; [lia|].
  destruct s; simpl; [lia|]. specialize (IH s); lia.
Qed.

Ltac call_shape :=
  solve [ constructor
        | constructor; constructor
        | constructor; constructor; constructor ].

Ltac sat_step :=
  lazymatch goal with
  | |- sat _ _ _ (ret_ _) => apply sat_ret; try exact I
  | |- sat _ _ _ (errorf _) => apply sat_errorf
  | |- sat _ _ _ (exit _) => apply sat_exit
  | |- sat _ _ _ (eprint _) => apply sat_eprint; try exact I
  | |- sat _ _ _ (ok _ _ _ _) =>
      apply sat_ok; [ | call_shape | intros; try exact I ]
  | |- sat _ _ _ (sys _ _) =>
      apply sat_sys; [ call_shape | intros; try exact I ]
  | |- sat _ _ _ (when _ _) => apply sat_when; [ exact I | ]
  | |- sat _ _ _ (bind _ _) =>
      apply sat_bind with (R1 := any); [ | intros ? _ ]
  end.

Ltac sat_steps := repeat sat_step; try first [assumption | exact I].

Section OptionCalls.

Variable kernel : os.
Variable S : stop -> Prop.
Hypothesis exits_255 : S (Exited 255).

Lemma mkdir_loop_sat dir mode fuel end_ :
  mode = 493 -> short dir \/ S Undefined ->
  sat mkdir_call (@any unit) S (mkdir_loop kernel fuel dir mode end_).
Proof.
  intros -> Hlen. revert end_.
  induction fuel as [|fuel IH]; intros end_; cbn [mkdir_loop]; [sat_steps|].
  destruct (get end_ dir) as [_|]; [|sat_steps].
  destruct (Z.leb_spec 1024 (Z.of_nat (strchrnul dir (Datatypes.S end_) "/")))
    as [Hbig|_].
  - apply sat_undefined. destruct Hlen as [Hlen|]; [|assumption].
    pose proof (strchrnul_le dir (Datatypes.S end_) "/").
    unfold short, strlen in Hlen. lia.
  - apply sat_bind with (R1 := any);
      [sat_steps|].
    intros a _.
    destruct ((0 <=? ret a) && negb (Z.land (st_mode a) K.S_IFDIR =? 0));
      [apply IH|].
    apply sat_bind with (R1 := any);
      [sat_steps|].
    intros r _. destruct (ret r <? 0); [sat_steps | apply IH].
Qed.

Lemma recursive_mkdir_calls dir :
  short dir \/ S Undefined ->
  sat mkdir_call (@any unit) S (recursive_mkdir kernel dir 493).
Proof. intros; apply mkdir_loop_sat; auto. Qed.

Lemma recursive_mkdir_sat dir :
  short dir \/ S Undefined ->
  sat option_call (@any unit) S (recursive_mkdir kernel dir 493).
Proof.
  intros. eapply sat_weaken; [apply recursive_mkdir_calls; assumption| | |];
    auto using oc_mkdir.
Qed.

Lemma opt_s_sat l optarg :
  sat option_call (@any locals) S (opt_s kernel l optarg).
Proof.
  unfold opt_s.
  apply sat_bind with (R1 := any);
    [sat_steps|].
  intros _ _. sat_steps.
Qed.

Lemma bind_mount_calls l src dst :
  short dst \/ S Undefined ->
  sat (bind_call src dst) (fun l' => l' = l) S (bind_mount kernel l src dst).
Proof.
  intros Hlen. unfold bind_mount.
  apply sat_bind with (R1 := any); [sat_steps|]. intros _ _.
  apply sat_bind with (R1 := any); [sat_steps|]. intros buf _.
  apply sat_bind with (R1 := any); [|intros; apply sat_ret; reflexivity].
  destruct (S_ISDIR (st_mode buf)); [|sat_steps].
  apply sat_bind with (R1 := any); [sat_steps|]. intros buf' _.
  apply sat_bind with (R1 := any); [|intros; sat_steps].
  apply sat_when; [exact I|].
  eapply sat_weaken; [apply recursive_mkdir_calls; assumption| | |];
    auto using bc_mkdir.
Qed.

Lemma opt_b_sat l optarg :
  short optarg \/ S Undefined ->
  sat option_call (fun l' => l' = l) S (opt_b kernel l optarg).
Proof.
  intros Hlen. unfold opt_b.
  destruct (strchr optarg "=") as [i|]; [|sat_steps].
  destruct (match get (Datatypes.S i) optarg with
            | Some c => Ascii.eqb c "/" | None => false end); [sat_steps|].
  eapply sat_weaken; [apply bind_mount_calls| | |]; auto.
  - destruct Hlen as [Hlen|]; [left|right; assumption].
    pose proof (length_drop (Datatypes.S i) optarg).
    unfold short, strlen in *; lia.
  - intros c Hc; destruct Hc; auto using option_call.
Qed.

Lemma opt_t_calls l optarg :
  short optarg \/ S Undefined ->
  sat (tmp_call optarg) (fun l' => l' = l) S (opt_t kernel l optarg).
Proof.
  intros Hlen. unfold opt_t.
  apply sat_bind with (R1 := any); [sat_steps|]. intros _ _.
  apply sat_bind with (R1 := any); [sat_steps|]. intros buf _.
  apply sat_bind with (R1 := any).
  { apply sat_when; [exact I|].
    eapply sat_weaken; [apply recursive_mkdir_calls; assumption| | |];
      auto using tc_mkdir. }
  intros _ _.
  apply sat_bind with (R1 := any); [sat_steps|].
  intros; apply sat_ret; reflexivity.
Qed.

Lemma opt_t_sat l optarg :
  short optarg \/ S Undefined ->
  sat option_call (fun l' => l' = l) S (opt_t kernel l optarg).
Proof.
  intros. eapply sat_weaken; [apply opt_t_calls; assumption| | |]; auto.
  intros c Hc; destruct Hc; auto using option_call.
Qed.

Lemma opt_u_sat uid l optarg :
  sat option_call (fun l' => l' = l) S (opt_u kernel uid l optarg).
Proof.
  unfold opt_u. destruct (sscanf_d optarg) as [newuid|]; [|sat_steps].
  repeat (apply sat_bind with (R1 := any); [sat_steps|]; intros ? _).
  apply sat_ret; reflexivity.
Qed.

Lemma deny_setgroups_sat :
  sat option_call (@any unit) S (deny_setgroups kernel).
Proof.
  unfold deny_setgroups.
  apply sat_bind with (R1 := any);
    [sat_steps|].
  intros fd _. sat_steps.
Qed.

Lemma write_gid_map_sat gid optarg :
  sat option_call (@any unit) S (write_gid_map kernel gid optarg).
Proof.
  unfold write_gid_map. destruct (sscanf_d optarg) as [newgid|]; [|sat_steps].
  sat_steps.
Qed.

Lemma opt_g_sat gid l optarg :
  sat option_call (fun l' => l' = l) S (opt_g kernel gid l optarg).
Proof.
  unfold opt_g.
  apply sat_bind with (R1 := any); [apply deny_setgroups_sat|]. intros _ _.
  apply sat_bind with (R1 := any); [apply write_gid_map_sat|]. intros _ _.
  apply sat_ret; reflexivity.
Qed.

(** A [case] other than ['s'] leaves [root_set] as it was. *)
Lemma option_case_sat uid gid l opt optarg :
  short optarg \/ S Undefined ->
  sat option_call (fun l' => opt <> "s"%char -> root_set l' = root_set l) S
      (option_case kernel uid gid l (opt, optarg)).
Proof.
  intros Hlen. unfold option_case.
  destruct (Ascii.eqb opt "q"); [apply sat_ret; reflexivity|].
  destruct (Ascii.eqb_spec opt "s") as [->|_].
  { eapply sat_weaken; [apply opt_s_sat| | |]; auto. intros ? _ H; congruence. }
  destruct (Ascii.eqb opt "B"); [apply sat_ret; reflexivity|].
  destruct (Ascii.eqb opt "b").
  { eapply sat_weaken; [apply opt_b_sat; assumption| | |]; auto.
    intros ? -> _; reflexivity. }
  destruct (Ascii.eqb opt "t").
  { eapply sat_weaken; [apply opt_t_sat; assumption| | |]; auto.
    intros ? -> _; reflexivity. }
  destruct (Ascii.eqb opt "u").
  { eapply sat_weaken; [apply opt_u_sat| | |]; auto.
    intros ? -> _; reflexivity. }
  destruct (Ascii.eqb opt "g").
  { eapply sat_weaken; [apply opt_g_sat| | |]; auto.
    intros ? -> _; reflexivity. }
  destruct (Ascii.eqb opt "d"); [apply sat_ret; reflexivity|].
  destruct (Ascii.eqb opt "D"); [|sat_steps].
  apply sat_bind with (R1 := any); [apply recursive_mkdir_sat; assumption|].
  intros; apply sat_ret; reflexivity.
Qed.

Lemma option_loop_sat uid gid opts : forall l,
  Forall (fun o => short (snd o) \/ S Undefined) opts ->
  sat option_call
      (fun l' => ~ In "s"%char (map fst opts) -> root_set l' = root_set l) S
      (option_loop kernel uid gid opts l).
Proof.
  induction opts as [|[opt optarg] opts IH]; intros l Hlen; simpl.
  - apply sat_ret; reflexivity.
  - inversion Hlen as [|? ? Ho Hrest]; subst; simpl in Ho.
    eapply sat_bind; [apply option_case_sat; eassumption|].
    intros l' Hl'. eapply sat_weaken; [apply IH; assumption| | |]; auto.
    simpl. intros l'' Hl'' Hno. rewrite Hl'', Hl'; tauto.
Qed.

End OptionCalls.

(* ------------------------------------------------------------------ *)
(** ** What [getopt] hands to the loop *)

Lemma short_empty : short "".
Proof. reflexivity. Qed.

Lemma short_tail c s : short (String c s) -> short s.
Proof. unfold short, strlen; simpl; lia. Qed.

(** An [optarg] is a piece of an argument. *)
Lemma cluster_short cl next :
  short cl -> (forall a, next = Some a -> short a) ->
  Forall (fun o => short (snd o)) (fst (cluster cl next)).
Proof.
  intros Hcl Hnext. induction cl as [|c cl IH]; simpl; [constructor|].
  specialize (IH (short_tail _ _ Hcl)).
  destruct (option_kind c) as [[|]|].
  - destruct cl as [|c' cl'].
    + destruct next as [a|]; simpl; repeat constructor; simpl;
        auto using short_empty.
    + simpl; repeat constructor; simpl. eapply short_tail; eassumption.
  - destruct (cluster cl next) as [r used]; simpl in *.
    constructor; [apply short_empty | assumption].
  - destruct (cluster cl next) as [r used]; simpl in *.
    constructor; [apply short_empty | assumption].
Qed.

Lemma getopt_all_short args :
  Forall short args ->
  Forall (fun o => short (snd o)) (fst (getopt_all args)).
Proof.
  remember (List.length args) as n eqn:Hn.
  assert (Hle : (List.length args <= n)%nat) by lia. clear Hn.
  revert args Hle.
  induction n as [|n IH]; intros args Hle Hshort.
  - destruct args; [constructor | simpl in Hle; lia].
  - destruct args as [|a rest]; [constructor|].
    inversion Hshort as [|? ? Ha Hrest]; subst. simpl in Hle.
    assert (Hrest' : Forall (fun o => short (snd o)) (fst (getopt_all rest)))
      by (apply IH; [lia | assumption]).
    assert (Hskip : Forall (fun o => short (snd o))
                      (fst match rest with
                           | [] => ([], [])
                           | _ :: rest' => getopt_all rest'
                           end)).
    { destruct rest as [|b rest']; [constructor|].
      inversion Hrest; subst. apply IH; [simpl in Hle; lia | assumption]. }
    assert (Hcl : forall cl, short cl ->
                Forall (fun o => short (snd o))
                  (fst (let (here, used) := cluster cl (hd_error rest) in
                        let (later, operands) :=
                          if used then
                            match rest with
                            | [] => ([], [])
                            | _ :: rest' => getopt_all rest'
                            end
                          else getopt_all rest in
                        (here ++ later, operands)))).
    { intros cl Hcl.
      pose proof (cluster_short cl (hd_error rest) Hcl) as Hhere.
      destruct (cluster cl (hd_error rest)) as [here used]; simpl in Hhere.
      assert (Forall (fun o => short (snd o)) here) as Hh.
      { apply Hhere. intros b Hb. destruct rest; [discriminate|].
        inversion Hb; subst. inversion Hrest; assumption. }
      destruct used.
      - destruct (match rest with [] => _ | _ :: rest' => _ end)
          as [later operands]; simpl in *. apply Forall_app; auto.
      - destruct (getopt_all rest) as [later operands]; simpl in *.
        apply Forall_app; auto. }
    cbn [getopt_all].
    destruct a as [|c cl]; [constructor|].
    destruct c as [[] [] [] [] [] [] [] []]; try constructor.
    destruct cl as [|c' cl']; [constructor|].
    destruct c' as [[] [] [] [] [] [] [] []];
      try (apply Hcl; eapply short_tail; eassumption).
    destruct cl'; [constructor|].
    apply Hcl; eapply short_tail; eassumption.
Qed.

(* ------------------------------------------------------------------ *)
(** ** The system calls of [main] *)

Lemma sat_execv kernel (P : syscall -> Prop) (S : stop -> Prop) b argv :
  P (Execv b argv) -> S Replaced -> sat P (@any answer) S (execv kernel b argv).
Proof.
  intros HP HS h; simpl. split; [auto|].
  destruct (ret (kernel h (Execv b argv)) <? 0); [exact I | assumption].
Qed.

Section MainCalls.

Variable kernel : os.

Lemma prologue_sat (S : stop -> Prop) :
  S (Exited 255) -> sat early_call (@any unit) S (prologue kernel).
Proof. intros HS. unfold prologue. sat_steps. Qed.

Lemma pivot_sat (S : stop -> Prop) :
  S (Exited 255) -> sat main_call (@any unit) S (pivot kernel).
Proof. intros HS. unfold pivot. sat_steps. Qed.

Lemma handoff_sat l operands :
  sat main_call (@any unit) (fun _ => True) (handoff kernel l operands).
Proof.
  unfold handoff.
  apply sat_bind with (R1 := any); [destruct (child_dir l); sat_steps|].
  intros _ _.
  apply sat_bind with (R1 := any); [sat_steps|]. intros _ _.
  apply sat_bind with (R1 := any);
    [apply sat_execv; [constructor | exact I]|].
  intros a _.
  apply sat_bind with (R1 := any);
    [apply sat_checkreturn; [exact I | intros; exact I]|].
  intros; sat_steps.
Qed.

Lemma main_sat uid gid args :
  sat main_call (@any unit) (fun _ => True) (main kernel uid gid args).
Proof.
  unfold main.
  apply sat_bind with (R1 := any).
  { eapply sat_weaken; [apply (prologue_sat (fun _ => True) I)| | |];
      auto using main_call. }
  intros _ _. destruct (getopt_all args) as [opts operands].
  apply sat_bind with (R1 := any).
  { eapply sat_weaken;
      [apply (option_loop_sat kernel (fun _ => True) I uid gid opts initial)
      | auto using main_call, early_call
      | intros; exact I
      | auto ].
    apply Forall_forall; auto. }
  intros l _.
  apply sat_bind with (R1 := any); [destruct (root_set l); sat_steps|].
  intros _ _.
  apply sat_bind with (R1 := any); [apply pivot_sat; exact I|].
  intros _ _. apply handoff_sat.
Qed.

(** Without an ['s'] among the options, [root_set] is still 0 after the
    loop and [main] stops at line 272. *)
Lemma main_without_root uid gid args :
  Forall short args ->
  ~ In "s"%char (map fst (fst (getopt_all args))) ->
  sat early_call (fun _ : unit => False) (fun s => s = Exited 255)
      (main kernel uid gid args).
Proof.
  intros Hshort Hno. unfold main.
  apply sat_bind with (R1 := any); [apply prologue_sat; reflexivity|].
  intros _ _.
  pose proof (getopt_all_short args Hshort) as Hopts.
  destruct (getopt_all args) as [opts operands]; simpl in Hno, Hopts.
  apply sat_bind with (R1 := fun l => root_set l = false).
  { eapply sat_weaken;
      [apply (option_loop_sat kernel (fun s => s = Exited 255) eq_refl
                              uid gid opts initial)
      | auto using early_call
      | intros l Hl; rewrite Hl by assumption; reflexivity
      | auto ].
    eapply Forall_impl; [|exact Hopts]. intros; left; assumption. }
  intros l Hl. rewrite Hl.
  apply sat_bind with (R1 := fun _ => False); [|intros ? []].
  apply sat_errorf. reflexivity.
Qed.

End MainCalls.

Lemma bind_prefix {A B} (m : M A) (f : A -> M B) h :
  exists es, fst (bind m f h) = fst (m h) ++ es.
Proof.
  unfold bind. destruct (m h) as [es [a|s]]; simpl.
  - destruct (f a (h ++ es)) as [es' o]; simpl. eauto.
  - exists []. rewrite app_nil_r. reflexivity.
Qed.

(** Every run starts with [prctl], and goes on with [unshare] when that
    went well. *)
Lemma run_starts_with_unshare kernel uid gid args :
  exists a rest,
    fst (run kernel uid gid args) =
      Call (Prctl K.PR_SET_PDEATHSIG K.SIGKILL) a :: rest /\
    (0 <= ret a ->
     exists a' rest', rest = Call (Unshare unshare_flags) a' :: rest').
Proof.
  unfold run, main.
  destruct (bind_prefix (prologue kernel)
              (fun _ => let (opts, operands) := getopt_all args in
                        l <- option_loop kernel uid gid opts initial ;;
                        (if root_set l then ret_ tt
                         else errorf "-s option is mandatory") ;;
                        pivot kernel ;; handoff kernel l operands) [])
    as [es Hes].
  rewrite Hes. clear Hes.
  unfold prologue.
  match goal with |- context [bind (ok ?k ?n ?g ?c) ?f] =>
    set (rest := f) end.
  unfold bind at 1. unfold ok at 1, bind at 1, sys at 1, checkreturn at 1.
  cbn [fst snd app].
  set (a := kernel [] (Prctl K.PR_SET_PDEATHSIG K.SIGKILL)).
  destruct (Z.leb_spec 0 (ret a)) as [Hok|Hbad].
  - cbn. unfold rest.
    unfold bind at 1. unfold ok at 1, bind at 1, sys at 1.
    cbn [fst snd app].
    set (a' := kernel _ (Unshare unshare_flags)).
    destruct (checkreturn a' "unshare" "unshare_flags" _) as [es1 [x|s]].
    + destruct (bind _ _ _) as [es2 o]. cbn.
      do 2 eexists. split; [reflexivity|]. intros _. do 2 eexists. reflexivity.
    + cbn.
      do 2 eexists. split; [reflexivity|]. intros _. do 2 eexists. reflexivity.
  - cbn. eexists; eexists; split; [reflexivity | intros; lia].
Qed.

(* ------------------------------------------------------------------ *)
(** ** Failures that end the run *)

Lemma fatal_quiet {A} T (m : M A) :
  (forall h, calls (fst (m h)) = []) -> fatal T m.
Proof.
  intros Hq h es1 c a es2 Hes _ _. specialize (Hq h).
  rewrite Hes, calls_app in Hq. simpl in Hq.
  apply app_eq_nil in Hq. destruct Hq; discriminate.
Qed.

Lemma fatal_ret {A} T (a : A) : fatal T (ret_ a).
Proof. apply fatal_quiet; reflexivity. Qed.

Lemma fatal_emit T e : (forall c a, e <> Call c a) -> fatal T (emit e).
Proof.
  intros He. apply fatal_quiet. intros h; simpl.
  destruct e; try reflexivity. exfalso; eapply He; reflexivity.
Qed.

Lemma fatal_eprint T msg : fatal T (eprint msg).
Proof. apply fatal_emit; discriminate. Qed.

Lemma fatal_exit {A} T code : fatal T (@exit A code).
Proof. apply fatal_quiet; reflexivity. Qed.

Lemma fatal_undefined {A} T : fatal T (@undefined A).
Proof. apply fatal_quiet; reflexivity. Qed.

Lemma fatal_errorf {A} T msg : fatal T (@errorf A msg).
Proof. apply fatal_quiet; reflexivity. Qed.

Lemma gives_up_errorf {A} msg : gives_up (@errorf A msg).
Proof. intros h; split; reflexivity. Qed.

Lemma fatal_bind {A B} T (m : M A) (f : A -> M B) :
  fatal T m -> (forall a, fatal T (f a)) -> fatal T (bind m f).
Proof.
  intros Hm Hf h es1 c a es2 Hes Hneg HT. unfold bind in *.
  specialize (Hm h). destruct (m h) as [es [x|s]]; simpl in *.
  - specialize (Hf x (h ++ es)).
    destruct (f x (h ++ es)) as [es' o]; simpl in *.
    apply app_eq_app in Hes. destruct Hes as [l [[H1 H2]|[H1 H2]]].
    + destruct l as [|e l].
      * simpl in H2. rewrite app_nil_r in H1. subst.
        apply (Hf [] c a es2); auto.
      * inversion H2; subst.
        destruct (Hm es1 c a l eq_refl Hneg HT) as [_ Habs]. discriminate.
    + apply (Hf l c a es2); auto.
  - destruct (Hm es1 c a es2 Hes Hneg HT) as [Hq Hs].
    split; [assumption | congruence].
Qed.

Lemma fatal_weaken {A} (T T' : syscall -> Prop) (m : M A) :
  fatal T m -> (forall c, T c -> T' c) -> fatal T' m.
Proof. intros Hm HT h es1 c a es2 Hes Hneg HT'. eapply Hm; eauto. Qed.

Lemma fatal_when T b m : fatal T m -> fatal T (when b m).
Proof. intros; destruct b; simpl; [assumption | apply fatal_ret]. Qed.

Section FatalProgram.

Variable kernel : os.
Variable T : syscall -> Prop.

(** A call whose failure is looked at: what follows gives up when the
    call failed. *)
Lemma fatal_sys_bind {B} c (f : answer -> M B) :
  (forall a, ret a < 0 -> T c \/ gives_up (f a)) ->
  (forall a, fatal T (f a)) ->
  fatal T (bind (sys kernel c) f).
Proof.
  intros Hfail Hf h es1 c0 a0 es2 Hes Hneg HT.
  unfold bind, sys in *. cbn [fst snd] in *.
  set (a := kernel h c) in *.
  specialize (Hf a (h ++ [Call c a])). specialize (Hfail a).
  destruct (f a (h ++ [Call c a])) as [es' o] eqn:Hrun.
  cbn [fst snd app] in *.
  destruct es1 as [|e es1]; simpl in Hes; inversion Hes; subst.
  - destruct (Hfail Hneg) as [|Hg]; [contradiction|].
    match type of Hrun with ?lhs = _ =>
      match lhs with f ?x ?y => specialize (Hg y) end end.
    rewrite Hrun in Hg. exact Hg.
  - eapply Hf; eauto.
Qed.

Lemma fatal_sys c : T c -> fatal T (sys kernel c).
Proof.
  intros HT h es1 c0 a0 es2 Hes Hneg HT0. simpl in Hes.
  destruct es1 as [|e [|e' es1]]; simpl in Hes; inversion Hes; subst.
  contradiction.
Qed.

Lemma gives_up_checkreturn a name arg :
  ret a < 0 -> gives_up (checkreturn a name arg).
Proof.
  intros Hneg h. unfold checkreturn.
  destruct (Z.leb_spec 0 (ret a)); [lia|]. split; reflexivity.
Qed.

Lemma fatal_checkreturn a name arg : fatal T (checkreturn a name arg).
Proof.
  apply fatal_quiet. intros h. unfold checkreturn.
  destruct (0 <=? ret a); reflexivity.
Qed.

Lemma fatal_ok name arg c : fatal T (ok kernel name arg c).
Proof.
  unfold ok. apply fatal_sys_bind.
  - intros a Hneg. right. apply gives_up_checkreturn; assumption.
  - intros a. apply fatal_checkreturn.
Qed.

(** [ok(execv, ...)]: the two ways it can go. *)
Lemma execv_checked {B} b argv name arg (k : M B) h :
  let c := Execv b argv in
  let a := kernel h c in
  (a <- execv kernel b argv ;; checkreturn a name arg ;; k) h =
  if ret a <? 0
  then ([Call c a; Report name arg (ret a) (err a)], Stop (Exited 255))
  else ([Call c a], Stop Replaced).
Proof.
  intros c a. unfold bind, execv, checkreturn, emit, exit. fold c a.
  destruct (Z.ltb_spec (ret a) 0) as [Hfail|Hfine].
  - destruct (Z.leb_spec 0 (ret a)); [lia | reflexivity].
  - reflexivity.
Qed.

Lemma fatal_execv {B} b argv name arg (k : M B) :
  fatal T (a <- execv kernel b argv ;; checkreturn a name arg ;; k).
Proof.
  intros h es1 c0 a0 es2. rewrite execv_checked.
  destruct (Z.ltb_spec (ret (kernel h (Execv b argv))) 0) as [Hfail|Hfine];
    cbn [fst snd]; intros Hes Hneg HT.
  - destruct es1 as [|e [|e' [|e'' es1]]]; simpl in Hes; inversion Hes; subst.
    split; reflexivity.
  - destruct es1 as [|e [|e' es1]]; simpl in Hes; inversion Hes; subst.
    lia.
Qed.

End FatalProgram.

Ltac fatal_step :=
  lazymatch goal with
  | |- fatal _ (ret_ _) => apply fatal_ret
  | |- fatal _ (errorf _) => apply fatal_errorf
  | |- fatal _ (exit _) => apply fatal_exit
  | |- fatal _ (eprint _) => apply fatal_eprint
  | |- fatal _ (ok _ _ _ _) => apply fatal_ok
  | |- fatal _ (when _ _) => apply fatal_when
  | |- fatal _ (bind _ _) => apply fatal_bind; [ | intros ? ]
  end.

Ltac fatal_steps := repeat fatal_step.

Section FatalCases.

Variable kernel : os.

Lemma mkdir_loop_fatal dir mode fuel : forall end_,
  fatal is_lstat (mkdir_loop kernel fuel dir mode end_).
Proof.
  induction fuel as [|fuel IH]; intros end_; cbn [mkdir_loop];
    [apply fatal_ret|].
  destruct (get end_ dir) as [_|]; [|apply fatal_ret].
  destruct (1024 <=? _); [apply fatal_undefined|].
  apply fatal_bind; [apply fatal_sys; eexists; reflexivity|].
  intros a.
  destruct ((0 <=? ret a) && negb (Z.land (st_mode a) K.S_IFDIR =? 0));
    [apply IH|].
  apply fatal_sys_bind.
  - intros r Hneg. right. destruct (Z.ltb_spec (ret r) 0); [|lia].
    intros h; split; reflexivity.
  - intros r. destruct (ret r <? 0); [fatal_steps | apply IH].
Qed.

Lemma recursive_mkdir_fatal dir mode :
  fatal is_lstat (recursive_mkdir kernel dir mode).
Proof. apply mkdir_loop_fatal. Qed.

Lemma opt_s_fatal l optarg :
  fatal (fun c => c = rprivate) (opt_s kernel l optarg).
Proof.
  unfold opt_s. apply fatal_bind; [apply fatal_sys; reflexivity|].
  intros _. fatal_steps.
Qed.

Lemma bind_mount_fatal l src dst :
  fatal is_lstat (bind_mount kernel l src dst).
Proof.
  unfold bind_mount. fatal_steps.
  destruct (S_ISDIR (st_mode _)); fatal_steps.
  - apply fatal_sys; eexists; reflexivity.
  - apply recursive_mkdir_fatal.
Qed.

Lemma opt_b_fatal l optarg : fatal is_lstat (opt_b kernel l optarg).
Proof.
  unfold opt_b.
  destruct (strchr optarg "=") as [i|]; [|fatal_steps].
  destruct (match get (Datatypes.S i) optarg with
            | Some c => Ascii.eqb c "/" | None => false end); [fatal_steps|].
  apply bind_mount_fatal.
Qed.

Lemma opt_t_fatal l optarg : fatal is_lstat (opt_t kernel l optarg).
Proof.
  unfold opt_t. fatal_steps.
  - apply fatal_sys; eexists; reflexivity.
  - apply recursive_mkdir_fatal.
Qed.

Lemma opt_u_fatal uid l optarg : fatal nothing (opt_u kernel uid l optarg).
Proof.
  unfold opt_u. destruct (sscanf_d optarg); fatal_steps.
Qed.

Lemma deny_setgroups_fatal :
  fatal (fun c => c = open_setgroups) (deny_setgroups kernel).
Proof.
  unfold deny_setgroups. apply fatal_bind; [apply fatal_sys; reflexivity|].
  intros fd. fatal_steps.
Qed.

Lemma write_gid_map_fatal gid optarg :
  fatal nothing (write_gid_map kernel gid optarg).
Proof.
  unfold write_gid_map. destruct (sscanf_d optarg); fatal_steps.
Qed.

Lemma opt_g_fatal gid l optarg :
  fatal (fun c => c = open_setgroups) (opt_g kernel gid l optarg).
Proof.
  unfold opt_g. apply fatal_bind; [apply deny_setgroups_fatal|].
  intros _. apply fatal_bind; [|intros; apply fatal_ret].
  eapply fatal_weaken; [apply write_gid_map_fatal | intros ? []].
Qed.

Lemma option_case_fatal uid gid l o :
  fatal unchecked (option_case kernel uid gid l o).
Proof.
  destruct o as [opt optarg]. unfold option_case.
  destruct (Ascii.eqb opt "q"); [apply fatal_ret|].
  destruct (Ascii.eqb opt "s").
  { eapply fatal_weaken; [apply opt_s_fatal | intros ? ->; constructor]. }
  destruct (Ascii.eqb opt "B"); [apply fatal_ret|].
  destruct (Ascii.eqb opt "b").
  { eapply fatal_weaken; [apply opt_b_fatal | intros ? [p ->]; constructor]. }
  destruct (Ascii.eqb opt "t").
  { eapply fatal_weaken; [apply opt_t_fatal | intros ? [p ->]; constructor]. }
  destruct (Ascii.eqb opt "u").
  { eapply fatal_weaken; [apply opt_u_fatal | intros ? []]. }
  destruct (Ascii.eqb opt "g").
  { eapply fatal_weaken; [apply opt_g_fatal | intros ? ->; constructor]. }
  destruct (Ascii.eqb opt "d"); [apply fatal_ret|].
  destruct (Ascii.eqb opt "D"); [|apply fatal_errorf].
  apply fatal_bind; [|intros; apply fatal_ret].
  eapply fatal_weaken;
    [apply recursive_mkdir_fatal | intros ? [p ->]; constructor].
Qed.

Lemma option_loop_fatal uid gid opts : forall l,
  fatal unchecked (option_loop kernel uid gid opts l).
Proof.
  induction opts as [|o opts IH]; intros l; simpl; [apply fatal_ret|].
  apply fatal_bind; [apply option_case_fatal | intros; apply IH].
Qed.

Lemma prologue_fatal : fatal nothing (prologue kernel).
Proof. unfold prologue. fatal_steps. Qed.

Lemma pivot_fatal : fatal nothing (pivot kernel).
Proof. unfold pivot. fatal_steps. Qed.

Lemma handoff_fatal l operands : fatal nothing (handoff kernel l operands).
Proof.
  unfold handoff. apply fatal_bind; [destruct (child_dir l); fatal_steps|].
  intros _. apply fatal_bind; [fatal_steps|]. intros _.
  apply fatal_execv.
Qed.

(** In a whole run, a failing call is the end of the run unless it is an
    [lstat], the [mount] that makes the old root private, or the [open]
    of [/proc/self/setgroups]. *)
Lemma main_fatal uid gid args : fatal unchecked (main kernel uid gid args).
Proof.
  unfold main. apply fatal_bind.
  { eapply fatal_weaken; [apply prologue_fatal | intros ? []]. }
  intros _. destruct (getopt_all args) as [opts operands].
  apply fatal_bind; [apply option_loop_fatal|]. intros l.
  apply fatal_bind; [destruct (root_set l); fatal_steps|]. intros _.
  apply fatal_bind.
  { eapply fatal_weaken; [apply pivot_fatal | intros ? []]. }
  intros _. eapply fatal_weaken; [apply handoff_fatal | intros ? []].
Qed.

End FatalCases.

(* ------------------------------------------------------------------ *)
(** ** The mandatory [-s] *)

(** C1, as stated, fails: with [-t tmp] and no [-s] the run ends with exit
    status 255 only after it has unshared the namespaces and mounted the
    tmpfs. *)
Lemma C1_namespaces_and_mounts_precede_the_check :
  let r := run friendly 1000 1000 ["-t"; "tmp"] in
  ~ In "s"%char (map fst (fst (getopt_all ["-t"; "tmp"]))) /\
  calls (fst r) =
    [ Prctl K.PR_SET_PDEATHSIG K.SIGKILL;
      Unshare unshare_flags;
      Setdomainname "localdomain" 11;
      Sethostname "localhost" 9;
      Lstat "tmp"; Lstat "tmp"; Mkdir "tmp" 493;
      Mount "sandbox-tmp" "tmp" (Some "tmpfs") tmpfs_flags (Some tmpfs_data) ] /\
  existsb namespace_or_mount (calls (fst r)) = true /\
  snd r = Stop (Exited 255).
Proof.
  split; [simpl; intros [H|[]]; discriminate|].
  vm_compute. repeat split.
Qed.

(* ------------------------------------------------------------------ *)
(** ** Running the code step by step *)

Lemma bind_inv {A B} (m : M A) (f : A -> M B) h es o :
  bind m f h = (es, o) ->
  (exists s, m h = (es, Stop s) /\ o = Stop s) \/
  (exists es1 a es2,
      m h = (es1, Ret a) /\ f a (h ++ es1) = (es2, o) /\ es = es1 ++ es2).
Proof.
  unfold bind. destruct (m h) as [es1 [a|s]].
  - destruct (f a (h ++ es1)) as [es2 o'] eqn:Hf. intros Heq.
    inversion Heq; subst. right. exists es1, a, es2. auto.
  - intros Heq. inversion Heq; subst. left. eauto.
Qed.

Lemma bind_ret_inv {A B} (m : M A) (f : A -> M B) h b :
  snd (bind m f h) = Ret b ->
  exists es1 a,
    m h = (es1, Ret a) /\ snd (f a (h ++ es1)) = Ret b /\
    fst (bind m f h) = es1 ++ fst (f a (h ++ es1)).
Proof.
  unfold bind. destruct (m h) as [es1 [a|s]]; [|discriminate].
  destruct (f a (h ++ es1)) as [es2 o'] eqn:Hf. simpl. intros ->.
  exists es1, a. rewrite Hf. auto.
Qed.

Section Steps.

Variable kernel : os.

Lemma bind_sys_eq {B} c (f : answer -> M B) h :
  bind (sys kernel c) f h =
    let a := kernel h c in
    let r := f a (h ++ [Call c a]) in (Call c a :: fst r, snd r).
Proof.
  unfold bind, sys. cbv zeta.
  destruct (f (kernel h c) (h ++ [Call c (kernel h c)])); reflexivity.
Qed.

Lemma ok_eq name arg c h :
  ok kernel name arg c h =
    let a := kernel h c in
    if 0 <=? ret a then ([Call c a], Ret a)
    else ([Call c a; Report name arg (ret a) (err a)], Stop (Exited 255)).
Proof.
  unfold ok. rewrite bind_sys_eq. cbv zeta. unfold checkreturn.
  destruct (0 <=? ret (kernel h c)); reflexivity.
Qed.

Lemma bind_ok_eq {B} name arg c (f : answer -> M B) h :
  bind (ok kernel name arg c) f h =
    let a := kernel h c in
    if 0 <=? ret a then
      let r := f a (h ++ [Call c a]) in (Call c a :: fst r, snd r)
    else ([Call c a; Report name arg (ret a) (err a)], Stop (Exited 255)).
Proof.
  unfold bind at 1. rewrite ok_eq. cbv zeta.
  destruct (0 <=? ret (kernel h c)); [|reflexivity].
  destruct (f (kernel h c) (h ++ [Call c (kernel h c)])); reflexivity.
Qed.

Lemma bind_eprint_eq {B} msg (f : unit -> M B) h :
  bind (eprint msg) f h =
    let r := f tt (h ++ [Stderr msg]) in (Stderr msg :: fst r, snd r).
Proof.
  unfold bind, eprint, emit. cbv zeta.
  destruct (f tt (h ++ [Stderr msg])); reflexivity.
Qed.

Lemma bind_ret_eq {A B} (a : A) (f : A -> M B) h :
  bind (ret_ a) f h = f a h.
Proof.
  unfold bind, ret_. rewrite app_nil_r. destruct (f a h); reflexivity.
Qed.

Lemma errorf_eq {A} msg h :
  @errorf A msg h = ([Stderr msg], Stop (Exited 255)).
Proof. reflexivity. Qed.

End Steps.

Lemma bind_assoc {A B C} (m : M A) (f : A -> M B) (g : B -> M C) h :
  bind (bind m f) g h = bind m (fun a => bind (f a) g) h.
Proof.
  unfold bind. destruct (m h) as [es [a|s]]; [|reflexivity].
  destruct (f a (h ++ es)) as [es' [b|s']]; [|reflexivity].
  rewrite <- app_assoc.
  destruct (g b (h ++ es ++ es')) as [es'' o].
  rewrite app_assoc. reflexivity.
Qed.

Lemma bind_ext {A B} (m : M A) (f g : A -> M B) h :
  (forall a h', f a h' = g a h') -> bind m f h = bind m g h.
Proof.
  intros Hfg. unfold bind. destruct (m h) as [es [a|s]]; [|reflexivity].
  rewrite Hfg. reflexivity.
Qed.

Lemma bind_cong {A B} (m m' : M A) (f : A -> M B) h :
  (forall h', m h' = m' h') -> bind m f h = bind m' f h.
Proof. intros Hm. unfold bind. rewrite Hm. reflexivity. Qed.

Lemma option_loop_app kernel uid gid xs ys : forall l h,
  option_loop kernel uid gid (xs ++ ys) l h =
  bind (option_loop kernel uid gid xs l) (option_loop kernel uid gid ys) h.
Proof.
  induction xs as [|x xs IH]; intros l h; simpl.
  - rewrite bind_ret_eq. reflexivity.
  - rewrite bind_assoc. apply bind_ext. intros l' h'. apply IH.
Qed.

(* ------------------------------------------------------------------ *)
(** ** The fuel of [mkdir_loop] *)

Lemma get_some_lt s : forall n c, get n s = Some c -> (n < String.length s)%nat.
Proof.
  induction s as [|x s IH]; intros n c; simpl; [discriminate|].
  destruct n as [|n]; [lia|]. intros H. apply IH in H. lia.
Qed.

Lemma strchrnul_ge s c : forall from,
  (from <= String.length s)%nat -> (from <= strchrnul s from c)%nat.
Proof.
  induction s as [|x s IH]; intros from; simpl; [lia|].
  destruct from as [|from]; [lia|]. intros H.
  assert (from <= strchrnul s from c)%nat by (apply IH; lia). lia.
Qed.

(** Once the fuel is more than what is left of [dir], more fuel changes
    nothing: the loop always ends by finding [dir[end] == 0]. *)
Lemma mkdir_loop_fuel kernel dir mode : forall fuel fuel' end_ h,
  (String.length dir - end_ < fuel)%nat ->
  (String.length dir - end_ < fuel')%nat ->
  mkdir_loop kernel fuel dir mode end_ h =
  mkdir_loop kernel fuel' dir mode end_ h.
Proof.
  induction fuel as [|fuel IH]; intros fuel' end_ h Hf Hf'; [lia|].
  destruct fuel' as [|fuel']; [lia|]. cbn [mkdir_loop].
  destruct (get end_ dir) as [c|] eqn:Hget; [|reflexivity].
  apply get_some_lt in Hget.
  destruct (1024 <=? _); [reflexivity|].
  pose proof (strchrnul_ge dir "/" (S end_) ltac:(lia)) as Hge.
  rewrite !bind_sys_eq. cbv zeta.
  destruct (_ && _).
  - rewrite (IH fuel') by lia. reflexivity.
  - rewrite !bind_sys_eq. cbv zeta.
    destruct (ret _ <? 0); [reflexivity|].
    rewrite (IH fuel') by lia. reflexivity.
Qed.

Lemma recursive_mkdir_fuel kernel dir mode fuel h :
  (String.length dir < fuel)%nat ->
  mkdir_loop kernel fuel dir mode 0 h = recursive_mkdir kernel dir mode h.
Proof. intros H. unfold recursive_mkdir. apply mkdir_loop_fuel; lia. Qed.

(* ------------------------------------------------------------------ *)
(** ** The tmpfs mounts *)

Lemma tmpfs_mount_shape c source target flags data :
  main_call c -> c = Mount source target (Some "tmpfs") flags data ->
  source = "sandbox-tmp" /\ flags = tmpfs_flags /\ data = Some tmpfs_data.
Proof.
  intros Hc ->.
  inversion Hc as [| | | | | | | | |c He]; subst.
  inversion He as [| | | |c Ho]; subst.
  inversion Ho; subst; auto.
  match goal with H : mkdir_call _ |- _ => inversion H end.
Qed.

(** C3, as the code has it: every tmpfs mount of every run, at whatever
    path [-t] names, is made with exactly MS_NOSUID|MS_NOEXEC|MS_NOATIME:
    no-setuid, no-exec and no-atime are set, MS_NODEV is not. *)
Theorem C3_tmpfs_mounts_are_nosuid_noexec_noatime
    kernel uid gid args source target flags data :
  In (Mount source target (Some "tmpfs") flags data)
     (calls (fst (run kernel uid gid args))) ->
  flags = Z.lor (Z.lor K.MS_NOSUID K.MS_NOEXEC) K.MS_NOATIME /\
  has_flag flags K.MS_NOSUID = true /\
  has_flag flags K.MS_NOEXEC = true /\
  has_flag flags K.MS_NOATIME = true /\
  has_flag flags K.MS_NODEV = false.
Proof.
  intros Hin.
  destruct (main_sat kernel uid gid args []) as [Hcalls _].
  rewrite Forall_forall in Hcalls. apply Hcalls in Hin.
  destruct (tmpfs_mount_shape _ _ _ _ _ Hin eq_refl) as (_ & -> & _).
  repeat split.
Qed.

(** The theorem at [mkbox -s /srv/sandbox -t tmp]. *)
Lemma C3_tmpfs_flags_witness :
  In (Mount "sandbox-tmp" "tmp" (Some "tmpfs") 1034
            (Some "size=16m,nr_inodes=16k,mode=755"))
     (calls (fst (run friendly 1000 1000 ["-s"; "/srv/sandbox"; "-t"; "tmp"]))) /\
  has_flag 1034 K.MS_NOEXEC = true.
Proof.
  assert (H : In (Mount "sandbox-tmp" "tmp" (Some "tmpfs") 1034
                        (Some "size=16m,nr_inodes=16k,mode=755"))
                 (calls (fst (run friendly 1000 1000
                                  ["-s"; "/srv/sandbox"; "-t"; "tmp"]))))
    by (vm_compute; tauto).
  split; [exact H|].
  exact (proj1 (proj2 (proj2
    (C3_tmpfs_mounts_are_nosuid_noexec_noatime
       friendly 1000 1000 ["-s"; "/srv/sandbox"; "-t"; "tmp"] _ _ _ _ H)))).
Defined.

(** C3, as stated, fails: the tmpfs mount of [-t tmp] does not carry
    MS_NODEV, so device files are not disallowed on it. *)
Lemma C3_tmpfs_mount_lacks_nodev :
  exists flags,
    In (Mount "sandbox-tmp" "tmp" (Some "tmpfs") flags
              (Some "size=16m,nr_inodes=16k,mode=755"))
       (calls (fst (run friendly 1000 1000
                        ["-s"; "/srv/sandbox"; "-t"; "tmp"]))) /\
    has_flag flags K.MS_NODEV = false.
Proof. exists 1034. split; [vm_compute; tauto | reflexivity]. Qed.

(** C9: the tmpfs mounts take their quota from no argument.  Whatever the
    kernel, the locals and the path, the only [mount] that [case 't'] makes
    is the tmpfs mount at the path with the data
    [size=16m,nr_inodes=16k,mode=755], it has made that mount whenever it
    completes, and every tmpfs mount of a whole run has that data. *)
Theorem C9_tmpfs_quota_is_fixed kernel :
  (forall l path h source target fstype flags data,
      In (Mount source target fstype flags data)
         (calls (fst (opt_t kernel l path h))) ->
      source = "sandbox-tmp" /\ target = path /\ fstype = Some "tmpfs" /\
      data = Some "size=16m,nr_inodes=16k,mode=755") /\
  (forall l path h l',
      snd (opt_t kernel l path h) = Ret l' ->
      In (Mount "sandbox-tmp" path (Some "tmpfs") tmpfs_flags
                (Some "size=16m,nr_inodes=16k,mode=755"))
         (calls (fst (opt_t kernel l path h)))) /\
  (forall uid gid args source target flags data,
      In (Mount source target (Some "tmpfs") flags data)
         (calls (fst (run kernel uid gid args))) ->
      data = Some "size=16m,nr_inodes=16k,mode=755").
Proof.
  assert (Honly : forall l path h source target fstype flags data,
             In (Mount source target fstype flags data)
                (calls (fst (opt_t kernel l path h))) ->
             source = "sandbox-tmp" /\ target = path /\
             fstype = Some "tmpfs" /\
             data = Some "size=16m,nr_inodes=16k,mode=755").
  { intros l path h source target fstype flags data Hin.
    destruct (opt_t_calls kernel (fun _ => True) I l path (or_intror I) h)
      as [Hcalls _].
    rewrite Forall_forall in Hcalls. apply Hcalls in Hin.
    inversion Hin as [| |c Hc]; subst; [auto | inversion Hc]. }
  split; [exact Honly | split].
  - intros l path h l' Hret. unfold opt_t in *.
    apply bind_ret_inv in Hret. destruct Hret as (es1 & [] & _ & Hret & ->).
    apply bind_ret_inv in Hret. destruct Hret as (es2 & buf & _ & Hret & ->).
    apply bind_ret_inv in Hret. destruct Hret as (es3 & [] & _ & Hret & ->).
    rewrite bind_ok_eq in *. cbv zeta in *.
    destruct (0 <=? ret _); [|discriminate].
    rewrite !calls_app. rewrite !in_app_iff. do 3 right. simpl. auto.
  - intros uid gid args source target flags data Hin.
    destruct (main_sat kernel uid gid args []) as [Hcalls _].
    rewrite Forall_forall in Hcalls. apply Hcalls in Hin.
    destruct (tmpfs_mount_shape _ _ _ _ _ Hin eq_refl) as (_ & _ & ->).
    reflexivity.
Qed.

(** The theorem at [-t tmp]. *)
Lemma C9_tmpfs_quota_witness :
  snd (opt_t friendly initial "tmp" []) = Ret initial /\
  In (Mount "sandbox-tmp" "tmp" (Some "tmpfs") tmpfs_flags
            (Some "size=16m,nr_inodes=16k,mode=755"))
     (calls (fst (opt_t friendly initial "tmp" []))).
Proof.
  assert (H : snd (opt_t friendly initial "tmp" []) = Ret initial)
    by reflexivity.
  split; [exact H|].
  exact (proj1 (proj2 (C9_tmpfs_quota_is_fixed friendly))
               initial "tmp" [] initial H).
Defined.

(* ------------------------------------------------------------------ *)
(** ** The mount that makes the old root private *)

(** C2: the code at the failing input.  The kernel refuses the
    [mount("none", "/", NULL, MS_REC|MS_PRIVATE, NULL)] of [-s] with EINVAL
    and grants everything else: the failure is not looked at, the sandbox
    root is bind-mounted next and the run goes on to the [execv]. *)
Theorem C2_failed_rprivate_mount_is_ignored :
  let kernel := refusing is_rprivate 22 friendly in
  let r := run kernel 1000 1000 ["-s"; "/srv/sandbox"; "/bin/sh"] in
  In (Call rprivate (failed 22)) (fst r) /\
  calls (fst r) =
    [ Prctl K.PR_SET_PDEATHSIG K.SIGKILL;
      Unshare unshare_flags;
      Setdomainname "localdomain" 11;
      Sethostname "localhost" 9;
      rprivate;
      Mount "/srv/sandbox" "/srv/sandbox" None
            (Z.lor K.MS_BIND K.MS_NOSUID) None;
      Chdir "/srv/sandbox";
      Mkdir ".oldroot" 493;
      PivotRoot "." ".oldroot";
      Chroot ".";
      Umount2 ".oldroot" K.MNT_DETACH;
      Rmdir ".oldroot";
      Mount "/" "/" None remount_flags None;
      dropcaps;
      Execv (Some "/bin/sh") ["/bin/sh"] ] /\
  snd r = Stop Replaced.
Proof. vm_compute. tauto. Qed.

(** Every other step of the assembly is checked: in [case 's'] a failing
    call other than that first [mount] ends the run, and in [case 'b'] and
    [case 't'] a failing call other than an [lstat] probe does. *)
Lemma assembly_failures_are_fatal kernel l optarg :
  fatal (fun c => c = rprivate) (opt_s kernel l optarg) /\
  fatal is_lstat (opt_b kernel l optarg) /\
  fatal is_lstat (opt_t kernel l optarg).
Proof.
  auto using opt_s_fatal, opt_b_fatal, opt_t_fatal.
Qed.

(* ------------------------------------------------------------------ *)
(** ** The gid mapping *)

(** C7, as the code has it: in [case 'g'] the one call that may fail
    without ending the run is the [open] of [/proc/self/setgroups]; any
    other failing call is the last one and the exit status is 255.  When
    that [open] does not give a descriptor above 0, whatever the reason,
    nothing is written to the guard file and the gid map comes next. *)
Theorem C7_only_the_guard_open_may_fail kernel gid l optarg :
  fatal (fun c => c = open_setgroups) (opt_g kernel gid l optarg) /\
  (forall h,
      let a := kernel h open_setgroups in
      ret a <= 0 ->
      deny_setgroups kernel h = ([Call open_setgroups a], Ret tt) /\
      fst (opt_g kernel gid l optarg h) =
        Call open_setgroups a ::
        fst (write_gid_map kernel gid optarg (h ++ [Call open_setgroups a]))).
Proof.
  split; [apply opt_g_fatal|].
  intros h a Ha.
  assert (Hdeny : deny_setgroups kernel h = ([Call open_setgroups a], Ret tt)).
  { unfold deny_setgroups. rewrite bind_sys_eq. cbv zeta.
    fold open_setgroups. fold a.
    destruct (Z.ltb_spec 0 (ret a)); [lia | reflexivity]. }
  split; [exact Hdeny|].
  unfold opt_g. unfold bind at 1. rewrite Hdeny.
  destruct (bind _ _ _) as [es o] eqn:Hrest. cbn [fst].
  apply bind_inv in Hrest.
  destruct Hrest as [(s & Hw & _)|(es1 & [] & es2 & Hw & Hr & ->)];
    rewrite Hw; cbn [fst]; [reflexivity|].
  inversion Hr; subst. rewrite app_nil_r. reflexivity.
Qed.

(** The theorem on a kernel without [/proc/self/setgroups]. *)
Lemma C7_absent_guard_witness :
  ret (refusing is_open_setgroups K.ENOENT friendly [] open_setgroups) <= 0 /\
  deny_setgroups (refusing is_open_setgroups K.ENOENT friendly) [] =
    ([Call open_setgroups (failed K.ENOENT)], Ret tt).
Proof.
  assert (H : ret (refusing is_open_setgroups K.ENOENT friendly []
                            open_setgroups) <= 0) by discriminate.
  split; [exact H|].
  exact (proj1 (proj2 (C7_only_the_guard_open_may_fail
                         (refusing is_open_setgroups K.ENOENT friendly)
                         1000 initial "1000") [] H)).
Defined.

(** C7, as stated, fails: here [/proc/self/setgroups] is there but may not
    be opened (EACCES, not ENOENT); the failure is passed over all the same
    and the run reaches the [execv]. *)
Lemma C7_unopenable_guard_file_is_tolerated :
  let kernel := refusing is_open_setgroups K.EACCES friendly in
  let r := run kernel 1000 1000
               ["-s"; "/srv/sandbox"; "-g"; "1000"; "/bin/sh"] in
  In (Call open_setgroups (failed K.EACCES)) (fst r) /\
  K.EACCES <> K.ENOENT /\
  snd r = Stop Replaced.
Proof. vm_compute. repeat split; [tauto | discriminate]. Qed.

(* ------------------------------------------------------------------ *)
(** ** The root transition *)

Lemma sat_run {A} P (R : A -> Prop) S (m : M A) h es o :
  sat P R S m -> m h = (es, o) ->
  Forall P (calls es) /\ match o with Ret a => R a | Stop s => S s end.
Proof. intros Hm Hrun. specialize (Hm h). rewrite Hrun in Hm. exact Hm. Qed.

Ltac step_ok H :=
  rewrite bind_ok_eq in H; cbv zeta in H;
  match type of H with
  | context [0 <=? ?x] => destruct (0 <=? x); [|discriminate H]
  end.

Lemma pivot_ret kernel h es :
  pivot kernel h = (es, Ret tt) -> calls es = pivot_calls.
Proof.
  unfold pivot. intros H. do 6 step_ok H.
  inversion H; subst. reflexivity.
Qed.

Lemma handoff_replaced kernel l operands h es :
  handoff kernel l operands h = (es, Stop Replaced) ->
  exists chdir b,
    calls es = chdir ++ [dropcaps; Execv b operands] /\
    (chdir = [] \/ exists d, chdir = [Chdir d]).
Proof.
  unfold handoff. intros H.
  apply bind_inv in H.
  destruct H as [(s & Hc & Hs)|(es1 & [] & es2 & Hc & H & ->)].
  { inversion Hs; subst. exfalso.
    destruct (child_dir l); [|discriminate].
    step_ok Hc. discriminate. }
  assert (Hchdir : calls es1 = [] \/ exists d, calls es1 = [Chdir d]).
  { destruct (child_dir l) as [d|].
    - step_ok Hc. inversion Hc; subst. right. exists d. reflexivity.
    - inversion Hc; subst. left. reflexivity. }
  step_ok H. rewrite execv_checked in H. cbv zeta in H.
  destruct (ret _ <? 0); [discriminate|].
  inversion H; subst. rewrite calls_app. simpl.
  destruct Hchdir as [->|[d ->]]; do 2 eexists; split; eauto.
Qed.

(** C4: in every run that reaches the target binary, the calls end with
    the six calls of the root transition ([mkdir], [pivot_root], [chroot],
    [umount2] with MNT_DETACH, [rmdir], and the remount of "/" with
    MS_RDONLY, MS_NOEXEC, MS_NOSUID and MS_NODEV), then at most a [chdir],
    the [capset] and the [execv]: no mount comes after the remount.  None
    of these calls failed. *)
Theorem C4_remount_is_the_last_mount kernel uid gid args :
  snd (run kernel uid gid args) = Stop Replaced ->
  (exists before chdir b argv,
      calls (fst (run kernel uid gid args)) =
        before ++
        [ Mkdir ".oldroot" 493;
          PivotRoot "." ".oldroot";
          Chroot ".";
          Umount2 ".oldroot" K.MNT_DETACH;
          Rmdir ".oldroot";
          Mount "/" "/" None remount_flags None ] ++
        chdir ++ [dropcaps; Execv b argv] /\
      (chdir = [] \/ exists d, chdir = [Chdir d]) /\
      Forall early_call before) /\
  (has_flag remount_flags K.MS_REMOUNT = true /\
   has_flag remount_flags K.MS_RDONLY = true /\
   has_flag remount_flags K.MS_NOEXEC = true /\
   has_flag remount_flags K.MS_NOSUID = true /\
   has_flag remount_flags K.MS_NODEV = true) /\
  (forall c a, In (Call c a) (fst (run kernel uid gid args)) ->
               ret a < 0 -> unchecked c).
Proof.
  intros Hrep. split; [|split; [repeat split|]].
  - unfold run in *. destruct (main kernel uid gid args []) as [es o] eqn:Hrun.
    simpl in Hrep. subst o. cbn [fst]. unfold main in Hrun.
    apply bind_inv in Hrun.
    destruct Hrun as [(s & Hp & Hs)|(es1 & [] & es2 & Hp & Hrun & ->)].
    { inversion Hs; subst.
      destruct (sat_run _ _ _ _ _ _ _
                  (prologue_sat kernel (fun s => s <> Replaced)
                                ltac:(discriminate)) Hp) as [_ Habs].
      congruence. }
    destruct (sat_run _ _ _ _ _ _ _
                (prologue_sat kernel (fun _ => True) I) Hp) as [Hpc _].
    destruct (getopt_all args) as [opts operands].
    apply bind_inv in Hrun.
    assert (Hloop := option_loop_sat kernel (fun s => s <> Replaced)
                       ltac:(discriminate) uid gid opts initial
                       ltac:(apply Forall_forall; intros; right; discriminate)).
    destruct Hrun as [(s & Ho & Hs)|(es3 & l & es4 & Ho & Hrun & ->)].
    { inversion Hs; subst.
      destruct (sat_run _ _ _ _ _ _ _ Hloop Ho) as [_ Habs]. congruence. }
    destruct (sat_run _ _ _ _ _ _ _ Hloop Ho) as [Hoc _].
    apply bind_inv in Hrun.
    destruct Hrun as [(s & Hc & Hs)|(es5 & [] & es6 & Hc & Hrun & ->)].
    { inversion Hs; subst. destruct (root_set l); discriminate. }
    assert (es5 = []) as ->
      by (destruct (root_set l); inversion Hc; reflexivity).
    apply bind_inv in Hrun.
    destruct Hrun as [(s & Hv & Hs)|(es7 & [] & es8 & Hv & Hrun & ->)].
    { inversion Hs; subst.
      destruct (sat_run _ _ _ _ _ _ _
                  (pivot_sat kernel (fun s => s <> Replaced)
                             ltac:(discriminate)) Hv) as [_ Habs].
      congruence. }
    apply pivot_ret in Hv.
    apply handoff_replaced in Hrun.
    destruct Hrun as (chdir & b & Hh & Hchdir).
    exists (calls es1 ++ calls es3), chdir, b, operands.
    split; [|split; [assumption|]].
    + rewrite !calls_app. simpl. rewrite Hv, Hh. unfold pivot_calls.
      rewrite <- !app_assoc. reflexivity.
    + apply Forall_app. split; [assumption|].
      eapply Forall_impl; [|exact Hoc]. apply ec_option.
  - intros c a Hin Hneg.
    destruct (in_split _ _ Hin) as (es1 & es2 & Hes).
    pose proof (main_fatal kernel uid gid args [] es1 c a es2) as Hf.
    fold (run kernel uid gid args) in Hf.
    assert (Hdec : unchecked c \/ ~ unchecked c).
    { destruct c; try (right; intros Hu; inversion Hu; fail).
      - destruct (syscall_eq_dec (Mount source target fstype flags data) rprivate)
          as [->|Hne]; [left; constructor|].
        right; intros Hu; inversion Hu; subst; apply Hne; reflexivity.
      - left; constructor.
      - destruct (syscall_eq_dec (Open path flags mode) open_setgroups)
          as [->|Hne]; [left; constructor|].
        right; intros Hu; inversion Hu; subst; apply Hne; reflexivity. }
    destruct Hdec as [|Hnot]; [assumption|].
    destruct (Hf Hes Hneg Hnot) as [_ Hstop]. congruence.
Qed.

(** The theorem at [mkbox -s /srv/sandbox /bin/sh], every call going well. *)
Lemma C4_remount_witness :
  snd (run friendly 1000 1000 ["-s"; "/srv/sandbox"; "/bin/sh"]) = Stop Replaced /\
  (forall c a,
      In (Call c a) (fst (run friendly 1000 1000 ["-s"; "/srv/sandbox"; "/bin/sh"])) ->
      ret a < 0 -> unchecked c).
Proof.
  assert (H : snd (run friendly 1000 1000 ["-s"; "/srv/sandbox"; "/bin/sh"])
              = Stop Replaced) by (vm_compute; reflexivity).
  split; [exact H|].
  exact (proj2 (proj2 (C4_remount_is_the_last_mount
                         friendly 1000 1000
                         ["-s"; "/srv/sandbox"; "/bin/sh"] H))).
Defined.

(* ------------------------------------------------------------------ *)
(** ** The argument of [-b] *)

Lemma strchr_none arg : strchr arg "=" = None <-> lacks_separator arg.
Proof.
  unfold lacks_separator. induction arg as [|x arg IH]; simpl.
  - split; [intros _ [] | reflexivity].
  - destruct (Ascii.eqb_spec x "=") as [->|Hne].
    + split; [discriminate | intros H; exfalso; apply H; left; reflexivity].
    + destruct (strchr arg "=") as [i|]; simpl.
      * split; [discriminate|]. intros H. exfalso.
        assert (Some i = None) as Habs; [|discriminate].
        apply IH. intros Hin. apply H. right. assumption.
      * split; [|reflexivity]. intros _ [Heq|Hin]; [congruence|].
        apply (proj1 IH); auto.
Qed.

Lemma strchr_split src dst :
  lacks_separator src ->
  strchr (src ++ "=" ++ dst)%string "=" = Some (String.length src).
Proof.
  unfold lacks_separator. change ("=" ++ dst)%string with (String "=" dst).
  induction src as [|x src IH]; simpl; intros Hno.
  - reflexivity.
  - destruct (Ascii.eqb_spec x "=") as [->|Hne]; [exfalso; auto|].
    rewrite IH by auto. reflexivity.
Qed.

Lemma get_split src dst :
  get (S (String.length src)) (src ++ "=" ++ dst)%string = get 0 dst.
Proof.
  change ("=" ++ dst)%string with (String "=" dst).
  induction src as [|x src IH]; simpl; [reflexivity | exact IH].
Qed.

Lemma prefix_split src rest :
  prefix (String.length src) (src ++ rest)%string = src.
Proof.
  unfold prefix. induction src as [|x src IH]; simpl.
  - destruct rest; reflexivity.
  - rewrite IH. reflexivity.
Qed.

Lemma drop_split src dst :
  drop (S (String.length src)) (src ++ "=" ++ dst)%string = dst.
Proof.
  change ("=" ++ dst)%string with (String "=" dst).
  induction src as [|x src IH]; simpl; [reflexivity | exact IH].
Qed.

Lemma strchr_some arg i :
  strchr arg "=" = Some i ->
  splits_into arg (prefix i arg) (drop (S i) arg) /\
  String.length (prefix i arg) = i.
Proof.
  unfold splits_into, lacks_separator, prefix.
  revert i; induction arg as [|x arg IH]; simpl; intros i; [discriminate|].
  destruct (Ascii.eqb_spec x "=") as [->|Hne].
  - intros Hi; inversion Hi; subst. simpl. repeat split; auto.
  - destruct (strchr arg "=") as [j|]; simpl; [|discriminate].
    intros Hi; inversion Hi; subst.
    destruct (IH j eq_refl) as [[Heq Hno] Hlen]. simpl.
    repeat split.
    + f_equal. exact Heq.
    + intros [Hx|Hin]; [congruence | auto].
    + f_equal. exact Hlen.
Qed.

Lemma get_0_slash dst :
  match get 0 dst with Some c => Ascii.eqb c "/" | None => false end =
  starts_with_slash dst.
Proof. destruct dst; reflexivity. Qed.

Lemma refuses_spec arg :
  refuses arg = true <-> lacks_separator arg \/ absolute_destination arg.
Proof.
  unfold refuses. destruct (strchr arg "=") as [i|] eqn:Hi.
  - destruct (strchr_some arg i Hi) as [[Heq Hno] Hlen].
    set (src := prefix i arg) in *. set (dst := drop (S i) arg) in *.
    assert (Hget : get (S i) arg = get 0 dst).
    { rewrite Heq at 1. rewrite <- Hlen. apply get_split. }
    rewrite Hget, get_0_slash. split.
    + intros Hs. right. exists src.
      destruct dst as [|c dst']; [discriminate|]. simpl in Hs.
      apply Ascii.eqb_eq in Hs. subst c. exists dst'. split; assumption.
    + intros [Hlacks|(src' & dst' & Heq' & Hno')].
      * apply strchr_none in Hlacks. congruence.
      * assert (Hi' := strchr_split src' (String "/" dst') Hno').
        rewrite <- Heq', Hi in Hi'. inversion Hi' as [Hi''].
        assert (dst = String "/" dst') as ->; [|reflexivity].
        unfold dst. rewrite Hi'', Heq'. apply drop_split.
  - split; [intros _; left; apply strchr_none; assumption | reflexivity].
Qed.

Lemma refuses_split src dst :
  lacks_separator src ->
  refuses (src ++ "=" ++ dst)%string = starts_with_slash dst.
Proof.
  intros Hno. unfold refuses.
  rewrite strchr_split by assumption. rewrite get_split. apply get_0_slash.
Qed.

Section BindRule.

Variable kernel : os.

Lemma opt_b_refused l arg h :
  refuses arg = true ->
  exists msg, opt_b kernel l arg h = ([Stderr msg], Stop (Exited 255)).
Proof.
  unfold refuses, opt_b. destruct (strchr arg "=") as [i|].
  - intros ->. rewrite errorf_eq. eauto.
  - intros _. rewrite errorf_eq. eauto.
Qed.

(** [case 'b'] past its two tests, on an argument [src=dst]. *)
Lemma opt_b_accepted l src dst :
  lacks_separator src -> starts_with_slash dst = false ->
  opt_b kernel l (src ++ "=" ++ dst)%string = bind_mount kernel l src dst.
Proof.
  intros Hno Hrel. unfold opt_b.
  rewrite strchr_split by assumption.
  rewrite get_split, get_0_slash, Hrel, drop_split, prefix_split.
  reflexivity.
Qed.

Lemma when_eprint_calls {B} b msg (f : unit -> M B) h :
  exists h',
    calls (fst (bind (when b (eprint msg)) f h)) = calls (fst (f tt h')) /\
    snd (bind (when b (eprint msg)) f h) = snd (f tt h').
Proof.
  destruct b; simpl when.
  - rewrite bind_eprint_eq. cbv zeta. eexists; split; reflexivity.
  - rewrite bind_ret_eq. eexists; split; reflexivity.
Qed.

(** An accepted rule starts with the [stat] of its source. *)
Lemma bind_mount_stats_first l src dst h :
  exists tail, calls (fst (bind_mount kernel l src dst h)) = Stat src :: tail.
Proof.
  unfold bind_mount.
  match goal with |- context [bind (when ?b (eprint ?msg)) ?f h] =>
    destruct (when_eprint_calls b msg f h) as (h' & -> & _) end.
  rewrite bind_ok_eq. cbv zeta.
  destruct (0 <=? ret _); cbn [fst calls]; eauto.
Qed.

End BindRule.

(** An accepted rule hands its destination on: after a [stat] that went
    well the next call is the [lstat] of the destination when the source is
    a directory, and the [open] of the destination when it is not. *)
Lemma bind_mount_goes_on kernel l src dst h :
  exists a tail,
    In (Call (Stat src) a) (fst (bind_mount kernel l src dst h)) /\
    calls (fst (bind_mount kernel l src dst h)) = Stat src :: tail /\
    (ret a < 0 -> tail = []) /\
    (0 <= ret a ->
     exists tail',
       tail = (if S_ISDIR (st_mode a) then Lstat dst
               else Open dst (Z.lor K.O_WRONLY K.O_CREAT) (Some 438))
              :: tail').
Proof.
  unfold bind_mount.
  assert (Hgo : forall h',
            exists a tail,
              In (Call (Stat src) a)
                 (fst ((buf <- ok kernel "stat" "src, &buf" (Stat src) ;;
                        (if S_ISDIR (st_mode buf) then
                           buf' <- sys kernel (Lstat dst) ;;
                           when (ret buf' <? 0)
                                (recursive_mkdir kernel dst 493) ;;
                           ok kernel "mount"
                              "src, dst, NULL, MS_REC|MS_BIND, NULL"
                              (Mount src dst None
                                     (Z.lor K.MS_REC K.MS_BIND) None)
                         else
                           fd <- ok kernel "open"
                                    "dst, O_WRONLY|O_CREAT, 0666"
                                    (Open dst (Z.lor K.O_WRONLY K.O_CREAT)
                                          (Some 438)) ;;
                           ok kernel "close"
                              "ok(open, dst, O_WRONLY|O_CREAT, 0666)"
                              (Close (ret fd)) ;;
                           ok kernel "mount" "src, dst, NULL, MS_BIND, NULL"
                              (Mount src dst None K.MS_BIND None)) ;;
                        ret_ l) h')) /\
              calls (fst ((buf <- ok kernel "stat" "src, &buf" (Stat src) ;;
                        (if S_ISDIR (st_mode buf) then
                           buf' <- sys kernel (Lstat dst) ;;
                           when (ret buf' <? 0)
                                (recursive_mkdir kernel dst 493) ;;
                           ok kernel "mount"
                              "src, dst, NULL, MS_REC|MS_BIND, NULL"
                              (Mount src dst None
                                     (Z.lor K.MS_REC K.MS_BIND) None)
                         else
                           fd <- ok kernel "open"
                                    "dst, O_WRONLY|O_CREAT, 0666"
                                    (Open dst (Z.lor K.O_WRONLY K.O_CREAT)
                                          (Some 438)) ;;
                           ok kernel "close"
                              "ok(open, dst, O_WRONLY|O_CREAT, 0666)"
                              (Close (ret fd)) ;;
                           ok kernel "mount" "src, dst, NULL, MS_BIND, NULL"
                              (Mount src dst None K.MS_BIND None)) ;;
                        ret_ l) h')) = Stat src :: tail /\
              (ret a < 0 -> tail = []) /\
              (0 <= ret a ->
               exists tail',
                 tail = (if S_ISDIR (st_mode a) then Lstat dst
                         else Open dst (Z.lor K.O_WRONLY K.O_CREAT)
                                   (Some 438)) :: tail')).
  { intros h'. rewrite bind_ok_eq. cbv zeta.
    exists (kernel h' (Stat src)).
    destruct (Z.leb_spec 0 (ret (kernel h' (Stat src)))) as [Hok|Hbad];
      cbn [fst snd calls].
    - eexists. split; [left; reflexivity|]. split; [reflexivity|].
      split; [lia|]. intros _.
      destruct (S_ISDIR (st_mode (kernel h' (Stat src)))).
      + rewrite bind_assoc, bind_sys_eq. cbv zeta. cbn [fst calls].
        eexists. reflexivity.
      + rewrite bind_assoc, bind_ok_eq. cbv zeta.
        destruct (0 <=? ret _); cbn [fst calls]; eexists; reflexivity.
    - exists []. split; [left; reflexivity|]. split; [reflexivity|].
      split; [reflexivity | lia]. }
  destruct (verbose l); cbn [when].
  - rewrite bind_eprint_eq. cbv zeta. cbn [fst calls].
    destruct (Hgo (h ++ [Stderr ("mount: " ++ src ++ " => " ++ dst ++ nl)]))
      as (a & tail & Hin & Hcalls & Hbad & Hok).
    exists a, tail. split; [right; exact Hin|]. auto.
  - rewrite bind_ret_eq. apply Hgo.
Qed.

(** A rule that [case 'b'] completes has been mounted: the last call is the
    bind mount of the source on the destination. *)
Lemma bind_mount_done kernel l src dst h l' :
  snd (bind_mount kernel l src dst h) = Ret l' ->
  l' = l /\
  exists pre flags,
    calls (fst (bind_mount kernel l src dst h)) =
      pre ++ [Mount src dst None flags None] /\
    (flags = Z.lor K.MS_REC K.MS_BIND \/ flags = K.MS_BIND).
Proof.
  unfold bind_mount. intros Hret.
  apply bind_ret_inv in Hret. destruct Hret as (es1 & [] & _ & Hret & ->).
  apply bind_ret_inv in Hret. destruct Hret as (es2 & buf & _ & Hret & ->).
  apply bind_ret_inv in Hret. destruct Hret as (es3 & x & Hbody & Hret & ->).
  inversion Hret; subst l'. split; [reflexivity|].
  cbn [ret_ fst]. rewrite app_nil_r.
  destruct (S_ISDIR (st_mode buf)).
  - apply bind_inv in Hbody.
    destruct Hbody as [(s & _ & Habs)|(es4 & buf' & es5 & _ & Hbody & ->)];
      [discriminate|].
    apply bind_inv in Hbody.
    destruct Hbody as [(s & _ & Habs)|(es6 & [] & es7 & _ & Hbody & ->)];
      [discriminate|].
    rewrite ok_eq in Hbody. cbv zeta in Hbody.
    destruct (0 <=? ret _); inversion Hbody; subst.
    exists (calls es1 ++ calls es2 ++ calls es4 ++ calls es6),
           (Z.lor K.MS_REC K.MS_BIND).
    rewrite !calls_app. cbn [calls]. rewrite <- !app_assoc. auto.
  - apply bind_inv in Hbody.
    destruct Hbody as [(s & _ & Habs)|(es4 & fd & es5 & _ & Hbody & ->)];
      [discriminate|].
    apply bind_inv in Hbody.
    destruct Hbody as [(s & _ & Habs)|(es6 & cl & es7 & _ & Hbody & ->)];
      [discriminate|].
    rewrite ok_eq in Hbody. cbv zeta in Hbody.
    destruct (0 <=? ret _); inversion Hbody; subst.
    exists (calls es1 ++ calls es2 ++ calls es4 ++ calls es6), K.MS_BIND.
    rewrite !calls_app. cbn [calls]. rewrite <- !app_assoc. auto.
Qed.

(** C10: [case 'b'] turns an argument down, with a message and exit status
    255 and before any system call, exactly when the argument has no ['=']
    or has ['/'] right after its first ['=']; nothing else about the
    destination is looked at.  Any other argument [src=dst] is processed:
    the first call is the [stat] of the source; when that went well the
    destination is handed, as it was written, to the next call, the [lstat]
    for a directory as source and the [open] otherwise; and when the case
    completes, its last call is the bind mount of the source on the
    destination.  A destination that starts with [../] is such an argument:
    a rule that completes has mounted on it as written, and no mount of the
    rule has another target. *)
Theorem C10_destination_check_is_syntactic kernel l h :
  (forall arg,
      (exists msg, opt_b kernel l arg h = ([Stderr msg], Stop (Exited 255)))
      <-> (lacks_separator arg \/ absolute_destination arg)) /\
  (forall arg,
      ~ (lacks_separator arg \/ absolute_destination arg) ->
      exists src dst a tail,
        splits_into arg src dst /\
        In (Call (Stat src) a) (fst (opt_b kernel l arg h)) /\
        calls (fst (opt_b kernel l arg h)) = Stat src :: tail /\
        (ret a < 0 -> tail = []) /\
        (0 <= ret a ->
         exists tail',
           tail = (if S_ISDIR (st_mode a) then Lstat dst
                   else Open dst (Z.lor K.O_WRONLY K.O_CREAT) (Some 438))
                  :: tail') /\
        (forall l',
            snd (opt_b kernel l arg h) = Ret l' ->
            exists pre flags,
              calls (fst (opt_b kernel l arg h)) =
                pre ++ [Mount src dst None flags None] /\
              (flags = Z.lor K.MS_REC K.MS_BIND \/ flags = K.MS_BIND))) /\
  (forall src rest,
      lacks_separator src ->
      let arg := (src ++ "=" ++ "../" ++ rest)%string in
      ~ (lacks_separator arg \/ absolute_destination arg) /\
      (forall source target fstype flags data,
          In (Mount source target fstype flags data)
             (calls (fst (opt_b kernel l arg h))) ->
          source = src /\ target = ("../" ++ rest)%string) /\
      (forall l',
          snd (opt_b kernel l arg h) = Ret l' ->
          exists flags,
            In (Mount src ("../" ++ rest)%string None flags None)
               (calls (fst (opt_b kernel l arg h))))).
Proof.
  assert (Hacc : forall arg,
             ~ (lacks_separator arg \/ absolute_destination arg) ->
             exists src dst,
               splits_into arg src dst /\
               opt_b kernel l arg = bind_mount kernel l src dst).
  { intros arg Hok. rewrite <- refuses_spec in Hok.
    unfold refuses in Hok. destruct (strchr arg "=") as [i|] eqn:Hi;
      [|exfalso; auto].
    destruct (strchr_some arg i Hi) as [[Heq Hno] Hlen].
    set (src := prefix i arg) in *. set (dst := drop (S i) arg) in *.
    assert (Hrel : starts_with_slash dst = false).
    { rewrite <- get_0_slash. rewrite <- (get_split src dst).
      rewrite Hlen, <- Heq. destruct (get (S i) arg) as [c|]; [|reflexivity].
      destruct (Ascii.eqb c "/"); [exfalso; auto | reflexivity]. }
    exists src, dst. split; [split; assumption|].
    rewrite Heq at 1. apply opt_b_accepted; assumption. }
  assert (Hgo : forall arg,
             ~ (lacks_separator arg \/ absolute_destination arg) ->
             exists src dst a tail,
               splits_into arg src dst /\
               In (Call (Stat src) a) (fst (opt_b kernel l arg h)) /\
               calls (fst (opt_b kernel l arg h)) = Stat src :: tail /\
               (ret a < 0 -> tail = []) /\
               (0 <= ret a ->
                exists tail',
                  tail = (if S_ISDIR (st_mode a) then Lstat dst
                          else Open dst (Z.lor K.O_WRONLY K.O_CREAT)
                                    (Some 438)) :: tail') /\
               (forall l',
                   snd (opt_b kernel l arg h) = Ret l' ->
                   exists pre flags,
                     calls (fst (opt_b kernel l arg h)) =
                       pre ++ [Mount src dst None flags None] /\
                     (flags = Z.lor K.MS_REC K.MS_BIND \/
                      flags = K.MS_BIND))).
  { intros arg Hok. destruct (Hacc arg Hok) as (src & dst & Hsplit & ->).
    destruct (bind_mount_goes_on kernel l src dst h)
      as (a & tail & Hin & Hcalls & Hbad & Hnext).
    exists src, dst, a, tail. repeat (split; [assumption|]).
    intros l' Hret. apply (bind_mount_done kernel l src dst h l' Hret). }
  split; [|split; [exact Hgo|]].
  - intros arg. split.
    + intros [msg Hmsg].
      destruct (refuses arg) eqn:Hr; [apply refuses_spec; assumption|].
      exfalso.
      assert (Hok : ~ (lacks_separator arg \/ absolute_destination arg))
        by (rewrite <- refuses_spec; congruence).
      destruct (Hgo arg Hok) as (src & dst & a & tail & _ & _ & Hcalls & _).
      rewrite Hmsg in Hcalls. discriminate.
    + intros Hbad. apply opt_b_refused. apply refuses_spec. assumption.
  - intros src rest Hno arg.
    assert (Hr : refuses arg = false)
      by (unfold arg; rewrite refuses_split by assumption; reflexivity).
    split; [rewrite <- refuses_spec; congruence|].
    unfold arg. rewrite opt_b_accepted by (auto; reflexivity).
    split.
    + intros source target fstype flags data Hin.
      destruct (bind_mount_calls kernel (fun _ => True) I l src
                  ("../" ++ rest)%string (or_intror I) h) as [Hcalls _].
      rewrite Forall_forall in Hcalls. apply Hcalls in Hin.
      inversion Hin as [| | | | | |c Hc]; subst; auto. inversion Hc.
    + intros l' Hret.
      destruct (bind_mount_done kernel l src ("../" ++ rest)%string h l' Hret)
        as (_ & pre & flags & Hcalls & _).
      exists flags. rewrite Hcalls. apply in_or_app. right. left. reflexivity.
Qed.

(** The theorem at the argument [/etc=../x], every call going well: the
    rule completes, so [/etc] has been mounted on [../x]. *)
Lemma C10_relative_destination_witness :
  lacks_separator "/etc" /\
  snd (opt_b friendly initial "/etc=../x" []) = Ret initial /\
  exists flags,
    In (Mount "/etc" "../x" None flags None)
       (calls (fst (opt_b friendly initial "/etc=../x" []))).
Proof.
  assert (H : lacks_separator "/etc").
  { unfold lacks_separator. simpl. intros [H|[H|[H|[H|[]]]]]; discriminate. }
  assert (Hret : snd (opt_b friendly initial "/etc=../x" []) = Ret initial)
    by reflexivity.
  split; [exact H|]. split; [exact Hret|].
  exact (proj2 (proj2 (proj2 (proj2 (C10_destination_check_is_syntactic
                                       friendly initial [])) "/etc" "x" H))
               initial Hret).
Defined.

(** A destination written [../x] is mounted on as it stands. *)
Example destination_above_the_root :
  let r := run friendly 1000 1000
               ["-s"; "/srv/sandbox"; "-q"; "-b"; "/etc=../x"; "/bin/sh"] in
  In (Mount "/etc" "../x" None (Z.lor K.MS_REC K.MS_BIND) None) (calls (fst r)) /\
  snd r = Stop Replaced.
Proof. vm_compute. tauto. Qed.

(** C5: a [-b] whose argument has no ['='], or a ['/'] right after its
    first ['='], is turned down on the spot: [case 'b'] prints its message
    and exits with status 255 without a single system call.  So in a run
    whose options are [before], this rule, then [after], the system calls
    are those of the prologue and of [before], nothing else; the run ends
    where these end it or, when they went through, with exit status 255 at
    the rule; it never gets to the target binary. *)
Theorem C5_absolute_destination_is_rejected
    kernel uid gid args before arg after operands :
  getopt_all args = (before ++ ("b"%char, arg) :: after, operands) ->
  lacks_separator arg \/ absolute_destination arg ->
  let earlier :=
    (prologue kernel ;; option_loop kernel uid gid before initial) [] in
  (forall l h, exists msg,
      opt_b kernel l arg h = ([Stderr msg], Stop (Exited 255))) /\
  calls (fst (run kernel uid gid args)) = calls (fst earlier) /\
  snd (run kernel uid gid args) =
    match snd earlier with
    | Ret _ => Stop (Exited 255)
    | Stop s => Stop s
    end /\
  snd (run kernel uid gid args) <> Stop Replaced.
Proof.
  intros Hopts Hbad earlier.
  assert (Href : forall l h, exists msg,
             opt_b kernel l arg h = ([Stderr msg], Stop (Exited 255))).
  { intros l h. apply opt_b_refused. apply refuses_spec. assumption. }
  split; [exact Href|].
  pose (K := fun l => (if root_set l then ret_ tt
                       else errorf "-s option is mandatory") ;;
                      pivot kernel ;; handoff kernel l operands).
  pose (G := fun l => bind (option_loop kernel uid gid
                              (("b"%char, arg) :: after) l) K).
  pose (P := prologue kernel ;; option_loop kernel uid gid before initial).
  assert (Hmain : run kernel uid gid args = bind P G []).
  { unfold run, main, P. rewrite Hopts. fold K.
    rewrite bind_assoc. apply bind_ext. intros [] h'.
    etransitivity; [apply bind_cong; intros; apply option_loop_app|].
    apply bind_assoc. }
  assert (HG : forall l h, exists msg, G l h = ([Stderr msg], Stop (Exited 255))).
  { intros l h. destruct (Href l h) as [msg Hmsg]. exists msg.
    unfold G. cbn [option_loop].
    change (option_case kernel uid gid l ("b"%char, arg))
      with (opt_b kernel l arg).
    unfold bind. rewrite Hmsg. reflexivity. }
  assert (HP : sat early_call (@any locals) (fun s => s <> Replaced) P).
  { unfold P. apply sat_bind with (R1 := any);
      [apply prologue_sat; discriminate|].
    intros _ _. eapply sat_weaken;
      [apply (option_loop_sat kernel (fun s => s <> Replaced)
                ltac:(discriminate) uid gid before initial)
      | auto using early_call | intros; exact I | auto].
    apply Forall_forall. intros; right; discriminate. }
  unfold earlier. fold P. rewrite Hmain. unfold bind.
  destruct (P []) as [es [l|s]] eqn:HPrun.
  - destruct (HG l ([] ++ es)) as [msg ->]. cbn [fst snd].
    rewrite calls_app. simpl. rewrite app_nil_r.
    repeat split. discriminate.
  - destruct (sat_run _ _ _ _ _ _ _ HP HPrun) as [_ Hs]. cbn [fst snd].
    repeat split. congruence.
Qed.

(** The theorem at [mkbox -s /srv/sandbox -b /etc=/etc /bin/sh]. *)
Lemma C5_rejection_witness :
  (lacks_separator "/etc=/etc" \/ absolute_destination "/etc=/etc") /\
  snd (run friendly 1000 1000
           ["-s"; "/srv/sandbox"; "-b"; "/etc=/etc"; "/bin/sh"])
  = Stop (Exited 255).
Proof.
  assert (H2 : lacks_separator "/etc=/etc" \/ absolute_destination "/etc=/etc").
  { right. exists "/etc", "etc". split; [reflexivity|].
    unfold lacks_separator. simpl.
    intros [H|[H|[H|[H|[]]]]]; discriminate. }
  split; [exact H2|].
  exact (proj1 (proj2 (proj2 (C5_absolute_destination_is_rejected
                         friendly 1000 1000
                         ["-s"; "/srv/sandbox"; "-b"; "/etc=/etc"; "/bin/sh"]
                         [("s"%char, "/srv/sandbox")] "/etc=/etc" []
                         ["/bin/sh"] eq_refl H2)))).
Defined.

(* ------------------------------------------------------------------ *)
(** ** Targets that are already there *)

Lemma mkdir_loop_trace kernel dir mode fuel : forall end_ h,
  mkdir_trace (fst (mkdir_loop kernel fuel dir mode end_ h)).
Proof.
  induction fuel as [|fuel IH]; intros end_ h; cbn [mkdir_loop];
    [constructor|].
  destruct (get end_ dir) as [_|]; [|constructor].
  destruct (1024 <=? _); [constructor|].
  rewrite bind_sys_eq. cbv zeta. cbn [fst].
  set (p := prefix _ dir). set (a := kernel h (Lstat p)).
  destruct (Z.leb_spec 0 (ret a)) as [Hok|Hbad]; cbn [andb].
  - destruct (Z.eqb_spec (Z.land (st_mode a) K.S_IFDIR) 0) as [Hz|Hnz];
      cbn [negb].
    + rewrite bind_sys_eq. cbv zeta. cbn [fst].
      destruct (ret _ <? 0).
      * apply mt_make; [right; assumption|]. repeat constructor.
      * apply mt_make; [right; assumption | apply IH].
    + apply mt_skip; [assumption | assumption | apply IH].
  - rewrite bind_sys_eq. cbv zeta. cbn [fst].
    destruct (ret _ <? 0).
    + apply mt_make; [left; assumption|]. repeat constructor.
    + apply mt_make; [left; assumption | apply IH].
Qed.

Lemma mkdir_trace_guard es :
  mkdir_trace es ->
  forall es1 p m a' es2,
    es = es1 ++ Call (Mkdir p m) a' :: es2 ->
    exists es0 a,
      es1 = es0 ++ [Call (Lstat p) a] /\
      (ret a < 0 \/ Z.land (st_mode a) K.S_IFDIR = 0).
Proof.
  induction 1 as [|q a es Hok Hdir Hes IH|q a m0 a0 es Hbad Hes IH|msg es Hes IH];
    intros es1 p m a' es2 Heq.
  - destruct es1; discriminate.
  - destruct es1 as [|e es1]; [discriminate|].
    inversion Heq; subst.
    destruct (IH _ _ _ _ _ eq_refl) as (es0 & b & -> & Hb).
    exists (Call (Lstat q) a :: es0), b. auto.
  - destruct es1 as [|e [|e' es1]]; try discriminate.
    + inversion Heq; subst. exists [], a. auto.
    + inversion Heq; subst.
      destruct (IH _ _ _ _ _ eq_refl) as (es0 & b & -> & Hb).
      exists (Call (Lstat q) a :: Call (Mkdir q m0) a0 :: es0), b. auto.
  - destruct es1 as [|e es1]; [discriminate|].
    inversion Heq; subst.
    destruct (IH _ _ _ _ _ eq_refl) as (es0 & b & -> & Hb).
    exists (Stderr msg :: es0), b. auto.
Qed.

Section Existing.

Variable kernel : os.

Lemma bind_mount_onto_existing_directory l src dst h :
  (forall h', 0 <= ret (kernel h' (Stat src)) /\
              S_ISDIR (st_mode (kernel h' (Stat src))) = true) ->
  (forall h', 0 <= ret (kernel h' (Lstat dst))) ->
  calls (fst (bind_mount kernel l src dst h)) =
    [ Stat src; Lstat dst;
      Mount src dst None (Z.lor K.MS_REC K.MS_BIND) None ].
Proof.
  intros Hstat Hlstat. unfold bind_mount.
  match goal with |- context [bind (when ?b (eprint ?msg)) ?f h] =>
    destruct (when_eprint_calls b msg f h) as (h' & -> & _) end.
  rewrite bind_ok_eq. cbv zeta.
  destruct (Hstat h') as [Hret Hdir].
  destruct (Z.leb_spec 0 (ret (kernel h' (Stat src)))); [|lia].
  rewrite Hdir. cbn [fst calls]. f_equal.
  rewrite bind_assoc, bind_sys_eq. cbv zeta. cbn [fst calls]. f_equal.
  match goal with |- context [ret (kernel ?hh (Lstat dst)) <? 0] =>
    destruct (Z.ltb_spec (ret (kernel hh (Lstat dst))) 0) as [Hneg|_];
    [specialize (Hlstat hh); lia|] end.
  simpl when. rewrite bind_assoc, bind_ret_eq, bind_ok_eq. cbv zeta.
  destruct (0 <=? ret _); reflexivity.
Qed.

Lemma when_eprint_events {B} b msg (f : unit -> M B) h :
  exists h' pre,
    calls pre = [] /\
    fst (bind (when b (eprint msg)) f h) = pre ++ fst (f tt h') /\
    snd (bind (when b (eprint msg)) f h) = snd (f tt h').
Proof.
  destruct b; simpl when.
  - rewrite bind_eprint_eq. cbv zeta.
    exists (h ++ [Stderr msg]), [Stderr msg]. repeat split.
  - rewrite bind_ret_eq. exists h, []. repeat split.
Qed.

(** A file rule: [stat], the [open] that creates the destination if need
    be, then the [close] of what [open] returned and the bind mount, each
    as soon as the call before it went well. *)
Lemma bind_mount_onto_file l src dst h :
  (forall h', 0 <= ret (kernel h' (Stat src)) /\
              S_ISDIR (st_mode (kernel h' (Stat src))) = false) ->
  exists a_open a_close a_mount,
    In (Call (Open dst (Z.lor K.O_WRONLY K.O_CREAT) (Some 438)) a_open)
       (fst (bind_mount kernel l src dst h)) /\
    (0 <= ret a_open ->
     In (Call (Close (ret a_open)) a_close)
        (fst (bind_mount kernel l src dst h))) /\
    (0 <= ret a_open -> 0 <= ret a_close ->
     In (Call (Mount src dst None K.MS_BIND None) a_mount)
        (fst (bind_mount kernel l src dst h))) /\
    calls (fst (bind_mount kernel l src dst h)) =
      Stat src ::
      Open dst (Z.lor K.O_WRONLY K.O_CREAT) (Some 438) ::
      (if 0 <=? ret a_open then
         Close (ret a_open) ::
         (if 0 <=? ret a_close then [Mount src dst None K.MS_BIND None]
          else [])
       else []) /\
    (0 <= ret a_open -> 0 <= ret a_close -> 0 <= ret a_mount ->
     snd (bind_mount kernel l src dst h) = Ret l).
Proof.
  intros Hstat. unfold bind_mount.
  match goal with |- context [bind (when ?b (eprint ?msg)) ?f h] =>
    destruct (when_eprint_events b msg f h) as (h' & pre & Hpre & -> & ->)
  end.
  rewrite calls_app, Hpre. cbn [app].
  rewrite bind_ok_eq. cbv zeta.
  destruct (Hstat h') as [Hret Hdir].
  destruct (Z.leb_spec 0 (ret (kernel h' (Stat src)))); [|lia].
  rewrite Hdir. cbn [fst snd calls].
  rewrite bind_assoc, bind_ok_eq. cbv zeta.
  set (h1 := h' ++ [Call (Stat src) (kernel h' (Stat src))]).
  set (a_open := kernel h1 (Open dst (Z.lor K.O_WRONLY K.O_CREAT) (Some 438))).
  set (h2 := h1 ++ [Call (Open dst (Z.lor K.O_WRONLY K.O_CREAT) (Some 438))
                         a_open]).
  set (a_close := kernel h2 (Close (ret a_open))).
  set (h3 := h2 ++ [Call (Close (ret a_open)) a_close]).
  set (a_mount := kernel h3 (Mount src dst None K.MS_BIND None)).
  exists a_open, a_close, a_mount.
  destruct (Z.leb_spec 0 (ret a_open)) as [Hopen|Hopen].
  - cbn [fst snd calls]. rewrite bind_assoc, bind_ok_eq. cbv zeta.
    fold h2. fold a_close.
    destruct (Z.leb_spec 0 (ret a_close)) as [Hclose|Hclose].
    + cbn [fst snd calls]. rewrite bind_ok_eq. cbv zeta.
      fold h3. fold a_mount.
      destruct (Z.leb_spec 0 (ret a_mount)) as [Hmount|Hmount];
        cbn [fst snd calls ret_ app].
      * repeat split; intros; try reflexivity;
          apply in_or_app; right; simpl; auto.
      * repeat split; intros; try reflexivity; try lia;
          apply in_or_app; right; simpl; auto.
    + cbn [fst snd calls].
      repeat split; intros; try reflexivity; try lia;
        apply in_or_app; right; simpl; auto.
  - cbn [fst snd calls].
    repeat split; intros; try reflexivity; try lia;
      apply in_or_app; right; simpl; auto.
Qed.

Lemma opt_t_onto_existing l path h :
  (forall h', 0 <= ret (kernel h' (Lstat path))) ->
  calls (fst (opt_t kernel l path h)) =
    [ Lstat path;
      Mount "sandbox-tmp" path (Some "tmpfs") tmpfs_flags (Some tmpfs_data) ].
Proof.
  intros Hlstat. unfold opt_t.
  match goal with |- context [bind (when ?b (eprint ?msg)) ?f h] =>
    destruct (when_eprint_calls b msg f h) as (h' & -> & _) end.
  rewrite bind_sys_eq. cbv zeta. cbn [fst calls]. f_equal.
  destruct (Z.ltb_spec (ret (kernel h' (Lstat path))) 0) as [Hneg|_];
    [specialize (Hlstat h'); lia|].
  simpl when. rewrite bind_ret_eq, bind_ok_eq. cbv zeta.
  destruct (0 <=? ret _); reflexivity.
Qed.

End Existing.

(** C8: a target that is already there is not created again, and the rule
    goes on to its mount.  For a rule [src=dst] whose destination exists
    ([lstat] of it succeeds): when the source is a directory, [case 'b']
    calls [stat], [lstat] and the bind mount, and no [mkdir]; when it is
    not, the destination is opened with O_WRONLY|O_CREAT, in which O_EXCL is
    not set, so an existing file is no error of the code's making, and as
    soon as the [open] went well what it returned is closed, and as soon as
    the [close] went well the bind mount is made; the case returns when the
    mount went well.  [case 't'] on an existing path calls [lstat] and the
    tmpfs mount, and no [mkdir].  And [recursive_mkdir] calls [mkdir] on a
    path only right after an [lstat] of that path that failed or did not
    find a directory. *)
Theorem C8_existing_targets_are_not_created kernel l h src dst isdir :
  lacks_separator src -> starts_with_slash dst = false ->
  (forall h', 0 <= ret (kernel h' (Stat src)) /\
              S_ISDIR (st_mode (kernel h' (Stat src))) = isdir) ->
  (forall h', 0 <= ret (kernel h' (Lstat dst))) ->
  (if isdir then
     calls (fst (opt_b kernel l (src ++ "=" ++ dst)%string h)) =
       [ Stat src; Lstat dst;
         Mount src dst None (Z.lor K.MS_REC K.MS_BIND) None ]
   else
     exists a_open a_close a_mount,
       In (Call (Open dst (Z.lor K.O_WRONLY K.O_CREAT) (Some 438)) a_open)
          (fst (opt_b kernel l (src ++ "=" ++ dst)%string h)) /\
       (0 <= ret a_open ->
        In (Call (Close (ret a_open)) a_close)
           (fst (opt_b kernel l (src ++ "=" ++ dst)%string h))) /\
       (0 <= ret a_open -> 0 <= ret a_close ->
        In (Call (Mount src dst None K.MS_BIND None) a_mount)
           (fst (opt_b kernel l (src ++ "=" ++ dst)%string h))) /\
       calls (fst (opt_b kernel l (src ++ "=" ++ dst)%string h)) =
         Stat src ::
         Open dst (Z.lor K.O_WRONLY K.O_CREAT) (Some 438) ::
         (if 0 <=? ret a_open then
            Close (ret a_open) ::
            (if 0 <=? ret a_close then [Mount src dst None K.MS_BIND None]
             else [])
          else []) /\
       (0 <= ret a_open -> 0 <= ret a_close -> 0 <= ret a_mount ->
        snd (opt_b kernel l (src ++ "=" ++ dst)%string h) = Ret l)) /\
  (has_flag (Z.lor K.O_WRONLY K.O_CREAT) K.O_CREAT = true /\
   has_flag (Z.lor K.O_WRONLY K.O_CREAT) K.O_EXCL = false) /\
  calls (fst (opt_t kernel l dst h)) =
    [ Lstat dst;
      Mount "sandbox-tmp" dst (Some "tmpfs") tmpfs_flags (Some tmpfs_data) ] /\
  (forall dir mode h0 es1 p m a' es2,
      fst (recursive_mkdir kernel dir mode h0) =
        es1 ++ Call (Mkdir p m) a' :: es2 ->
      exists es0 a,
        es1 = es0 ++ [Call (Lstat p) a] /\
        (ret a < 0 \/ Z.land (st_mode a) K.S_IFDIR = 0)).
Proof.
  intros Hno Hrel Hstat Hlstat.
  rewrite opt_b_accepted by assumption.
  split; [|split; [split; reflexivity | split]].
  - destruct isdir.
    + apply bind_mount_onto_existing_directory; assumption.
    + apply bind_mount_onto_file; assumption.
  - apply opt_t_onto_existing; assumption.
  - intros dir mode h0 es1 p m a' es2 Heq.
    eapply mkdir_trace_guard; [|exact Heq]. apply mkdir_loop_trace.
Qed.

(** The theorem at the rule [/etc=etc], a directory, and at the rule
    [/etc/resolv.conf=etc/resolv.conf], a file, both destinations being
    there already: each rule gets to its mount. *)
Lemma C8_existing_targets_witness :
  (lacks_separator "/etc" /\
   starts_with_slash "etc" = false /\
   calls (fst (opt_b settled initial "/etc=etc" [])) =
     [ Stat "/etc"; Lstat "etc";
       Mount "/etc" "etc" None (Z.lor K.MS_REC K.MS_BIND) None ]) /\
  (lacks_separator "/etc/resolv.conf" /\
   calls (fst (opt_b rerun initial "/etc/resolv.conf=etc/resolv.conf" [])) =
     [ Stat "/etc/resolv.conf";
       Open "etc/resolv.conf" (Z.lor K.O_WRONLY K.O_CREAT) (Some 438);
       Close 3;
       Mount "/etc/resolv.conf" "etc/resolv.conf" None K.MS_BIND None ] /\
   exists a_open a_close a_mount,
     In (Call (Open "etc/resolv.conf" (Z.lor K.O_WRONLY K.O_CREAT) (Some 438))
              a_open)
        (fst (opt_b rerun initial "/etc/resolv.conf=etc/resolv.conf" [])) /\
     (0 <= ret a_open ->
      In (Call (Close (ret a_open)) a_close)
         (fst (opt_b rerun initial "/etc/resolv.conf=etc/resolv.conf" []))) /\
     (0 <= ret a_open -> 0 <= ret a_close ->
      In (Call (Mount "/etc/resolv.conf" "etc/resolv.conf" None K.MS_BIND None)
               a_mount)
         (fst (opt_b rerun initial "/etc/resolv.conf=etc/resolv.conf" []))) /\
     calls (fst (opt_b rerun initial "/etc/resolv.conf=etc/resolv.conf" [])) =
       Stat "/etc/resolv.conf" ::
       Open "etc/resolv.conf" (Z.lor K.O_WRONLY K.O_CREAT) (Some 438) ::
       (if 0 <=? ret a_open then
          Close (ret a_open) ::
          (if 0 <=? ret a_close
           then [Mount "/etc/resolv.conf" "etc/resolv.conf" None K.MS_BIND
                       None]
           else [])
        else []) /\
     (0 <= ret a_open -> 0 <= ret a_close -> 0 <= ret a_mount ->
      snd (opt_b rerun initial "/etc/resolv.conf=etc/resolv.conf" []) =
      Ret initial)).
Proof.
  assert (H1 : lacks_separator "/etc").
  { unfold lacks_separator. simpl. intros [H|[H|[H|[H|[]]]]]; discriminate. }
  assert (H2 : forall h' : list event,
             0 <= ret (settled h' (Stat "/etc")) /\
             S_ISDIR (st_mode (settled h' (Stat "/etc"))) = true).
  { intros h'. split; [discriminate | reflexivity]. }
  assert (H3 : forall h' : list event, 0 <= ret (settled h' (Lstat "etc"))).
  { intros h'. discriminate. }
  assert (F1 : lacks_separator "/etc/resolv.conf").
  { unfold lacks_separator. simpl. intros H.
    repeat (destruct H as [H|H]; [discriminate|]). exact H. }
  assert (F2 : forall h' : list event,
             0 <= ret (rerun h' (Stat "/etc/resolv.conf")) /\
             S_ISDIR (st_mode (rerun h' (Stat "/etc/resolv.conf"))) = false).
  { intros h'. split; [discriminate | reflexivity]. }
  assert (F3 : forall h' : list event,
             0 <= ret (rerun h' (Lstat "etc/resolv.conf"))).
  { intros h'. discriminate. }
  split.
  - split; [exact H1 | split; [reflexivity|]].
    exact (proj1 (C8_existing_targets_are_not_created
                    settled initial [] "/etc" "etc" true H1 eq_refl H2 H3)).
  - split; [exact F1 | split; [reflexivity|]].
    exact (proj1 (C8_existing_targets_are_not_created
                    rerun initial [] "/etc/resolv.conf" "etc/resolv.conf"
                    false F1 eq_refl F2 F3)).
Defined.

(* ------------------------------------------------------------------ *)
(** ** The uid mapping *)

Lemma to_int_small x : - 2 ^ 31 <= x < 2 ^ 31 -> to_int x = x.
Proof. intros H. unfold to_int. rewrite Z.mod_small; lia. Qed.

Lemma to_long_small x : - 2 ^ 31 <= x < 2 ^ 31 -> to_long x = x.
Proof. intros H. unfold to_long. lia. Qed.

Lemma to_uid_small x : 0 <= x < 2 ^ 32 -> to_uid x = x.
Proof. intros H. unfold to_uid. apply Z.mod_small. assumption. Qed.

Lemma scan_digits_acc d : forall p,
  scan_digits (NilEmpty.string_of_uint d) (Z.pos p) true =
    Some (Z.pos (Pos.of_uint_acc d p)).
Proof.
  induction d as [|d IH|d IH|d IH|d IH|d IH|d IH|d IH|d IH|d IH|d IH];
    intros p; cbn [NilEmpty.string_of_uint Pos.of_uint_acc scan_digits];
    [reflexivity|..];
    match goal with
    | |- context [digit_of ?c] =>
        change (digit_of c) with (Some (Z.of_nat (nat_of_ascii c) - 48))
    end; cbv iota; rewrite <- IH; f_equal; simpl Z.sub; lia.
Qed.

Lemma scan_digits_uint d : forall seen,
  d <> Decimal.Nil \/ seen = true ->
  scan_digits (NilEmpty.string_of_uint d) 0 seen = Some (Z.of_N (Pos.of_uint d)).
Proof.
  induction d as [|d IH|d IH|d IH|d IH|d IH|d IH|d IH|d IH|d IH|d IH];
    intros seen Hseen; cbn [NilEmpty.string_of_uint Pos.of_uint scan_digits].
  - destruct Hseen as [H| ->]; [contradiction | reflexivity].
  - change (digit_of "0") with (Some 0). cbv iota.
    apply IH. right. reflexivity.
  - change (digit_of "1") with (Some 1). cbv iota. apply scan_digits_acc.
  - change (digit_of "2") with (Some 2). cbv iota. apply scan_digits_acc.
  - change (digit_of "3") with (Some 3). cbv iota. apply scan_digits_acc.
  - change (digit_of "4") with (Some 4). cbv iota. apply scan_digits_acc.
  - change (digit_of "5") with (Some 5). cbv iota. apply scan_digits_acc.
  - change (digit_of "6") with (Some 6). cbv iota. apply scan_digits_acc.
  - change (digit_of "7") with (Some 7). cbv iota. apply scan_digits_acc.
  - change (digit_of "8") with (Some 8). cbv iota. apply scan_digits_acc.
  - change (digit_of "9") with (Some 9). cbv iota. apply scan_digits_acc.
Qed.

(** [sscanf] with [%d] on digits only reads them all. *)
Lemma sscanf_d_digits d :
  d <> Decimal.Nil ->
  sscanf_d (NilEmpty.string_of_uint d) =
    Some (to_int (to_long (Z.of_N (Pos.of_uint d)))).
Proof.
  intros Hd.
  assert (Hscan := scan_digits_uint d false (or_introl Hd)).
  destruct d; [contradiction|..];
    unfold sscanf_d; cbn [NilEmpty.string_of_uint skip_space];
    match goal with
    | |- context [isspace ?c] => change (isspace c) with false
    end; cbv iota; cbn [NilEmpty.string_of_uint] in Hscan;
    rewrite Hscan; reflexivity.
Qed.

(** What [%d] prints for an [int], [%d] reads back. *)
Lemma sscanf_d_decimal u :
  - 2 ^ 31 <= u < 2 ^ 31 -> sscanf_d (decimal u) = Some u.
Proof.
  intros Hu. unfold decimal. destruct u as [|p|p]; [reflexivity|..];
    cbn [Z.to_int NilZero.string_of_int].
  - unfold NilZero.string_of_uint.
    pose proof (DecimalPos.Unsigned.to_uint_nonnil p) as Hnil.
    destruct (Pos.to_uint p) eqn:Hd; [contradiction|..]; rewrite <- Hd;
      (rewrite sscanf_d_digits by (rewrite Hd; discriminate));
      rewrite DecimalPos.Unsigned.of_to; simpl Z.of_N;
      rewrite to_long_small by lia; rewrite to_int_small by lia; reflexivity.
  - unfold NilZero.string_of_uint.
    pose proof (DecimalPos.Unsigned.to_uint_nonnil p) as Hnil.
    assert (Hscan := scan_digits_uint (Pos.to_uint p) false (or_introl Hnil)).
    rewrite DecimalPos.Unsigned.of_to in Hscan. simpl Z.of_N in Hscan.
    destruct (Pos.to_uint p) eqn:Hd; [contradiction|..];
      unfold sscanf_d; cbn [skip_space];
      change (isspace "-") with false; cbv iota;
      rewrite Hscan; cbn [option_map];
      change (- Z.pos p) with (Z.neg p);
      rewrite to_long_small by lia; rewrite to_int_small by lia; reflexivity.
Qed.

(** For a real uid and a requested uid below 2^31, [-u u] writes the line
    [u r 1] to [/proc/self/uid_map] and then sets the three uids to [u];
    here on a kernel that grants every call. *)
Lemma uid_map_line_for_small_uids kernel l u r h :
  0 <= u < 2 ^ 31 -> 0 <= r < 2 ^ 31 ->
  (forall h' c, 0 <= ret (kernel h' c)) ->
  exists fd,
    calls (fst (opt_u kernel r l (decimal u) h)) =
      [ Open "/proc/self/uid_map" K.O_WRONLY None;
        Write fd (decimal u ++ " " ++ decimal r ++ " 1" ++ nl)%string
              (strlen (decimal u ++ " " ++ decimal r ++ " 1" ++ nl)%string);
        Close fd;
        Setresuid u u u ] /\
    snd (opt_u kernel r l (decimal u) h) = Ret l.
Proof.
  intros Hu Hr Hfine. unfold opt_u.
  rewrite sscanf_d_decimal by lia.
  unfold map_line, fmt_d. rewrite !to_int_small by lia.
  rewrite to_uid_small by lia.
  exists (ret (kernel h (Open "/proc/self/uid_map" K.O_WRONLY None))).
  repeat (rewrite bind_ok_eq; cbv zeta;
          match goal with
          | |- context [0 <=? ret (kernel ?hh ?c)] =>
              destruct (Z.leb_spec 0 (ret (kernel hh c))) as [_|Hneg];
              [|specialize (Hfine hh c); lia]
          end; cbn [fst snd calls]).
  split; reflexivity.
Qed.

(** C6: the code at the failing input.  The invoking real uid is
    3000000000 and [-u 1000] is asked for.  [uid] is a [uid_t], but line 207
    prints it with [%d]: the line written to [/proc/self/uid_map] is
    [1000 -1294967296 1], not [1000 3000000000 1]. *)
Theorem C6_large_real_uid_is_printed_negative :
  let r := run friendly 3000000000 1000
               ["-s"; "/srv/sandbox"; "-u"; "1000"; "/bin/sh"] in
  map_line 1000 3000000000 = ("1000 -1294967296 1" ++ nl)%string /\
  In (Write 3 ("1000 -1294967296 1" ++ nl)%string 19) (calls (fst r)) /\
  ~ In (Write 3 ("1000 3000000000 1" ++ nl)%string 18) (calls (fst r)) /\
  In (Setresuid 1000 1000 1000) (calls (fst r)).
Proof.
  vm_compute. repeat split; try tauto.
  intros H. repeat (destruct H as [H|H]; [discriminate|]). exact H.
Qed.

(* ------------------------------------------------------------------ *)
(** ** A whole run *)

(** [mkbox -s /srv/sandbox -b /etc/resolv.conf=etc/resolv.conf -t tmp
    -u 1000 -g 1000 -d / /bin/sh], by uid and gid 1000, every call going
    well: the system calls, in order. *)
Example whole_run :
  let r := run host 1000 1000
               [ "-s"; "/srv/sandbox";
                 "-b"; "/etc/resolv.conf=etc/resolv.conf";
                 "-t"; "tmp"; "-u"; "1000"; "-g"; "1000"; "-d"; "/";
                 "/bin/sh" ] in
  calls (fst r) =
    [ Prctl K.PR_SET_PDEATHSIG K.SIGKILL;
      Unshare unshare_flags;
      Setdomainname "localdomain" 11;
      Sethostname "localhost" 9;
      rprivate;
      Mount "/srv/sandbox" "/srv/sandbox" None
            (Z.lor K.MS_BIND K.MS_NOSUID) None;
      Chdir "/srv/sandbox";
      Stat "/etc/resolv.conf";
      Open "etc/resolv.conf" (Z.lor K.O_WRONLY K.O_CREAT) (Some 438);
      Close 3;
      Mount "/etc/resolv.conf" "etc/resolv.conf" None K.MS_BIND None;
      Lstat "tmp"; Lstat "tmp"; Mkdir "tmp" 493;
      Mount "sandbox-tmp" "tmp" (Some "tmpfs") tmpfs_flags (Some tmpfs_data);
      Open "/proc/self/uid_map" K.O_WRONLY None;
      Write 3 ("1000 1000 1" ++ nl)%string 12;
      Close 3;
      Setresuid 1000 1000 1000;
      open_setgroups;
      Write 3 "deny" 4;
      Close 3;
      Open "/proc/self/gid_map" K.O_WRONLY None;
      Write 3 ("1000 1000 1" ++ nl)%string 12;
      Close 3;
      Setresgid 1000 1000 1000;
      Mkdir ".oldroot" 493;
      PivotRoot "." ".oldroot";
      Chroot ".";
      Umount2 ".oldroot" K.MNT_DETACH;
      Rmdir ".oldroot";
      Mount "/" "/" None remount_flags None;
      Chdir "/";
      dropcaps;
      Execv (Some "/bin/sh") ["/bin/sh"] ] /\
  snd r = Stop Replaced.
Proof. vm_compute. split; reflexivity. Qed.

(* ------------------------------------------------------------------ *)
(** ** The paths of [recursive_mkdir] *)

Lemma get_none_ge s : forall n, (String.length s <= n)%nat -> get n s = None.
Proof.
  induction s as [|x s IH]; intros n Hn; simpl; [reflexivity|].
  destruct n as [|n]; simpl in Hn; [lia|]. apply IH. lia.
Qed.

Lemma get_lt_some s : forall n, (n < String.length s)%nat ->
  exists c, get n s = Some c.
Proof.
  induction s as [|x s IH]; intros n Hn; simpl in *; [lia|].
  destruct n as [|n]; [eauto|]. apply IH. lia.
Qed.

(** Where [strchrnul] stops there is the character or the end. *)
Lemma strchrnul_stops s c : forall from,
  (from <= String.length s)%nat ->
  get (strchrnul s from c) s = None \/ get (strchrnul s from c) s = Some c.
Proof.
  induction s as [|x s IH]; intros from Hfrom; simpl; [left; reflexivity|].
  destruct from as [|from].
  - destruct (Ascii.eqb_spec x c) as [->|Hne]; [right; reflexivity|].
    simpl. apply IH. lia.
  - simpl. apply IH. simpl in Hfrom. lia.
Qed.

(** Before it stops, [strchrnul] has passed other characters only. *)
Lemma strchrnul_passes s c : forall from j,
  (from <= j < strchrnul s from c)%nat ->
  exists x, get j s = Some x /\ x <> c.
Proof.
  induction s as [|x s IH]; intros from j Hj; simpl in *; [lia|].
  destruct from as [|from].
  - destruct (Ascii.eqb_spec x c) as [->|Hne]; [lia|].
    destruct j as [|j]; [eauto|]. apply (IH O). lia.
  - destruct j as [|j]; [lia|]. apply (IH from). lia.
Qed.

Lemma filter_none {A} (f : A -> bool) l :
  (forall x, In x l -> f x = false) -> filter f l = [].
Proof.
  induction l as [|x l IH]; intros H; simpl; [reflexivity|].
  rewrite (H x) by (left; reflexivity). apply IH. intros; apply H; right; auto.
Qed.

Lemma cuts_after_end dir : cuts_after dir (String.length dir) = [].
Proof. unfold cuts_after. rewrite Nat.sub_diag. reflexivity. Qed.

(** The first cut above [e] is where [strchrnul] stops. *)
Lemma cuts_after_step dir e :
  (e < String.length dir)%nat ->
  cuts_after dir e =
    strchrnul dir (S e) "/" :: cuts_after dir (strchrnul dir (S e) "/").
Proof.
  intros He. set (endp := strchrnul dir (S e) "/").
  assert (Hge : (S e <= endp)%nat) by (apply strchrnul_ge; lia).
  assert (Hle : (endp <= String.length dir)%nat) by apply strchrnul_le.
  unfold cuts_after.
  replace (String.length dir - e)%nat
    with ((endp - S e) + S (String.length dir - endp))%nat by lia.
  rewrite seq_app, filter_app.
  replace (S e + (endp - S e))%nat with endp by lia.
  cbn [seq filter].
  assert (Hnone : filter (slash_or_end dir) (seq (S e) (endp - S e)) = []).
  { apply filter_none. intros j Hj. apply in_seq in Hj.
    destruct (strchrnul_passes dir "/" (S e) j) as (x & Hx & Hne);
      [fold endp; lia|].
    unfold slash_or_end. rewrite Hx. apply Ascii.eqb_neq. assumption. }
  rewrite Hnone. cbn [app].
  assert (Hend : slash_or_end dir endp = true).
  { unfold slash_or_end.
    destruct (strchrnul_stops dir "/" (S e) ltac:(lia)) as [H|H];
      fold endp in H; rewrite H; [reflexivity | apply Ascii.eqb_refl]. }
  rewrite Hend. reflexivity.
Qed.

Lemma get_none_le s n : get n s = None -> (String.length s <= n)%nat.
Proof.
  intros H. destruct (Nat.le_gt_cases (String.length s) n) as [|Hlt];
    [assumption|].
  destruct (get_lt_some s n Hlt) as [c Hc]. congruence.
Qed.

Section MkdirPaths.

Variable kernel : os.
Variable dir : string.
Variable mode : Z.

Lemma mkdir_loop_looks fuel : forall end_ h,
  (String.length dir - end_ < fuel)%nat ->
  exists n,
    lstat_paths (calls (fst (mkdir_loop kernel fuel dir mode end_ h))) =
      firstn n (paths_after dir end_) /\
    (snd (mkdir_loop kernel fuel dir mode end_ h) = Ret tt ->
     n = List.length (paths_after dir end_)).
Proof.
  induction fuel as [|fuel IH]; intros end_ h Hfuel; [lia|].
  cbn [mkdir_loop]. destruct (get end_ dir) as [c|] eqn:Hget.
  - apply get_some_lt in Hget. unfold paths_after.
    rewrite cuts_after_step by assumption. cbn [map].
    set (endp := strchrnul dir (S end_) "/").
    assert (Hge : (S end_ <= endp)%nat) by (apply strchrnul_ge; lia).
    destruct (1024 <=? Z.of_nat endp).
    { exists O. split; [reflexivity | discriminate]. }
    rewrite bind_sys_eq. cbv zeta. cbn [fst snd calls lstat_paths].
    destruct (_ && _).
    + destruct (IH endp (h ++ [Call (Lstat (prefix endp dir))
                                     (kernel h (Lstat (prefix endp dir)))])
                   ltac:(lia)) as (n & Hn & Hret).
      exists (S n). cbn [firstn List.length]. split.
      * f_equal. exact Hn.
      * intros H. f_equal. auto.
    + rewrite bind_sys_eq. cbv zeta. cbn [fst snd calls lstat_paths].
      destruct (ret _ <? 0).
      * exists 1%nat. split; [reflexivity | discriminate].
      * match goal with |- context [mkdir_loop kernel fuel dir mode endp ?hh] =>
          destruct (IH endp hh ltac:(lia)) as (n & Hn & Hret) end.
        exists (S n). cbn [firstn List.length]. split.
        -- f_equal. exact Hn.
        -- intros H. f_equal. auto.
  - apply get_none_le in Hget.
    exists O. split; [reflexivity|]. intros _. unfold paths_after, cuts_after.
    replace (String.length dir - end_)%nat with O by lia. reflexivity.
Qed.

Lemma mkdir_loop_existing fuel : forall end_ h,
  short dir ->
  (forall h' p, 0 <= ret (kernel h' (Lstat p)) /\
                Z.land (st_mode (kernel h' (Lstat p))) K.S_IFDIR <> 0) ->
  (String.length dir - end_ < fuel)%nat ->
  calls (fst (mkdir_loop kernel fuel dir mode end_ h)) =
    map Lstat (paths_after dir end_) /\
  snd (mkdir_loop kernel fuel dir mode end_ h) = Ret tt.
Proof.
  induction fuel as [|fuel IH]; intros end_ h Hshort Hthere Hfuel; [lia|].
  cbn [mkdir_loop]. destruct (get end_ dir) as [c|] eqn:Hget.
  - apply get_some_lt in Hget. unfold paths_after.
    rewrite cuts_after_step by assumption. cbn [map].
    set (endp := strchrnul dir (S end_) "/").
    assert (Hge : (S end_ <= endp)%nat) by (apply strchrnul_ge; lia).
    assert (Hle : (endp <= String.length dir)%nat) by apply strchrnul_le.
    destruct (Z.leb_spec 1024 (Z.of_nat endp));
      [unfold short, strlen in Hshort; lia|].
    rewrite bind_sys_eq. cbv zeta. cbn [fst snd calls].
    destruct (Hthere h (prefix endp dir)) as [Hret Hmode].
    destruct (Z.leb_spec 0 (ret (kernel h (Lstat (prefix endp dir)))));
      [|lia].
    destruct (Z.eqb_spec (Z.land (st_mode (kernel h (Lstat (prefix endp dir))))
                                 K.S_IFDIR) 0); [contradiction|].
    cbn [andb negb].
    match goal with |- context [mkdir_loop kernel fuel dir mode endp ?hh] =>
      destruct (IH endp hh Hshort Hthere ltac:(lia)) as [Hc Hr] end.
    split; [f_equal; exact Hc | exact Hr].
  - apply get_none_le in Hget. unfold paths_after, cuts_after.
    replace (String.length dir - end_)%nat with O by lia.
    split; reflexivity.
Qed.

Lemma mkdir_loop_fresh fuel : forall end_ h,
  short dir ->
  (forall h' p, ret (kernel h' (Lstat p)) < 0) ->
  (forall h' p m, 0 <= ret (kernel h' (Mkdir p m))) ->
  (String.length dir - end_ < fuel)%nat ->
  calls (fst (mkdir_loop kernel fuel dir mode end_ h)) =
    flat_map (fun p => [Lstat p; Mkdir p mode]) (paths_after dir end_) /\
  snd (mkdir_loop kernel fuel dir mode end_ h) = Ret tt.
Proof.
  induction fuel as [|fuel IH];
    intros end_ h Hshort Habsent Hmkdir Hfuel; [lia|].
  cbn [mkdir_loop]. destruct (get end_ dir) as [c|] eqn:Hget.
  - apply get_some_lt in Hget. unfold paths_after.
    rewrite cuts_after_step by assumption. cbn [map flat_map].
    set (endp := strchrnul dir (S end_) "/").
    assert (Hge : (S end_ <= endp)%nat) by (apply strchrnul_ge; lia).
    assert (Hle : (endp <= String.length dir)%nat) by apply strchrnul_le.
    destruct (Z.leb_spec 1024 (Z.of_nat endp));
      [unfold short, strlen in Hshort; lia|].
    rewrite bind_sys_eq. cbv zeta. cbn [fst snd calls].
    destruct (Z.leb_spec 0 (ret (kernel h (Lstat (prefix endp dir)))));
      [specialize (Habsent h (prefix endp dir)); lia|].
    cbn [andb]. rewrite bind_sys_eq. cbv zeta. cbn [fst snd calls].
    match goal with |- context [ret (kernel ?hh (Mkdir ?p ?m)) <? 0] =>
      destruct (Z.ltb_spec (ret (kernel hh (Mkdir p m))) 0);
      [specialize (Hmkdir hh p m); lia|] end.
    match goal with |- context [mkdir_loop kernel fuel dir mode endp ?hh] =>
      destruct (IH endp hh Hshort Habsent Hmkdir ltac:(lia)) as [Hc Hr] end.
    split; [cbn [app]; do 2 f_equal; exact Hc | exact Hr].
  - apply get_none_le in Hget. unfold paths_after, cuts_after.
    replace (String.length dir - end_)%nat with O by lia.
    split; reflexivity.
Qed.

End MkdirPaths.

Lemma lstat_paths_in p a es :
  In (Call (Lstat p) a) es -> In p (lstat_paths (calls es)).
Proof.
  induction es as [|e es IH]; simpl; [tauto|].
  intros [->|Hin]; [left; reflexivity|].
  destruct e as [c b| |]; simpl; auto. destruct c; simpl; auto.
Qed.

Lemma firstn_in {A} (x : A) n l : In x (firstn n l) -> In x l.
Proof.
  revert l; induction n as [|n IH]; intros [|y l]; simpl; try tauto.
  intros [->|H]; auto.
Qed.

(** X3: [recursive_mkdir] looks at the ancestors of [dir] and at [dir], from
    the shortest on: the paths of its [lstat] calls are an initial segment
    of [components dir], all of them when it returns, and a path it calls
    [mkdir] on is one of them. *)
Theorem X3_recursive_mkdir_walks_the_ancestors kernel dir mode h :
  let r := recursive_mkdir kernel dir mode h in
  (exists n,
      lstat_paths (calls (fst r)) = firstn n (components dir) /\
      (snd r = Ret tt -> n = List.length (components dir))) /\
  (forall p m, In (Mkdir p m) (calls (fst r)) -> In p (components dir)).
Proof.
  intros r.
  destruct (mkdir_loop_looks kernel dir mode (S (String.length dir)) O h
              ltac:(lia)) as (n & Hn & Hret).
  split; [exists n; split; assumption|].
  intros p m Hin. apply in_calls in Hin. destruct Hin as [a' Hin].
  destruct (in_split _ _ Hin) as (es1 & es2 & Hes).
  destruct (mkdir_trace_guard _ (mkdir_loop_trace kernel dir mode _ O h)
              es1 p m a' es2 Hes) as (es0 & a & -> & _).
  apply firstn_in with (n := n). unfold components. rewrite <- Hn.
  apply lstat_paths_in with (a := a).
  unfold r, recursive_mkdir in Hes. rewrite Hes.
  apply in_or_app. left. apply in_or_app. right. left. reflexivity.
Qed.

(** X4: [recursive_mkdir] takes a path for a directory that is there when
    [lstat] succeeds and [st_mode & S_IFDIR] is not zero, which holds for a
    directory, and for a socket or a block device as well.  When every path
    it looks at passes that test, it calls [lstat] on each of
    [components dir], calls no [mkdir] and returns. *)
Theorem X4_recursive_mkdir_skips_what_is_there kernel dir mode h :
  short dir ->
  (forall h' p, 0 <= ret (kernel h' (Lstat p)) /\
                Z.land (st_mode (kernel h' (Lstat p))) K.S_IFDIR <> 0) ->
  calls (fst (recursive_mkdir kernel dir mode h)) =
    map Lstat (components dir) /\
  snd (recursive_mkdir kernel dir mode h) = Ret tt.
Proof.
  intros Hshort Hthere.
  apply mkdir_loop_existing; [assumption | assumption | lia].
Qed.

(** The theorem at [a/b], both being sockets. *)
Lemma X4_sockets_witness :
  short "a/b" /\
  S_ISDIR 49645 = false /\
  calls (fst (recursive_mkdir sockets "a/b" 493 [])) =
    [Lstat "a"; Lstat "a/b"].
Proof.
  assert (H1 : short "a/b") by reflexivity.
  assert (H2 : forall (h' : list event) (p : string),
             0 <= ret (sockets h' (Lstat p)) /\
             Z.land (st_mode (sockets h' (Lstat p))) K.S_IFDIR <> 0).
  { intros h' p. split; discriminate. }
  split; [exact H1 | split; [reflexivity|]].
  exact (proj1 (X4_recursive_mkdir_skips_what_is_there
                  sockets "a/b" 493 [] H1 H2)).
Defined.

(** X5: where nothing is there yet ([lstat] fails on every path) and
    [mkdir] goes well, [recursive_mkdir] creates each of [components dir],
    the parents before the children, each right after its [lstat] and with
    the mode it was given, and returns. *)
Theorem X5_recursive_mkdir_creates_the_ancestors kernel dir mode h :
  short dir ->
  (forall h' p, ret (kernel h' (Lstat p)) < 0) ->
  (forall h' p m, 0 <= ret (kernel h' (Mkdir p m))) ->
  calls (fst (recursive_mkdir kernel dir mode h)) =
    flat_map (fun p => [Lstat p; Mkdir p mode]) (components dir) /\
  snd (recursive_mkdir kernel dir mode h) = Ret tt.
Proof.
  intros Hshort Habsent Hmkdir.
  apply mkdir_loop_fresh; [assumption | assumption | assumption | lia].
Qed.

(** The theorem at [/a/b//c]. *)
Lemma X5_creation_witness :
  short "/a/b//c" /\
  calls (fst (recursive_mkdir friendly "/a/b//c" 493 [])) =
    [ Lstat "/a"; Mkdir "/a" 493; Lstat "/a/b"; Mkdir "/a/b" 493;
      Lstat "/a/b/"; Mkdir "/a/b/" 493; Lstat "/a/b//c"; Mkdir "/a/b//c" 493 ].
Proof.
  assert (H1 : short "/a/b//c") by reflexivity.
  assert (H2 : forall (h' : list event) (p : string),
             ret (friendly h' (Lstat p)) < 0) by reflexivity.
  assert (H3 : forall (h' : list event) (p : string) (m : Z),
             0 <= ret (friendly h' (Mkdir p m))) by discriminate.
  split; [exact H1|].
  exact (proj1 (X5_recursive_mkdir_creates_the_ancestors
                  friendly "/a/b//c" 493 [] H1 H2 H3)).
Defined.

Lemma mkdir_loop_defined kernel dir mode fuel : forall end_ h,
  short dir ->
  snd (mkdir_loop kernel fuel dir mode end_ h) <> Stop Undefined.
Proof.
  induction fuel as [|fuel IH]; intros end_ h Hshort; cbn [mkdir_loop];
    [discriminate|].
  destruct (get end_ dir) as [c|]; [|discriminate].
  pose proof (strchrnul_le dir (S end_) "/") as Hle.
  destruct (Z.leb_spec 1024 (Z.of_nat (strchrnul dir (S end_) "/")));
    [unfold short, strlen in Hshort; lia|].
  rewrite bind_sys_eq. cbv zeta. cbn [snd].
  destruct (_ && _); [apply IH; assumption|].
  rewrite bind_sys_eq. cbv zeta. cbn [snd].
  destruct (ret _ <? 0); [discriminate | apply IH; assumption].
Qed.

(** X6: the bounds of [recursive_mkdir].  On the empty path it does
    nothing and returns.  On a path shorter than 1024 bytes every copy into
    [path[1024]] leaves the final zero byte in place.  On a path whose first
    component has 1024 bytes or more, the first [strncpy] leaves [path]
    without its final zero byte (at 1024 bytes it fills the buffer to the
    brim, from 1025 bytes on it writes past it): what the first [lstat] is
    handed is not a string, and the behaviour of the program is undefined
    from there on.  No system call comes before that point, and the trace
    ends at it. *)
Theorem X6_recursive_mkdir_and_its_buffer kernel mode h :
  recursive_mkdir kernel "" mode h = ([], Ret tt) /\
  (forall dir,
      short dir -> snd (recursive_mkdir kernel dir mode h) <> Stop Undefined) /\
  (forall dir,
      dir <> "" -> 1024 <= Z.of_nat (strchrnul dir 1 "/") ->
      recursive_mkdir kernel dir mode h = ([], Stop Undefined)).
Proof.
  split; [reflexivity | split].
  - intros dir Hshort. apply mkdir_loop_defined. assumption.
  - intros dir Hne Hbig. unfold recursive_mkdir. cbn [mkdir_loop].
    destruct dir as [|c dir]; [contradiction|]. cbn [get].
    destruct (Z.leb_spec 1024
                (Z.of_nat (strchrnul (String c dir) 1 "/"))); [|lia].
    reflexivity.
Qed.

(** The theorem at a name of 1024 bytes, which fills [path] to the brim. *)
Lemma X6_long_name_witness :
  long_name <> "" /\
  1024 <= Z.of_nat (strchrnul long_name 1 "/") /\
  recursive_mkdir friendly long_name 493 [] = ([], Stop Undefined).
Proof.
  assert (H1 : long_name <> "") by (vm_compute; discriminate).
  assert (H2 : 1024 <= Z.of_nat (strchrnul long_name 1 "/"))
    by (vm_compute; discriminate).
  split; [exact H1 | split; [exact H2|]].
  exact (proj2 (proj2 (X6_recursive_mkdir_and_its_buffer friendly 493 []))
               long_name H1 H2).
Defined.

(** X7: the loop of [recursive_mkdir] ends by itself.  Each turn moves
    [end] forward, so it has found the final zero byte of [dir] after at
    most [strlen(dir)] turns: with any number of turns above that, the run
    is the same. *)
Theorem X7_recursive_mkdir_loop_ends kernel dir mode fuel h :
  (String.length dir < fuel)%nat ->
  mkdir_loop kernel fuel dir mode 0 h = recursive_mkdir kernel dir mode h.
Proof. intros H. unfold recursive_mkdir. apply mkdir_loop_fuel; lia. Qed.

(** The theorem at [a/b] with 100 turns. *)
Lemma X7_fuel_witness :
  (String.length "a/b" < 100)%nat /\
  mkdir_loop friendly 100 "a/b" 493 0 [] = recursive_mkdir friendly "a/b" 493 [].
Proof.
  assert (H : (String.length "a/b" < 100)%nat) by (simpl; lia).
  split; [exact H|].
  exact (X7_recursive_mkdir_loop_ends friendly "a/b" 493 100 [] H).
Defined.

(* ------------------------------------------------------------------ *)
(** ** Rules whose target is not there yet *)

Section FreshRules.

Variable kernel : os.
Hypothesis absent : forall h' p, ret (kernel h' (Lstat p)) < 0.
Hypothesis mkdir_fine : forall h' p m, 0 <= ret (kernel h' (Mkdir p m)).

Lemma created_then {A} dst (k : M A) h :
  short dst ->
  calls (fst (bind (recursive_mkdir kernel dst 493) (fun _ => k) h)) =
    flat_map (fun p => [Lstat p; Mkdir p 493]) (components dst) ++
    calls (fst (k (h ++ fst (recursive_mkdir kernel dst 493 h)))).
Proof.
  intros Hshort.
  destruct (mkdir_loop_fresh kernel dst 493 (S (String.length dst)) O h
              Hshort absent mkdir_fine ltac:(lia)) as [Hc Hr].
  fold (recursive_mkdir kernel dst 493 h) in Hc, Hr.
  unfold bind. destruct (recursive_mkdir kernel dst 493 h) as [es o].
  cbn [fst snd] in *. subst o.
  destruct (k (h ++ es)) as [es' o']. cbn [fst].
  rewrite calls_app, Hc. reflexivity.
Qed.

Lemma bind_mount_fresh l src dst h :
  short dst ->
  (forall h', 0 <= ret (kernel h' (Stat src)) /\
              S_ISDIR (st_mode (kernel h' (Stat src))) = true) ->
  calls (fst (bind_mount kernel l src dst h)) =
    [Stat src; Lstat dst] ++
    flat_map (fun p => [Lstat p; Mkdir p 493]) (components dst) ++
    [Mount src dst None (Z.lor K.MS_REC K.MS_BIND) None].
Proof.
  intros Hshort Hstat. unfold bind_mount.
  match goal with |- context [bind (when ?b (eprint ?msg)) ?f h] =>
    destruct (when_eprint_calls b msg f h) as (h' & -> & _) end.
  rewrite bind_ok_eq. cbv zeta.
  destruct (Hstat h') as [Hret Hdir].
  destruct (Z.leb_spec 0 (ret (kernel h' (Stat src)))); [|lia].
  rewrite Hdir. cbn [fst calls app]. f_equal.
  rewrite bind_assoc, bind_sys_eq. cbv zeta. cbn [fst calls]. f_equal.
  match goal with |- context [ret (kernel ?hh (Lstat dst)) <? 0] =>
    destruct (Z.ltb_spec (ret (kernel hh (Lstat dst))) 0) as [_|Hpos];
    [|specialize (absent hh dst); lia] end.
  simpl when. rewrite bind_assoc, created_then by assumption. f_equal.
  rewrite bind_ok_eq. cbv zeta. destruct (0 <=? ret _); reflexivity.
Qed.

Lemma opt_t_fresh l path h :
  short path ->
  calls (fst (opt_t kernel l path h)) =
    Lstat path ::
    flat_map (fun p => [Lstat p; Mkdir p 493]) (components path) ++
    [Mount "sandbox-tmp" path (Some "tmpfs") tmpfs_flags (Some tmpfs_data)].
Proof.
  intros Hshort. unfold opt_t.
  match goal with |- context [bind (when ?b (eprint ?msg)) ?f h] =>
    destruct (when_eprint_calls b msg f h) as (h' & -> & _) end.
  rewrite bind_sys_eq. cbv zeta. cbn [fst calls]. f_equal.
  destruct (Z.ltb_spec (ret (kernel h' (Lstat path))) 0) as [_|Hpos];
    [|specialize (absent h' path); lia].
  simpl when. rewrite created_then by assumption. f_equal.
  rewrite bind_ok_eq. cbv zeta. destruct (0 <=? ret _); reflexivity.
Qed.

End FreshRules.

(** X8: a target that is not there is made before it is mounted on.  Where
    [lstat] finds nothing and [mkdir] goes well, [case 'b'] with a
    directory as source calls [stat] on the source, [lstat] on the
    destination, creates each of the destination's components, parents
    first, and then makes the bind mount; [case 't'] does the same for its
    path and then mounts the tmpfs. *)
Theorem X8_missing_targets_are_made_then_mounted kernel l h src dst :
  lacks_separator src -> starts_with_slash dst = false -> short dst ->
  (forall h', 0 <= ret (kernel h' (Stat src)) /\
              S_ISDIR (st_mode (kernel h' (Stat src))) = true) ->
  (forall h' p, ret (kernel h' (Lstat p)) < 0) ->
  (forall h' p m, 0 <= ret (kernel h' (Mkdir p m))) ->
  calls (fst (opt_b kernel l (src ++ "=" ++ dst)%string h)) =
    [Stat src; Lstat dst] ++
    flat_map (fun p => [Lstat p; Mkdir p 493]) (components dst) ++
    [Mount src dst None (Z.lor K.MS_REC K.MS_BIND) None] /\
  calls (fst (opt_t kernel l dst h)) =
    Lstat dst ::
    flat_map (fun p => [Lstat p; Mkdir p 493]) (components dst) ++
    [Mount "sandbox-tmp" dst (Some "tmpfs") tmpfs_flags (Some tmpfs_data)].
Proof.
  intros Hno Hrel Hshort Hstat Habsent Hmkdir.
  rewrite opt_b_accepted by assumption. split.
  - apply bind_mount_fresh; assumption.
  - apply opt_t_fresh; assumption.
Qed.

(** The theorem at the rule [/usr=usr/local]. *)
Lemma X8_missing_targets_witness :
  lacks_separator "/usr" /\
  calls (fst (opt_b friendly initial "/usr=usr/local" [])) =
    [ Stat "/usr"; Lstat "usr/local";
      Lstat "usr"; Mkdir "usr" 493;
      Lstat "usr/local"; Mkdir "usr/local" 493;
      Mount "/usr" "usr/local" None (Z.lor K.MS_REC K.MS_BIND) None ].
Proof.
  assert (H1 : lacks_separator "/usr").
  { unfold lacks_separator. simpl. intros [H|[H|[H|[H|[]]]]]; discriminate. }
  assert (H2 : forall h' : list event,
             0 <= ret (friendly h' (Stat "/usr")) /\
             S_ISDIR (st_mode (friendly h' (Stat "/usr"))) = true).
  { intros h'. split; [discriminate | reflexivity]. }
  assert (H3 : forall (h' : list event) (p : string),
             ret (friendly h' (Lstat p)) < 0) by reflexivity.
  assert (H4 : forall (h' : list event) (p : string) (m : Z),
             0 <= ret (friendly h' (Mkdir p m))) by discriminate.
  split; [exact H1|].
  exact (proj1 (X8_missing_targets_are_made_then_mounted
                  friendly initial [] "/usr" "usr/local"
                  H1 eq_refl eq_refl H2 H3 H4)).
Defined.

(** X9: an empty destination is let through.  For [-b src=] the character
    after the ['='] is the final zero byte, not ['/']: the rule is taken,
    and with a directory as source it goes on to [lstat("")] and then,
    whatever that said and without any [mkdir], to the bind mount of the
    source on the empty path. *)
Theorem X9_empty_destination_is_accepted kernel l h src :
  lacks_separator src ->
  (forall h', 0 <= ret (kernel h' (Stat src)) /\
              S_ISDIR (st_mode (kernel h' (Stat src))) = true) ->
  refuses (src ++ "=")%string = false /\
  calls (fst (opt_b kernel l (src ++ "=")%string h)) =
    [ Stat src; Lstat "";
      Mount src "" None (Z.lor K.MS_REC K.MS_BIND) None ].
Proof.
  intros Hno Hstat.
  change (src ++ "=")%string with (src ++ "=" ++ "")%string.
  split; [rewrite refuses_split by assumption; reflexivity|].
  rewrite opt_b_accepted by (auto; reflexivity). unfold bind_mount.
  match goal with |- context [bind (when ?b (eprint ?msg)) ?f h] =>
    destruct (when_eprint_calls b msg f h) as (h' & -> & _) end.
  rewrite bind_ok_eq. cbv zeta.
  destruct (Hstat h') as [Hret Hdir].
  destruct (Z.leb_spec 0 (ret (kernel h' (Stat src)))); [|lia].
  rewrite Hdir. cbn [fst calls]. f_equal.
  rewrite bind_assoc, bind_sys_eq. cbv zeta. cbn [fst calls]. f_equal.
  assert (Hnoop : forall hh,
             recursive_mkdir kernel "" 493 hh = ([], Ret tt)) by reflexivity.
  destruct (ret _ <? 0); simpl when.
  - rewrite bind_assoc. unfold bind at 1. rewrite Hnoop. rewrite app_nil_r.
    rewrite bind_ok_eq. cbv zeta. destruct (0 <=? ret _); reflexivity.
  - rewrite bind_assoc, bind_ret_eq, bind_ok_eq. cbv zeta.
    destruct (0 <=? ret _); reflexivity.
Qed.

(** The theorem at [-b /usr=]. *)
Lemma X9_empty_destination_witness :
  lacks_separator "/usr" /\
  calls (fst (opt_b friendly initial "/usr=" [])) =
    [ Stat "/usr"; Lstat "";
      Mount "/usr" "" None (Z.lor K.MS_REC K.MS_BIND) None ].
Proof.
  assert (H1 : lacks_separator "/usr").
  { unfold lacks_separator. simpl. intros [H|[H|[H|[H|[]]]]]; discriminate. }
  assert (H2 : forall h' : list event,
             0 <= ret (friendly h' (Stat "/usr")) /\
             S_ISDIR (st_mode (friendly h' (Stat "/usr"))) = true).
  { intros h'. split; [discriminate | reflexivity]. }
  split; [exact H1|].
  exact (proj2 (X9_empty_destination_is_accepted
                  friendly initial [] "/usr" H1 H2)).
Defined.

(* ------------------------------------------------------------------ *)
(** ** How a run ends *)

(** X1: in a whole run, a system call that fails ends the run, unless it
    is an [lstat], the [mount] that makes the old root private or the
    [open] of [/proc/self/setgroups]: it is the last system call of the run
    and the exit status is 255.  So [checkreturn] and the test on [mkdir]
    leave no other failure behind. *)
Theorem X1_a_checked_failure_is_the_last_call kernel uid gid args c a :
  In (Call c a) (fst (run kernel uid gid args)) ->
  ret a < 0 -> ~ unchecked c ->
  snd (run kernel uid gid args) = Stop (Exited 255) /\
  exists before after,
    fst (run kernel uid gid args) = before ++ Call c a :: after /\
    calls after = [].
Proof.
  intros Hin Hneg Hun.
  destruct (in_split _ _ Hin) as (es1 & es2 & Hes).
  destruct (main_fatal kernel uid gid args [] es1 c a es2 Hes Hneg Hun)
    as [Hq Hs].
  split; [exact Hs|]. exists es1, es2. split; assumption.
Qed.

(** The theorem at [mkbox -s /srv/sandbox /bin/sh] with a [chdir] that
    fails. *)
Lemma X1_failed_chdir_witness :
  In (Call (Chdir "/srv/sandbox") (failed K.ENOENT))
     (fst (run (refusing is_chdir K.ENOENT friendly) 1000 1000
               ["-s"; "/srv/sandbox"; "/bin/sh"])) /\
  snd (run (refusing is_chdir K.ENOENT friendly) 1000 1000
           ["-s"; "/srv/sandbox"; "/bin/sh"]) = Stop (Exited 255).
Proof.
  assert (H1 : In (Call (Chdir "/srv/sandbox") (failed K.ENOENT))
                  (fst (run (refusing is_chdir K.ENOENT friendly) 1000 1000
                            ["-s"; "/srv/sandbox"; "/bin/sh"])))
    by (vm_compute; tauto).
  assert (H2 : ret (failed K.ENOENT) < 0) by reflexivity.
  assert (H3 : ~ unchecked (Chdir "/srv/sandbox"))
    by (intros H; inversion H).
  split; [exact H1|].
  exact (proj1 (X1_a_checked_failure_is_the_last_call
                  (refusing is_chdir K.ENOENT friendly) 1000 1000
                  ["-s"; "/srv/sandbox"; "/bin/sh"] _ _ H1 H2 H3)).
Defined.

Lemma execv_ends {B} kernel (P : syscall -> Prop) (S : stop -> Prop)
      b argv name arg (k : M B) :
  P (Execv b argv) -> S (Exited 255) -> S Replaced ->
  sat P (fun _ : B => False) S
      (a <- execv kernel b argv ;; checkreturn a name arg ;; k).
Proof.
  intros HP He Hr h. rewrite execv_checked.
  destruct (ret _ <? 0); cbn [fst snd calls]; split; auto.
Qed.

Lemma handoff_ends kernel (S : stop -> Prop) l operands :
  S (Exited 255) -> S Replaced ->
  sat main_call (fun _ : unit => False) S (handoff kernel l operands).
Proof.
  intros He Hr. unfold handoff.
  apply sat_bind with (R1 := any); [destruct (child_dir l); sat_steps|].
  intros _ _.
  apply sat_bind with (R1 := any); [sat_steps|]. intros _ _.
  apply execv_ends; [constructor | assumption | assumption].
Qed.

Lemma main_ends kernel (S : stop -> Prop) uid gid args :
  S (Exited 255) -> S Replaced -> Forall short args \/ S Undefined ->
  sat main_call (fun _ : unit => False) S (main kernel uid gid args).
Proof.
  intros He Hr Hlen. unfold main.
  apply sat_bind with (R1 := any).
  { eapply sat_weaken; [apply (prologue_sat kernel S He)| | |];
      auto using main_call. }
  intros _ _.
  assert (Hopts : Forall (fun o => short (snd o) \/ S Undefined)
                         (fst (getopt_all args))).
  { destruct Hlen as [Hlen|Hu].
    - eapply Forall_impl; [|apply getopt_all_short; exact Hlen].
      intros; left; assumption.
    - apply Forall_forall. intros; right; assumption. }
  destruct (getopt_all args) as [opts operands]. cbn [fst] in Hopts.
  apply sat_bind with (R1 := any).
  { eapply sat_weaken;
      [apply (option_loop_sat kernel S He uid gid opts initial Hopts)
      | auto using main_call, early_call
      | intros; exact I
      | auto ]. }
  intros l _.
  apply sat_bind with (R1 := any); [destruct (root_set l); sat_steps|].
  intros _ _.
  apply sat_bind with (R1 := any); [apply pivot_sat; assumption|].
  intros _ _. apply handoff_ends; assumption.
Qed.

(** X2: a run of [main] ends in one of three ways: the process exits with
    status 255, or it is replaced by the target binary, or [recursive_mkdir]
    writes past its 1024-byte buffer; the last needs a command-line word of
    1024 bytes or more.  [main] never returns, and no other exit status
    occurs: the end of its body, after [ok(execv, ...)], is out of reach. *)
Theorem X2_a_run_exits_255_or_hands_over kernel uid gid args :
  snd (run kernel uid gid args) = Stop (Exited 255) \/
  snd (run kernel uid gid args) = Stop Replaced \/
  (snd (run kernel uid gid args) = Stop Undefined /\ ~ Forall short args).
Proof.
  pose proof (main_ends kernel
                (fun s => s = Exited 255 \/ s = Replaced \/ s = Undefined)
                uid gid args (or_introl eq_refl)
                (or_intror (or_introl eq_refl))
                (or_intror (or_intror (or_intror eq_refl))) []) as [_ H1].
  fold (run kernel uid gid args) in H1.
  destruct (snd (run kernel uid gid args)) as [[]|s] eqn:Hrun; [contradiction|].
  destruct H1 as [-> | [-> | ->] ]; auto.
  right; right. split; [reflexivity|]. intros Hshort.
  pose proof (main_ends kernel (fun s => s <> Undefined) uid gid args
                ltac:(discriminate) ltac:(discriminate)
                (or_introl Hshort) []) as [_ H2].
  fold (run kernel uid gid args) in H2. rewrite Hrun in H2.
  apply H2; reflexivity.
Qed.

(* ------------------------------------------------------------------ *)
(** ** The option loop *)

Lemma run_stops_at kernel uid gid args before o after operands :
  getopt_all args = (before ++ o :: after, operands) ->
  (forall l h, exists msg,
      option_case kernel uid gid l o h = ([Stderr msg], Stop (Exited 255))) ->
  let earlier :=
    (prologue kernel ;; option_loop kernel uid gid before initial) [] in
  calls (fst (run kernel uid gid args)) = calls (fst earlier) /\
  snd (run kernel uid gid args) =
    match snd earlier with
    | Ret _ => Stop (Exited 255)
    | Stop s => Stop s
    end /\
  snd (run kernel uid gid args) <> Stop Replaced.
Proof.
  intros Hopts Href earlier.
  pose (K := fun l => (if root_set l then ret_ tt
                       else errorf "-s option is mandatory") ;;
                      pivot kernel ;; handoff kernel l operands).
  pose (G := fun l => bind (option_loop kernel uid gid (o :: after) l) K).
  pose (P := prologue kernel ;; option_loop kernel uid gid before initial).
  assert (Hmain : run kernel uid gid args = bind P G []).
  { unfold run, main, P. rewrite Hopts. fold K.
    rewrite bind_assoc. apply bind_ext. intros [] h'.
    etransitivity; [apply bind_cong; intros; apply option_loop_app|].
    apply bind_assoc. }
  assert (HG : forall l h, exists msg, G l h = ([Stderr msg], Stop (Exited 255))).
  { intros l h. destruct (Href l h) as [msg Hmsg]. exists msg.
    unfold G. cbn [option_loop]. unfold bind. rewrite Hmsg. reflexivity. }
  assert (HP : sat early_call (@any locals) (fun s => s <> Replaced) P).
  { unfold P. apply sat_bind with (R1 := any);
      [apply prologue_sat; discriminate|].
    intros _ _. eapply sat_weaken;
      [apply (option_loop_sat kernel (fun s => s <> Replaced)
                ltac:(discriminate) uid gid before initial)
      | auto using early_call | intros; exact I | auto].
    apply Forall_forall. intros; right; discriminate. }
  unfold earlier. fold P. rewrite Hmain. unfold bind.
  destruct (P []) as [es [l|s]] eqn:HPrun.
  - destruct (HG l ([] ++ es)) as [msg ->]. cbn [fst snd].
    rewrite calls_app. simpl. rewrite app_nil_r.
    repeat split. discriminate.
  - destruct (sat_run _ _ _ _ _ _ _ HP HPrun) as [_ Hs]. cbn [fst snd].
    repeat split. congruence.
Qed.

Lemma option_case_unhandled kernel uid gid l opt optarg h :
  handled opt = false ->
  option_case kernel uid gid l (opt, optarg) h =
  ([Stderr ("option " ++ String opt EmptyString ++ " unknown")],
   Stop (Exited 255)).
Proof.
  unfold handled. cbn [existsb]. intros H.
  repeat (apply orb_false_elim in H; destruct H as [? H]).
  unfold option_case.
  repeat match goal with
         | E : Ascii.eqb opt _ = false |- _ => rewrite E; clear E
         end.
  apply errorf_eq.
Qed.

(** X10: an option character without a [case] in the [switch] falls to
    [default]: one message, exit status 255, no system call.  The option
    string lets [getopt] accept [-r] with an argument and [-Z], and
    [getopt] hands out ['?'] for what it does not know; none of the three
    has a [case].  In a run the system calls are then those of the prologue
    and of the options before it, and the target binary is never reached. *)
Theorem X10_an_option_without_a_case_ends_the_run
    kernel uid gid args before opt optarg after operands :
  getopt_all args = (before ++ (opt, optarg) :: after, operands) ->
  handled opt = false ->
  let earlier :=
    (prologue kernel ;; option_loop kernel uid gid before initial) [] in
  (forall l h,
      option_case kernel uid gid l (opt, optarg) h =
      ([Stderr ("option " ++ String opt EmptyString ++ " unknown")],
       Stop (Exited 255))) /\
  calls (fst (run kernel uid gid args)) = calls (fst earlier) /\
  snd (run kernel uid gid args) =
    match snd earlier with
    | Ret _ => Stop (Exited 255)
    | Stop s => Stop s
    end /\
  snd (run kernel uid gid args) <> Stop Replaced.
Proof.
  intros Hopts Hun earlier. split.
  - intros l h. apply option_case_unhandled; assumption.
  - apply (run_stops_at kernel uid gid args before (opt, optarg) after
                        operands Hopts).
    intros l h. eexists. apply option_case_unhandled; assumption.
Qed.

(** The theorem at [mkbox -s /srv/sandbox -r /lib -Z /bin/sh]: the run
    ends at [-r]. *)
Lemma X10_option_r_witness :
  handled "r" = false /\ handled "Z" = false /\ handled "?" = false /\
  snd (run friendly 1000 1000
           ["-s"; "/srv/sandbox"; "-r"; "/lib"; "-Z"; "/bin/sh"])
  = Stop (Exited 255).
Proof.
  repeat (split; [reflexivity|]).
  exact (proj1 (proj2 (proj2 (X10_an_option_without_a_case_ends_the_run
                         friendly 1000 1000
                         ["-s"; "/srv/sandbox"; "-r"; "/lib"; "-Z"; "/bin/sh"]
                         [("s"%char, "/srv/sandbox")] "r"%char "/lib"
                         [("Z"%char, "")] ["/bin/sh"] eq_refl eq_refl)))).
Defined.

Lemma option_case_settles kernel uid gid l o :
  sat option_call (fun l' => l' = settle l o) (fun _ => True)
      (option_case kernel uid gid l o).
Proof.
  destruct o as [opt optarg]. unfold option_case, settle.
  destruct (Ascii.eqb opt "q"); [apply sat_ret; reflexivity|].
  destruct (Ascii.eqb_spec opt "s") as [->|_].
  { unfold opt_s.
    repeat (apply sat_bind with (R1 := any); [sat_steps|]; intros ? _).
    apply sat_ret; reflexivity. }
  destruct (Ascii.eqb_spec opt "B") as [->|_]; [apply sat_ret; reflexivity|].
  destruct (Ascii.eqb_spec opt "b") as [->|_].
  { eapply sat_weaken;
      [apply (opt_b_sat kernel (fun _ => True) I); right; exact I| | |];
      auto. }
  destruct (Ascii.eqb_spec opt "t") as [->|_].
  { eapply sat_weaken;
      [apply (opt_t_sat kernel (fun _ => True) I); right; exact I| | |];
      auto. }
  destruct (Ascii.eqb_spec opt "u") as [->|_].
  { eapply sat_weaken; [apply (opt_u_sat kernel (fun _ => True) I)| | |];
      auto. }
  destruct (Ascii.eqb_spec opt "g") as [->|_].
  { eapply sat_weaken; [apply (opt_g_sat kernel (fun _ => True) I)| | |];
      auto. }
  destruct (Ascii.eqb_spec opt "d") as [->|_]; [apply sat_ret; reflexivity|].
  destruct (Ascii.eqb opt "D"); [|sat_steps].
  apply sat_bind with (R1 := any);
    [apply (recursive_mkdir_sat kernel (fun _ => True) I); right; exact I|].
  intros; apply sat_ret; reflexivity.
Qed.

Lemma option_loop_settles kernel uid gid opts : forall l,
  sat option_call (fun l' => l' = fold_left settle opts l) (fun _ => True)
      (option_loop kernel uid gid opts l).
Proof.
  induction opts as [|o opts IH]; intros l; cbn [option_loop fold_left].
  - apply sat_ret; reflexivity.
  - eapply sat_bind; [apply option_case_settles|].
    intros l' ->. apply IH.
Qed.

Lemma settled_locals opts : forall l,
  verbose (fold_left settle opts l) = verbose l && negb (mentions "q" opts) /\
  root_set (fold_left settle opts l) = root_set l || mentions "s" opts /\
  binary (fold_left settle opts l) = last_optarg "B" opts (binary l) /\
  child_dir (fold_left settle opts l) = last_optarg "d" opts (child_dir l).
Proof.
  unfold mentions, last_optarg.
  induction opts as [|[opt optarg] opts IH]; intros l;
    cbn [fold_left existsb fst snd].
  - rewrite andb_true_r, orb_false_r. auto.
  - destruct (IH (settle l (opt, optarg))) as (-> & -> & -> & ->).
    unfold settle.
    destruct (Ascii.eqb_spec opt "q") as [->|Hq].
    { cbn. rewrite andb_false_r. auto. }
    destruct (Ascii.eqb_spec opt "s") as [->|Hs].
    { cbn. rewrite orb_true_r. auto. }
    destruct (Ascii.eqb_spec opt "B") as [->|HB]; [cbn; auto|].
    destruct (Ascii.eqb_spec opt "d") as [->|Hd]; [cbn; auto|].
    cbn. auto.
Qed.

(** X12: what the option loop leaves in the locals when it returns.
    [verbose] is off as soon as a [-q] was among the options, [root_set] is
    on as soon as a [-s] was, [binary] and [child_dir] hold the argument of
    the last [-B] and of the last [-d]; no other option touches them. *)
Theorem X12_the_locals_after_the_options kernel uid gid opts l h l' :
  snd (option_loop kernel uid gid opts l h) = Ret l' ->
  verbose l' = verbose l && negb (mentions "q" opts) /\
  root_set l' = root_set l || mentions "s" opts /\
  binary l' = last_optarg "B" opts (binary l) /\
  child_dir l' = last_optarg "d" opts (child_dir l).
Proof.
  intros Hret.
  destruct (option_loop_settles kernel uid gid opts l h) as [_ Hl].
  rewrite Hret in Hl. subst l'. apply settled_locals.
Qed.

(** The theorem at the options of
    [mkbox -B /bin/true -q -d /tmp -B /bin/sh]. *)
Lemma X12_locals_witness :
  snd (option_loop friendly 1000 1000
         [("B"%char, "/bin/true"); ("q"%char, ""); ("d"%char, "/tmp");
          ("B"%char, "/bin/sh")] initial [])
  = Ret {| verbose := false; root_set := false;
           child_dir := Some "/tmp"; binary := Some "/bin/sh" |} /\
  binary {| verbose := false; root_set := false;
            child_dir := Some "/tmp"; binary := Some "/bin/sh" |}
  = Some "/bin/sh".
Proof.
  assert (H : snd (option_loop friendly 1000 1000
                     [("B"%char, "/bin/true"); ("q"%char, "");
                      ("d"%char, "/tmp"); ("B"%char, "/bin/sh")] initial [])
              = Ret {| verbose := false; root_set := false;
                       child_dir := Some "/tmp"; binary := Some "/bin/sh" |})
    by reflexivity.
  split; [exact H|].
  exact (proj1 (proj2 (proj2 (X12_the_locals_after_the_options
                                friendly 1000 1000 _ _ _ _ H)))).
Defined.

Lemma handoff_replaced_with kernel l operands h es :
  handoff kernel l operands h = (es, Stop Replaced) ->
  calls es =
    match child_dir l with
    | Some d => [Chdir d]
    | None => []
    end ++
    [dropcaps;
     Execv match binary l with
           | Some b => Some b
           | None => hd_error operands
           end operands].
Proof.
  unfold handoff. intros H.
  apply bind_inv in H.
  destruct H as [(s & Hc & Hs)|(es1 & [] & es2 & Hc & H & ->)].
  { inversion Hs; subst. exfalso.
    destruct (child_dir l); [|discriminate].
    step_ok Hc. discriminate. }
  assert (Hchdir : calls es1 = match child_dir l with
                               | Some d => [Chdir d]
                               | None => []
                               end).
  { destruct (child_dir l) as [d|].
    - step_ok Hc. inversion Hc; subst. reflexivity.
    - inversion Hc; subst. reflexivity. }
  step_ok H. rewrite execv_checked in H. cbv zeta in H.
  destruct (ret _ <? 0); [discriminate|].
  inversion H; subst. rewrite calls_app, Hchdir. reflexivity.
Qed.

(** X13: what a run hands over to.  When the process is replaced, a [-s]
    was among the options, and the system calls end with the six of the
    root transition, a [chdir] to the argument of the last [-d] if there
    was one, the [capset] that drops every capability, and the [execv]: of
    the argument of the last [-B] when there was one, else of the first
    operand, in both cases with all the operands as [argv]. *)
Theorem X13_the_run_hands_over_to_the_chosen_binary kernel uid gid args :
  snd (run kernel uid gid args) = Stop Replaced ->
  mentions "s" (fst (getopt_all args)) = true /\
  exists before,
    calls (fst (run kernel uid gid args)) =
      before ++ pivot_calls ++
      match last_optarg "d" (fst (getopt_all args)) None with
      | Some d => [Chdir d]
      | None => []
      end ++
      [dropcaps;
       Execv match last_optarg "B" (fst (getopt_all args)) None with
             | Some b => Some b
             | None => hd_error (snd (getopt_all args))
             end (snd (getopt_all args))].
Proof.
  intros Hrep.
  unfold run in *. destruct (main kernel uid gid args []) as [es o] eqn:Hrun.
  simpl in Hrep. subst o. cbn [fst]. unfold main in Hrun.
  apply bind_inv in Hrun.
  destruct Hrun as [(s & Hp & Hs)|(es1 & [] & es2 & Hp & Hrun & ->)].
  { inversion Hs; subst.
    destruct (sat_run _ _ _ _ _ _ _
                (prologue_sat kernel (fun s => s <> Replaced)
                              ltac:(discriminate)) Hp) as [_ Habs].
    congruence. }
  destruct (getopt_all args) as [opts operands]. cbn [fst snd].
  apply bind_inv in Hrun.
  assert (Hloop := option_loop_sat kernel (fun s => s <> Replaced)
                     ltac:(discriminate) uid gid opts initial
                     ltac:(apply Forall_forall; intros; right; discriminate)).
  destruct Hrun as [(s & Ho & Hs)|(es3 & l & es4 & Ho & Hrun & ->)].
  { inversion Hs; subst.
    destruct (sat_run _ _ _ _ _ _ _ Hloop Ho) as [_ Habs]. congruence. }
  destruct (sat_run _ _ _ _ _ _ _
              (option_loop_settles kernel uid gid opts initial) Ho)
    as [_ Hl].
  destruct (settled_locals opts initial) as (_ & Hroot & Hbin & Hdir).
  rewrite <- Hl in Hroot, Hbin, Hdir. cbn in Hroot, Hbin, Hdir. clear Hl.
  apply bind_inv in Hrun.
  destruct Hrun as [(s & Hc & Hs)|(es5 & [] & es6 & Hc & Hrun & ->)].
  { inversion Hs; subst. destruct (root_set l); discriminate. }
  assert (Hset : root_set l = true)
    by (destruct (root_set l); [reflexivity | discriminate]).
  assert (es5 = []) as ->
    by (rewrite Hset in Hc; inversion Hc; reflexivity).
  apply bind_inv in Hrun.
  destruct Hrun as [(s & Hv & Hs)|(es7 & [] & es8 & Hv & Hrun & ->)].
  { inversion Hs; subst.
    destruct (sat_run _ _ _ _ _ _ _
                (pivot_sat kernel (fun s => s <> Replaced)
                           ltac:(discriminate)) Hv) as [_ Habs].
    congruence. }
  apply pivot_ret in Hv.
  apply handoff_replaced_with in Hrun.
  split; [congruence|].
  exists (calls es1 ++ calls es3).
  rewrite !calls_app. simpl. rewrite Hv, Hrun, Hbin, Hdir.
  rewrite <- !app_assoc. reflexivity.
Qed.

(** The theorem at [mkbox -s /srv/sandbox -B /bin/busybox -d /tmp sh -c ls]:
    [/bin/busybox] is run as [sh -c ls] from [/tmp]. *)
Lemma X13_busybox_witness :
  snd (run friendly 1000 1000
           ["-s"; "/srv/sandbox"; "-B"; "/bin/busybox"; "-d"; "/tmp";
            "sh"; "-c"; "ls"]) = Stop Replaced /\
  exists before,
    calls (fst (run friendly 1000 1000
                    ["-s"; "/srv/sandbox"; "-B"; "/bin/busybox"; "-d"; "/tmp";
                     "sh"; "-c"; "ls"])) =
      before ++ pivot_calls ++
      [Chdir "/tmp"; dropcaps;
       Execv (Some "/bin/busybox") ["sh"; "-c"; "ls"]].
Proof.
  assert (H : snd (run friendly 1000 1000
                       ["-s"; "/srv/sandbox"; "-B"; "/bin/busybox";
                        "-d"; "/tmp"; "sh"; "-c"; "ls"]) = Stop Replaced)
    by (vm_compute; reflexivity).
  split; [exact H|].
  exact (proj2 (X13_the_run_hands_over_to_the_chosen_binary
                  friendly 1000 1000
                  ["-s"; "/srv/sandbox"; "-B"; "/bin/busybox"; "-d"; "/tmp";
                   "sh"; "-c"; "ls"] H)).
Defined.

(* ------------------------------------------------------------------ *)
(** ** The arguments of [-u] and [-g] *)

Lemma scan_digits_seen s : forall acc, scan_digits s acc true <> None.
Proof.
  induction s as [|c s IH]; intros acc; cbn [scan_digits]; [discriminate|].
  destruct (digit_of c); [apply IH | discriminate].
Qed.

Lemma scan_digits_none s acc :
  no_digit_first s -> scan_digits s acc false = None.
Proof.
  destruct s as [|c s]; cbn [scan_digits no_digit_first]; [reflexivity|].
  intros ->. reflexivity.
Qed.

Lemma sscanf_d_unsigned c rest :
  Ascii.eqb c "-" || Ascii.eqb c "+" = false ->
  match String c rest with
  | String "-" s' =>
      option_map (fun v => to_int (to_long (- v))) (scan_digits s' 0 false)
  | String "+" s' =>
      option_map (fun v => to_int (to_long v)) (scan_digits s' 0 false)
  | s' => option_map (fun v => to_int (to_long v)) (scan_digits s' 0 false)
  end =
  option_map (fun v => to_int (to_long v))
             (scan_digits (String c rest) 0 false).
Proof.
  destruct c as [[] [] [] [] [] [] [] []]; cbn; intros H;
    solve [reflexivity | discriminate H].
Qed.

Lemma sscanf_d_no_number s : no_number s -> sscanf_d s = None.
Proof.
  unfold no_number, sscanf_d. destruct (skip_space s) as [|c rest].
  - reflexivity.
  - destruct (Ascii.eqb_spec c "-") as [->|Hm].
    { cbn. intros H. rewrite scan_digits_none by assumption. reflexivity. }
    destruct (Ascii.eqb_spec c "+") as [->|Hp].
    { cbn. intros H. rewrite scan_digits_none by assumption. reflexivity. }
    cbn [orb]. intros H. rewrite sscanf_d_unsigned.
    + cbn [scan_digits]. rewrite H. reflexivity.
    + apply orb_false_intro; apply Ascii.eqb_neq; assumption.
Qed.

(** X14: an argument of [-u] or [-g] that does not start a number (after
    white space and one optional sign there is no digit) is turned down
    with a message and exit status 255.  [case 'u'] has made no system call
    by then; [case 'g'] has already been through the guard file
    [/proc/self/setgroups], which it opens, and writes when the descriptor
    is above 0, before it reads its argument. *)
Theorem X14_an_id_that_is_no_number kernel uid gid l optarg h :
  no_number optarg ->
  opt_u kernel uid l optarg h =
    ([Stderr ("could not parse " ++ optarg)], Stop (Exited 255)) /\
  opt_g kernel gid l optarg h =
    match deny_setgroups kernel h with
    | (es, Ret _) =>
        (es ++ [Stderr ("could not parse " ++ optarg)], Stop (Exited 255))
    | (es, Stop s) => (es, Stop s)
    end /\
  In open_setgroups (calls (fst (opt_g kernel gid l optarg h))).
Proof.
  intros Hno. apply sscanf_d_no_number in Hno.
  assert (Hg : opt_g kernel gid l optarg h =
               match deny_setgroups kernel h with
               | (es, Ret _) =>
                   (es ++ [Stderr ("could not parse " ++ optarg)],
                    Stop (Exited 255))
               | (es, Stop s) => (es, Stop s)
               end).
  { unfold opt_g, write_gid_map. rewrite Hno. unfold bind at 1.
    destruct (deny_setgroups kernel h) as [es [[]|s]]; [|reflexivity].
    unfold bind. rewrite errorf_eq. reflexivity. }
  split; [|split; [exact Hg|]].
  - unfold opt_u. rewrite Hno. apply errorf_eq.
  - rewrite Hg. unfold deny_setgroups. rewrite bind_sys_eq. cbv zeta.
    destruct (when _ _ _) as [es [[]|s]]; cbn [fst calls]; left; reflexivity.
Qed.

(** The theorem at [-g staff]. *)
Lemma X14_group_name_witness :
  no_number "staff" /\
  calls (fst (opt_g friendly 1000 initial "staff" [])) =
    [open_setgroups; Write 3 "deny" 4; Close 3] /\
  snd (opt_g friendly 1000 initial "staff" []) = Stop (Exited 255).
Proof.
  assert (H : no_number "staff") by reflexivity.
  split; [exact H|].
  rewrite (proj1 (proj2 (X14_an_id_that_is_no_number
                           friendly 1000 1000 initial "staff" [] H))).
  split; reflexivity.
Defined.

Lemma scan_digits_junk junk acc :
  no_digit_first junk -> scan_digits junk acc true = Some acc.
Proof.
  destruct junk as [|c junk]; cbn [scan_digits no_digit_first];
    [reflexivity|].
  intros ->. reflexivity.
Qed.

Lemma scan_digits_acc_junk junk d :
  no_digit_first junk -> forall p,
  scan_digits (NilEmpty.string_of_uint d ++ junk) (Z.pos p) true =
    Some (Z.pos (Pos.of_uint_acc d p)).
Proof.
  intros Hjunk.
  induction d as [|d IH|d IH|d IH|d IH|d IH|d IH|d IH|d IH|d IH|d IH];
    intros p;
    cbn [NilEmpty.string_of_uint Pos.of_uint_acc scan_digits append];
    [apply scan_digits_junk; assumption|..];
    match goal with
    | |- context [digit_of ?c] =>
        change (digit_of c) with (Some (Z.of_nat (nat_of_ascii c) - 48))
    end; cbv iota; rewrite <- IH; f_equal; simpl Z.sub; lia.
Qed.

Lemma scan_digits_uint_junk junk d :
  no_digit_first junk -> forall seen,
  d <> Decimal.Nil \/ seen = true ->
  scan_digits (NilEmpty.string_of_uint d ++ junk) 0 seen =
    Some (Z.of_N (Pos.of_uint d)).
Proof.
  intros Hjunk.
  induction d as [|d IH|d IH|d IH|d IH|d IH|d IH|d IH|d IH|d IH|d IH];
    intros seen Hseen;
    cbn [NilEmpty.string_of_uint Pos.of_uint scan_digits append].
  - destruct Hseen as [H| ->]; [contradiction|].
    apply scan_digits_junk; assumption.
  - change (digit_of "0") with (Some 0). cbv iota.
    apply IH. right. reflexivity.
  - change (digit_of "1") with (Some 1). cbv iota.
    apply scan_digits_acc_junk; assumption.
  - change (digit_of "2") with (Some 2). cbv iota.
    apply scan_digits_acc_junk; assumption.
  - change (digit_of "3") with (Some 3). cbv iota.
    apply scan_digits_acc_junk; assumption.
  - change (digit_of "4") with (Some 4). cbv iota.
    apply scan_digits_acc_junk; assumption.
  - change (digit_of "5") with (Some 5). cbv iota.
    apply scan_digits_acc_junk; assumption.
  - change (digit_of "6") with (Some 6). cbv iota.
    apply scan_digits_acc_junk; assumption.
  - change (digit_of "7") with (Some 7). cbv iota.
    apply scan_digits_acc_junk; assumption.
  - change (digit_of "8") with (Some 8). cbv iota.
    apply scan_digits_acc_junk; assumption.
  - change (digit_of "9") with (Some 9). cbv iota.
    apply scan_digits_acc_junk; assumption.
Qed.

(** What [%d] prints for an [int], [%d] reads back, whatever follows it
    that is not a digit. *)
Lemma sscanf_d_decimal_junk u junk :
  is_int u -> no_digit_first junk -> sscanf_d (decimal u ++ junk) = Some u.
Proof.
  unfold is_int. intros Hu Hjunk. unfold decimal.
  destruct u as [|p|p]; cbn [Z.to_int NilZero.string_of_int].
  - assert (Hnil : Decimal.D0 Decimal.Nil <> Decimal.Nil) by discriminate.
    assert (Hscan := scan_digits_uint_junk junk (Decimal.D0 Decimal.Nil)
                       Hjunk false (or_introl Hnil)).
    cbn [NilEmpty.string_of_uint append] in Hscan.
    unfold sscanf_d.
    change (NilZero.string_of_uint (Decimal.D0 Decimal.Nil) ++ junk)%string
      with (String "0" junk).
    cbn [skip_space]. change (isspace "0") with false. cbv iota.
    rewrite Hscan. reflexivity.
  - unfold NilZero.string_of_uint.
    pose proof (DecimalPos.Unsigned.to_uint_nonnil p) as Hnil.
    assert (Hscan := scan_digits_uint_junk junk (Pos.to_uint p) Hjunk false
                       (or_introl Hnil)).
    rewrite DecimalPos.Unsigned.of_to in Hscan. simpl Z.of_N in Hscan.
    destruct (Pos.to_uint p) eqn:Hd; [contradiction|..];
      unfold sscanf_d; cbn [NilEmpty.string_of_uint append skip_space];
      match goal with
      | |- context [isspace ?c] => change (isspace c) with false
      end; cbv iota; cbn [NilEmpty.string_of_uint append] in Hscan;
      rewrite Hscan; cbn [option_map];
      rewrite to_long_small by lia; rewrite to_int_small by lia; reflexivity.
  - unfold NilZero.string_of_uint.
    pose proof (DecimalPos.Unsigned.to_uint_nonnil p) as Hnil.
    assert (Hscan := scan_digits_uint_junk junk (Pos.to_uint p) Hjunk false
                       (or_introl Hnil)).
    rewrite DecimalPos.Unsigned.of_to in Hscan. simpl Z.of_N in Hscan.
    destruct (Pos.to_uint p) eqn:Hd; [contradiction|..];
      unfold sscanf_d; cbn [append skip_space];
      change (isspace "-") with false; cbv iota;
      rewrite Hscan; cbn [option_map];
      change (- Z.pos p) with (Z.neg p);
      rewrite to_long_small by lia; rewrite to_int_small by lia; reflexivity.
Qed.

Ltac granted Hfine :=
  repeat first
    [ rewrite bind_assoc
    | rewrite bind_ret_eq
    | rewrite bind_ok_eq; cbv zeta;
      match goal with
      | |- context [0 <=? ret (?k ?hh ?c)] =>
          destruct (Z.leb_spec 0 (ret (k hh c))) as [_|Hneg];
          [|specialize (Hfine hh c); lia]
      end; cbn [fst snd calls app] ].

(** X15: [-u] with the decimal form of an [int] [u], followed by anything
    that does not start with a digit, on a kernel that grants every call:
    the line [map_line u uid] goes to [/proc/self/uid_map] in one [write]
    of its full length, the descriptor is closed, and the three uids are
    set to [u] as a [uid_t]; the locals are unchanged.  What follows the
    digits is not looked at, and a negative [u] wraps: [-u -1] asks for
    [setresuid(-1, -1, -1)], which is 4294967295 three times.  When the
    real uid is below 2^31 the line is [u uid 1] in decimal. *)
Theorem X15_the_uid_option_writes_the_map_then_sets_the_uids
    kernel uid l u junk h :
  is_int u -> no_digit_first junk ->
  (forall h' c, 0 <= ret (kernel h' c)) ->
  (exists fd,
      calls (fst (opt_u kernel uid l (decimal u ++ junk) h)) =
        [ Open "/proc/self/uid_map" K.O_WRONLY None;
          Write fd (map_line u uid) (strlen (map_line u uid));
          Close fd;
          Setresuid (u mod 2 ^ 32) (u mod 2 ^ 32) (u mod 2 ^ 32) ]) /\
  snd (opt_u kernel uid l (decimal u ++ junk) h) = Ret l /\
  (0 <= uid < 2 ^ 31 ->
   map_line u uid = (decimal u ++ " " ++ decimal uid ++ " 1" ++ nl)%string).
Proof.
  intros Hu Hjunk Hfine.
  assert (Hline : 0 <= uid < 2 ^ 31 ->
            map_line u uid =
            (decimal u ++ " " ++ decimal uid ++ " 1" ++ nl)%string).
  { intros Hr. unfold map_line, fmt_d. unfold is_int in Hu.
    rewrite !to_int_small by lia. reflexivity. }
  unfold opt_u. rewrite sscanf_d_decimal_junk by assumption.
  cbv zeta. unfold to_uid.
  split; [|split; [|exact Hline]].
  - exists (ret (kernel h (Open "/proc/self/uid_map" K.O_WRONLY None))).
    granted Hfine. reflexivity.
  - granted Hfine. reflexivity.
Qed.

(** The theorem at [-u -1]. *)
Lemma X15_minus_one_witness :
  is_int (-1) /\ no_digit_first "" /\
  calls (fst (opt_u settled 1000 initial "-1" [])) =
    [ Open "/proc/self/uid_map" K.O_WRONLY None;
      Write 3 ("-1 1000 1" ++ nl)%string 10;
      Close 3;
      Setresuid 4294967295 4294967295 4294967295 ] /\
  snd (opt_u settled 1000 initial "-1" []) = Ret initial.
Proof.
  assert (H1 : is_int (-1)) by (unfold is_int; lia).
  assert (H2 : no_digit_first "") by exact I.
  assert (H3 : forall h' c, 0 <= ret (settled h' c))
    by (intros h' c; destruct c; cbn; lia).
  split; [exact H1|]. split; [exact H2|].
  split; [reflexivity|].
  exact (proj1 (proj2 (X15_the_uid_option_writes_the_map_then_sets_the_uids
                         settled 1000 initial (-1) "" [] H1 H2 H3))).
Defined.

(** X16: [-g] with the decimal form of an [int] [g], followed by anything
    that does not start with a digit, on a kernel that grants every call.
    The guard file [/proc/self/setgroups] is opened first; [deny] is
    written to it, and it is closed, only when the descriptor is above 0: a
    descriptor 0 is left open and unwritten.  Then the line
    [map_line g gid] goes to [/proc/self/gid_map] in one [write] of its
    full length, that descriptor is closed, and the three gids are set to
    [g] as a [gid_t]; the locals are unchanged. *)
Theorem X16_the_gid_option_denies_setgroups_then_maps
    kernel gid l g junk h :
  is_int g -> no_digit_first junk ->
  (forall h' c, 0 <= ret (kernel h' c)) ->
  let guard := ret (kernel h open_setgroups) in
  (exists fd,
      calls (fst (opt_g kernel gid l (decimal g ++ junk) h)) =
        open_setgroups ::
        (if 0 <? guard then [Write guard "deny" 4; Close guard] else []) ++
        [ Open "/proc/self/gid_map" K.O_WRONLY None;
          Write fd (map_line g gid) (strlen (map_line g gid));
          Close fd;
          Setresgid (g mod 2 ^ 32) (g mod 2 ^ 32) (g mod 2 ^ 32) ]) /\
  snd (opt_g kernel gid l (decimal g ++ junk) h) = Ret l.
Proof.
  intros Hg Hjunk Hfine guard.
  unfold opt_g, deny_setgroups, write_gid_map.
  rewrite sscanf_d_decimal_junk by assumption.
  cbv zeta. unfold to_uid.
  rewrite !bind_assoc. rewrite bind_sys_eq. cbv zeta.
  fold open_setgroups. fold guard. cbn [fst snd calls].
  destruct (0 <? guard); cbn [when].
  - split.
    + granted Hfine. eexists. reflexivity.
    + granted Hfine. reflexivity.
  - split.
    + granted Hfine. eexists. reflexivity.
    + granted Hfine. reflexivity.
Qed.

(** The theorem at [-g 100], the guard file opening as descriptor 3. *)
Lemma X16_gid_witness :
  is_int 100 /\ no_digit_first "" /\
  calls (fst (opt_g settled 1000 initial "100" [])) =
    [ open_setgroups; Write 3 "deny" 4; Close 3;
      Open "/proc/self/gid_map" K.O_WRONLY None;
      Write 3 ("100 1000 1" ++ nl)%string 11;
      Close 3;
      Setresgid 100 100 100 ] /\
  snd (opt_g settled 1000 initial "100" []) = Ret initial.
Proof.
  assert (H1 : is_int 100) by (unfold is_int; lia).
  assert (H2 : no_digit_first "") by exact I.
  assert (H3 : forall h' c, 0 <= ret (settled h' c))
    by (intros h' c; destruct c; cbn; lia).
  split; [exact H1|]. split; [exact H2|].
  split; [reflexivity|].
  exact (proj2 (X16_the_gid_option_denies_setgroups_then_maps
                  settled 1000 initial 100 "" [] H1 H2 H3)).
Defined.

(* ------------------------------------------------------------------ *)
(** ** What a run can ask of the kernel *)

Ltac shapes :=
  repeat match goal with
         | H : main_call _ |- _ => inversion H; clear H; subst
         | H : early_call _ |- _ => inversion H; clear H; subst
         | H : option_call _ |- _ => inversion H; clear H; subst
         | H : mkdir_call _ |- _ => inversion H; clear H; subst
         end.

(** X18: every [mount] of a run, whatever the command line and the kernel,
    is one of five: the old root made private; the sandbox root bound onto
    itself with MS_BIND|MS_NOSUID; a bind mount of a rule, with
    MS_REC|MS_BIND for a directory and MS_BIND for a file; a tmpfs named
    [sandbox-tmp] with the fixed flags and quota; the final remount of [/].
    No other file system type, flag set or mount data occurs. *)
Theorem X18_the_mounts_of_a_run
    kernel uid gid args source target fstype flags data :
  In (Mount source target fstype flags data)
     (calls (fst (run kernel uid gid args))) ->
  (source = "none" /\ target = "/" /\ fstype = None /\
   flags = Z.lor K.MS_REC K.MS_PRIVATE /\ data = None) \/
  (source = target /\ fstype = None /\
   flags = Z.lor K.MS_BIND K.MS_NOSUID /\ data = None) \/
  (fstype = None /\
   (flags = Z.lor K.MS_REC K.MS_BIND \/ flags = K.MS_BIND) /\ data = None) \/
  (source = "sandbox-tmp" /\ fstype = Some "tmpfs" /\
   flags = tmpfs_flags /\ data = Some tmpfs_data) \/
  (source = "/" /\ target = "/" /\ fstype = None /\
   flags = remount_flags /\ data = None).
Proof.
  intros Hin.
  destruct (main_sat kernel uid gid args []) as [Hall _].
  rewrite Forall_forall in Hall. specialize (Hall _ Hin).
  shapes; tauto.
Qed.

(** The theorem at the tmpfs of [mkbox -s /srv/sandbox -t tmp /bin/sh]. *)
Lemma X18_tmpfs_witness :
  In (Mount "sandbox-tmp" "tmp" (Some "tmpfs") tmpfs_flags (Some tmpfs_data))
     (calls (fst (run friendly 1000 1000
                      ["-s"; "/srv/sandbox"; "-t"; "tmp"; "/bin/sh"]))) /\
  tmpfs_data = "size=16m,nr_inodes=16k,mode=755".
Proof.
  assert (H : In (Mount "sandbox-tmp" "tmp" (Some "tmpfs") tmpfs_flags
                        (Some tmpfs_data))
                 (calls (fst (run friendly 1000 1000
                                  ["-s"; "/srv/sandbox"; "-t"; "tmp";
                                   "/bin/sh"]))))
    by (vm_compute; tauto).
  split; [exact H|].
  destruct (X18_the_mounts_of_a_run friendly 1000 1000 _ _ _ _ _ _ H)
    as [(_ & _ & Hfs & _)|[(_ & Hfs & _)|[(Hfs & _)|[(_ & _ & _ & Hd)|
        (_ & _ & Hfs & _)]]]];
    try discriminate Hfs.
  reflexivity.
Defined.

(** X19: the arguments of the other system calls of a run, whatever the
    command line and the kernel.  Every [mkdir] has mode 0755.  An [open]
    is either of one of the three files under [/proc/self], write-only and
    without O_CREAT, or a write-only O_CREAT with mode 0666.  Every [write]
    is of the full length of its buffer.  [setresuid] and [setresgid] set
    the three ids to one value.  [prctl], [unshare], [setdomainname],
    [sethostname], [pivot_root], [chroot], [umount2], [rmdir] and [capset]
    only occur with the arguments of the prologue, of the root transition
    and of [dropcaps]. *)
Theorem X19_the_arguments_of_the_other_calls kernel uid gid args c :
  In c (calls (fst (run kernel uid gid args))) -> expected_shape c.
Proof.
  intros Hin.
  destruct (main_sat kernel uid gid args []) as [Hall _].
  rewrite Forall_forall in Hall. specialize (Hall _ Hin).
  shapes; cbn; tauto.
Qed.

(** The theorem at the [mkdir] of
    [mkbox -s /srv/sandbox -D var/empty /bin/sh]. *)
Lemma X19_mkdir_witness :
  In (Mkdir "var/empty" 493)
     (calls (fst (run friendly 1000 1000
                      ["-s"; "/srv/sandbox"; "-D"; "var/empty"; "/bin/sh"]))) /\
  expected_shape (Mkdir "var/empty" 493).
Proof.
  assert (H : In (Mkdir "var/empty" 493)
                 (calls (fst (run friendly 1000 1000
                                  ["-s"; "/srv/sandbox"; "-D"; "var/empty";
                                   "/bin/sh"]))))
    by (vm_compute; tauto).
  split; [exact H|].
  exact (X19_the_arguments_of_the_other_calls friendly 1000 1000 _ _ H).
Defined.

(* ------------------------------------------------------------------ *)
(** ** Silence *)

Lemma said_at_most_one {A} (m : M A) :
  (forall h, fst (m h) = [] \/
             exists e, fst (m h) = [e] /\
                       (printed e -> snd (m h) = Stop (Exited 255))) ->
  said printed m.
Proof.
  intros Hm h es1 e es2 Hes Hp.
  destruct (Hm h) as [Hnil|(e' & He & Hstop)].
  - rewrite Hes in Hnil. destruct es1; discriminate.
  - rewrite Hes in He.
    destruct es1 as [|x [|y es1]]; simpl in He; inversion He; subst.
    split; [reflexivity | auto].
Qed.

Lemma said_ret {A} (a : A) : said printed (ret_ a).
Proof. apply said_at_most_one. intros; left; reflexivity. Qed.

Lemma said_exit {A} code : said printed (@exit A code).
Proof. apply said_at_most_one. intros; left; reflexivity. Qed.

Lemma said_undefined {A} : said printed (@undefined A).
Proof. apply said_at_most_one. intros; left; reflexivity. Qed.

Lemma said_errorf {A} msg : said printed (@errorf A msg).
Proof.
  apply said_at_most_one. intros h; right. eexists; split; reflexivity.
Qed.

Lemma said_sys kernel c : said printed (sys kernel c).
Proof.
  apply said_at_most_one. intros h; right.
  eexists; split; [reflexivity|]. intros [].
Qed.

Lemma said_checkreturn a name arg : said printed (checkreturn a name arg).
Proof.
  apply said_at_most_one. intros h. unfold checkreturn.
  destruct (0 <=? ret a); [left; reflexivity|].
  right. eexists; split; reflexivity.
Qed.

Lemma said_bind_sat {A B} P (R : A -> Prop) S (m : M A) (f : A -> M B) :
  said printed m -> sat P R S m -> (forall a, R a -> said printed (f a)) ->
  said printed (bind m f).
Proof.
  intros Hm Hsat Hf h es1 e es2 Hes Hp. unfold bind in *.
  specialize (Hm h). destruct (Hsat h) as [_ HR].
  destruct (m h) as [es [x|s]]; simpl in *.
  - specialize (Hf x HR (h ++ es)).
    destruct (f x (h ++ es)) as [es' o]; simpl in *.
    apply app_eq_app in Hes. destruct Hes as [l [[H1 H2]|[H1 H2]]].
    + destruct l as [|e0 l].
      * simpl in H2. rewrite app_nil_r in H1. subst.
        apply (Hf [] e es2); auto.
      * inversion H2; subst.
        destruct (Hm es1 e0 l eq_refl Hp) as [_ Habs]. discriminate.
    + apply (Hf l e es2); auto.
  - destruct (Hm es1 e es2 Hes Hp) as [Hq Hs].
    split; [assumption | congruence].
Qed.

Lemma sat_any {A} (m : M A) :
  sat (fun _ => True) (@any A) (fun _ => True) m.
Proof.
  intros h. split.
  - apply Forall_forall. intros; exact I.
  - destruct (snd (m h)); exact I.
Qed.

Lemma said_bind {A B} (m : M A) (f : A -> M B) :
  said printed m -> (forall a, said printed (f a)) ->
  said printed (bind m f).
Proof.
  intros Hm Hf. eapply said_bind_sat; [exact Hm | apply sat_any |].
  intros a _. apply Hf.
Qed.

Lemma said_ok kernel name arg c : said printed (ok kernel name arg c).
Proof.
  unfold ok. apply said_bind; [apply said_sys|].
  intros a. apply said_checkreturn.
Qed.

Lemma said_execv {B} kernel b argv name arg (k : M B) :
  said printed (a <- execv kernel b argv ;; checkreturn a name arg ;; k).
Proof.
  intros h es1 e es2. rewrite execv_checked.
  destruct (ret (kernel h (Execv b argv)) <? 0); cbn [fst snd];
    intros Hes Hp.
  - destruct es1 as [|x [|y [|z es1]]]; simpl in Hes; inversion Hes; subst.
    + destruct Hp.
    + split; reflexivity.
  - destruct es1 as [|x [|y es1]]; simpl in Hes; inversion Hes; subst.
    destruct Hp.
Qed.

Ltac said_step :=
  lazymatch goal with
  | |- said _ (ret_ _) => apply said_ret
  | |- said _ (errorf _) => apply said_errorf
  | |- said _ (exit _) => apply said_exit
  | |- said _ (undefined) => apply said_undefined
  | |- said _ (ok _ _ _ _) => apply said_ok
  | |- said _ (sys _ _) => apply said_sys
  | |- said _ (when false _) => apply said_ret
  | |- said _ (bind _ _) => apply said_bind; [ | intros ? ]
  end.

Ltac said_steps := repeat said_step.

Section Quiet.

Variable kernel : os.

Lemma mkdir_loop_said dir mode fuel : forall end_,
  said printed (mkdir_loop kernel fuel dir mode end_).
Proof.
  induction fuel as [|fuel IH]; intros end_; cbn [mkdir_loop];
    [said_steps|].
  destruct (get end_ dir) as [_|]; [|said_steps].
  destruct (1024 <=? Z.of_nat (strchrnul dir (S end_) "/")); [said_steps|].
  apply said_bind; [said_steps|]. intros a.
  destruct ((0 <=? ret a) && negb (Z.land (st_mode a) K.S_IFDIR =? 0));
    [apply IH|].
  apply said_bind; [said_steps|]. intros r.
  destruct (ret r <? 0); [apply (@said_errorf unit) | apply IH].
Qed.

Lemma recursive_mkdir_said dir mode :
  said printed (recursive_mkdir kernel dir mode).
Proof. apply mkdir_loop_said. Qed.

Lemma option_case_said uid gid l o :
  verbose l = false -> said printed (option_case kernel uid gid l o).
Proof.
  intros Hq. destruct o as [opt optarg]. unfold option_case.
  destruct (Ascii.eqb opt "q"); [said_steps|].
  destruct (Ascii.eqb opt "s").
  { unfold opt_s. rewrite Hq. said_steps. }
  destruct (Ascii.eqb opt "B"); [said_steps|].
  destruct (Ascii.eqb opt "b").
  { unfold opt_b. destruct (strchr optarg "="); [|said_steps].
    destruct (match get _ optarg with Some c => _ | None => _ end);
      [said_steps|].
    unfold bind_mount. rewrite Hq. said_step; [said_steps|].
    said_step; [said_steps|]. said_step; [|said_steps].
    destruct (S_ISDIR _); [|said_steps].
    said_step; [said_steps|]. said_step; [|said_steps].
    destruct (ret _ <? 0); [apply recursive_mkdir_said | said_steps]. }
  destruct (Ascii.eqb opt "t").
  { unfold opt_t. rewrite Hq. said_step; [said_steps|].
    said_step; [said_steps|]. said_step; [|said_steps].
    destruct (ret _ <? 0); [apply recursive_mkdir_said | said_steps]. }
  destruct (Ascii.eqb opt "u").
  { unfold opt_u. destruct (sscanf_d optarg); said_steps. }
  destruct (Ascii.eqb opt "g").
  { unfold opt_g, deny_setgroups, write_gid_map.
    said_step.
    - said_step; [said_steps|]. destruct (0 <? ret _); cbn [when]; said_steps.
    - said_step; [|said_steps]. destruct (sscanf_d optarg); said_steps. }
  destruct (Ascii.eqb opt "d"); [said_steps|].
  destruct (Ascii.eqb opt "D"); [|said_steps].
  said_step; [apply recursive_mkdir_said | said_steps].
Qed.

Lemma settle_quiet l o : verbose l = false -> verbose (settle l o) = false.
Proof.
  intros Hq. destruct o as [opt optarg]. unfold settle.
  repeat match goal with
         | |- context [Ascii.eqb ?a ?b] => destruct (Ascii.eqb a b)
         end; cbn; auto.
Qed.

Lemma option_loop_said uid gid opts : forall l,
  verbose l = false -> said printed (option_loop kernel uid gid opts l).
Proof.
  induction opts as [|o opts IH]; intros l Hq; cbn [option_loop];
    [said_steps|].
  eapply said_bind_sat;
    [apply option_case_said; assumption | apply option_case_settles |].
  intros l' ->. apply IH. apply settle_quiet; assumption.
Qed.

Lemma main_said uid gid args opts operands :
  getopt_all args = (("q"%char, "") :: opts, operands) ->
  said printed (main kernel uid gid args).
Proof.
  intros Hargs. unfold main. rewrite Hargs.
  said_step; [unfold prologue; said_steps|].
  said_step.
  { cbn [option_loop].
    change (option_case kernel uid gid initial ("q"%char, ""))
      with (ret_ (A := locals)
                 {| verbose := false; root_set := root_set initial;
                    child_dir := child_dir initial;
                    binary := binary initial |}).
    apply said_bind_sat
      with (P := fun _ => True) (S := fun _ => True)
           (R := fun l' => verbose l' = false);
      [apply said_ret | apply sat_ret; reflexivity |].
    intros l' Hq. apply option_loop_said. assumption. }
  said_step; [destruct (root_set _); said_steps|].
  said_step; [unfold pivot; said_steps|].
  unfold handoff.
  said_step; [destruct (child_dir _); said_steps|].
  said_step; [said_steps|].
  apply said_execv.
Qed.

End Quiet.

(** X20: [-q] as the first option makes the run silent unless it fails.
    Whatever is written to [stderr] then, by [errorf], by [checkreturn] or
    by [recursive_mkdir], is followed by no system call, and the run ends
    with exit status 255: the messages [root dir:], [mount:] and [tmp:] of
    the options are not printed, and a run that is replaced by the target
    binary has printed nothing.  (What [getopt] itself prints is outside
    the trace.) *)
Theorem X20_quiet_runs_print_only_to_fail
    kernel uid gid args opts operands es1 e es2 :
  getopt_all args = (("q"%char, "") :: opts, operands) ->
  fst (run kernel uid gid args) = es1 ++ e :: es2 ->
  printed e ->
  calls es2 = [] /\
  snd (run kernel uid gid args) = Stop (Exited 255).
Proof.
  intros Hargs Hes Hp.
  exact (main_said kernel uid gid args opts operands Hargs [] es1 e es2
                   Hes Hp).
Qed.

(** The theorem at [mkbox -q /bin/sh], which lacks [-s]. *)
Lemma X20_quiet_witness :
  In (Stderr "-s option is mandatory")
     (fst (run friendly 1000 1000 ["-q"; "/bin/sh"])) /\
  snd (run friendly 1000 1000 ["-q"; "/bin/sh"]) = Stop (Exited 255).
Proof.
  split; [vm_compute; tauto|].
  exact (proj2 (X20_quiet_runs_print_only_to_fail
                  friendly 1000 1000 ["-q"; "/bin/sh"] [] ["/bin/sh"]
                  (firstn 4 (fst (run friendly 1000 1000 ["-q"; "/bin/sh"])))
                  (Stderr "-s option is mandatory") []
                  eq_refl eq_refl I)).
Defined.

(* ------------------------------------------------------------------ *)
(** ** The prologue *)

Lemma prologue_prefix kernel h :
  exists n,
    (1 <= n <= 4)%nat /\
    calls (fst (prologue kernel h)) = firstn n prologue_calls /\
    (snd (prologue kernel h) = Stop (Exited 255) \/
     (n = 4%nat /\ snd (prologue kernel h) = Ret tt)).
Proof.
  unfold prologue.
  rewrite bind_ok_eq; cbv zeta.
  destruct (0 <=? ret _);
    [|exists 1%nat; repeat split; try lia; left; reflexivity].
  rewrite bind_ok_eq; cbv zeta.
  destruct (0 <=? ret _);
    [|exists 2%nat; repeat split; try lia; left; reflexivity].
  rewrite bind_ok_eq; cbv zeta.
  destruct (0 <=? ret _);
    [|exists 3%nat; repeat split; try lia; left; reflexivity].
  rewrite bind_ok_eq; cbv zeta.
  destruct (0 <=? ret _);
    exists 4%nat; repeat split; try lia; [right | left]; auto.
Qed.

Lemma after_the_prologue kernel uid gid opts operands :
  sat (fun c => is_setup c = false) (@any unit) (fun _ => True)
      (l <- option_loop kernel uid gid opts initial ;;
       (if root_set l then ret_ tt else errorf "-s option is mandatory") ;;
       pivot kernel ;;
       handoff kernel l operands).
Proof.
  apply sat_bind with (R1 := any).
  { eapply sat_weaken;
      [apply (option_loop_sat kernel (fun _ => True) I uid gid opts initial)
      | | intros; exact I | auto].
    - apply Forall_forall. intros; right; exact I.
    - intros c Hc. shapes; reflexivity. }
  intros l _.
  apply sat_bind with (R1 := any); [destruct (root_set l); sat_steps|].
  intros _ _.
  apply sat_bind with (R1 := any); [unfold pivot; sat_steps|].
  intros _ _. unfold handoff.
  apply sat_bind with (R1 := any); [destruct (child_dir l); sat_steps|].
  intros _ _.
  apply sat_bind with (R1 := any); [sat_steps|]. intros _ _.
  apply sat_bind with (R1 := any);
    [apply sat_execv; [reflexivity | exact I]|].
  intros a _.
  apply sat_bind with (R1 := any);
    [apply sat_checkreturn; [exact I | intros; exact I]|].
  intros; sat_steps.
Qed.

(** X21: every run starts with the prologue, and goes through it once.
    The system calls of a run are the first [n] of [prctl], [unshare],
    [setdomainname], [sethostname], with [n] at least 1, followed by calls
    none of which is one of these four.  The run goes beyond the prologue
    only when all four were made; when it stops in the prologue, the exit
    status is 255.  So the process is in its new namespaces before the
    first option is looked at, and [unshare] is not called again. *)
Theorem X21_the_prologue_comes_first_and_once kernel uid gid args :
  exists n rest,
    (1 <= n <= 4)%nat /\
    calls (fst (run kernel uid gid args)) = firstn n prologue_calls ++ rest /\
    Forall (fun c => is_setup c = false) rest /\
    (rest <> [] -> n = 4%nat) /\
    ((n < 4)%nat -> snd (run kernel uid gid args) = Stop (Exited 255)).
Proof.
  unfold run, main.
  destruct (prologue_prefix kernel []) as (n & Hn & Hcalls & Hend).
  destruct (getopt_all args) as [opts operands].
  pose proof (after_the_prologue kernel uid gid opts operands) as Hrest.
  match goal with
  | |- context [bind (prologue kernel) ?f []] =>
      assert (Hrun : bind (prologue kernel) f [] =
                     match prologue kernel [] with
                     | (es, Ret _) => (es ++ fst (f tt ([] ++ es)),
                                       snd (f tt ([] ++ es)))
                     | (es, Stop s) => (es, Stop s)
                     end)
        by (unfold bind at 1;
            destruct (prologue kernel []) as [es0 [[]|?]];
            [destruct (f tt ([] ++ es0))|]; reflexivity);
      rewrite Hrun; clear Hrun
  end.
  cbv beta.
  destruct (prologue kernel []) as [es [[]|s]]; cbn [fst snd] in *.
  - destruct Hend as [Habs|[-> _]]; [discriminate|].
    destruct (Hrest ([] ++ es)) as [Hall _]. revert Hall.
    destruct (bind (option_loop kernel uid gid opts initial) _ ([] ++ es))
      as [es' o].
    cbn [fst snd]. intros Hall.
    exists 4%nat, (calls es'). rewrite calls_app, Hcalls.
    repeat split; try lia; auto.
  - destruct Hend as [Hs|[_ Habs]]; [|discriminate].
    exists n, []. rewrite app_nil_r.
    repeat split; try lia; auto. congruence.
Qed.

(* ------------------------------------------------------------------ *)
(** ** Capabilities and the target binary *)

Lemma bind_event_split {A B} (m : M A) (f : A -> M B) h es1 e es2 :
  fst (bind m f h) = es1 ++ e :: es2 ->
  In e (fst (m h)) \/
  exists a pre es1',
    m h = (pre, Ret a) /\ es1 = pre ++ es1' /\
    fst (f a (h ++ pre)) = es1' ++ e :: es2.
Proof.
  unfold bind. destruct (m h) as [es [a|s]]; cbn [fst].
  - destruct (f a (h ++ es)) as [es' o] eqn:Hf. cbn [fst]. intros Hes.
    apply app_eq_app in Hes. destruct Hes as [l [[H1 H2]|[H1 H2]]].
    + destruct l as [|e0 l].
      * simpl in H2. rewrite app_nil_r in H1. subst.
        right. exists a, es1, []. rewrite app_nil_r, Hf. auto.
      * inversion H2; subst. left. apply in_or_app. right. left. reflexivity.
    + right. exists a, es, l. subst. rewrite Hf. auto.
  - intros ->. left. apply in_or_app. right. left. reflexivity.
Qed.

Lemma no_call_in {A} P (R : A -> Prop) S (m : M A) h c a :
  sat P R S m -> In (Call c a) (fst (m h)) -> P c.
Proof.
  intros Hsat Hin. destruct (Hsat h) as [Hall _].
  rewrite Forall_forall in Hall. apply Hall.
  apply in_calls. exists a. assumption.
Qed.

Lemma handoff_execv kernel l operands h es1 b argv a es2 :
  fst (handoff kernel l operands h) = es1 ++ Call (Execv b argv) a :: es2 ->
  (exists es0 a', es1 = es0 ++ [Call dropcaps a'] /\ 0 <= ret a') /\
  calls es2 = [] /\ argv = operands.
Proof.
  unfold handoff. intros Hes.
  apply bind_event_split in Hes.
  destruct Hes as [Hin|(x & pre & es1' & Hpre & -> & Hes)].
  { exfalso.
    assert (Hsat : sat (fun c => is_execv c = false) (@any unit)
                       (fun _ => True)
                       match child_dir l with
                       | Some d => ok kernel "chdir" "child_dir" (Chdir d) ;;
                                   ret_ tt
                       | None => ret_ tt
                       end)
      by (destruct (child_dir l); sat_steps).
    pose proof (no_call_in _ _ _ _ _ _ _ Hsat Hin). discriminate. }
  rewrite bind_ok_eq in Hes. cbv zeta in Hes.
  destruct (Z.leb_spec 0 (ret (kernel (h ++ pre) dropcaps))) as [Hok|Hbad];
    cbn [fst snd] in Hes.
  - rewrite execv_checked in Hes. cbv zeta in Hes.
    destruct (ret _ <? 0); cbn [fst] in Hes.
    + destruct es1' as [|x1 [|x2 [|x3 [|x4 es1']]]]; simpl in Hes;
        inversion Hes; subst.
      split; [|split; reflexivity].
      exists pre. eexists. split; [reflexivity | exact Hok].
    + destruct es1' as [|x1 [|x2 [|x3 es1']]]; simpl in Hes;
        inversion Hes; subst.
      split; [|split; reflexivity].
      exists pre. eexists. split; [reflexivity | exact Hok].
  - destruct es1' as [|x1 [|x2 [|x3 es1']]]; simpl in Hes;
      inversion Hes.
Qed.

(** X22: the target binary is never started with capabilities.  In every
    run, an [execv] comes right after a [capset] that cleared every
    capability set and succeeded; it is the last system call of the run,
    and its [argv] is the operands of the command line. *)
Theorem X22_execv_comes_right_after_dropcaps
    kernel uid gid args es1 b argv a es2 :
  fst (run kernel uid gid args) = es1 ++ Call (Execv b argv) a :: es2 ->
  (exists es0 a', es1 = es0 ++ [Call dropcaps a'] /\ 0 <= ret a') /\
  calls es2 = [] /\ argv = snd (getopt_all args).
Proof.
  unfold run, main. intros Hes.
  apply bind_event_split in Hes.
  destruct Hes as [Hin|([] & pre1 & es & _ & -> & Hes)].
  { pose proof (no_call_in _ _ _ _ _ _ _
                  (prologue_sat kernel (fun _ => True) I) Hin) as Hc.
    shapes. }
  destruct (getopt_all args) as [opts operands]. cbn [snd].
  apply bind_event_split in Hes.
  destruct Hes as [Hin|(l & pre2 & es' & _ & -> & Hes)].
  { assert (Hopts : Forall (fun o : getopt_result =>
                              short (snd o) \/ True) opts)
      by (apply Forall_forall; intros; right; exact I).
    pose proof (no_call_in _ _ _ _ _ _ _
                  (option_loop_sat kernel (fun _ => True) I uid gid opts
                                   initial Hopts) Hin) as Hc.
    shapes. }
  apply bind_event_split in Hes.
  destruct Hes as [Hin|([] & pre3 & es & _ & -> & Hes)].
  { destruct (root_set l); [destruct Hin|].
    destruct Hin as [Hin|[]]. discriminate. }
  apply bind_event_split in Hes.
  destruct Hes as [Hin|([] & pre4 & es' & _ & -> & Hes)].
  { assert (Hsat : sat (fun c => is_execv c = false) (@any unit)
                       (fun _ => True) (pivot kernel))
      by (unfold pivot; sat_steps).
    pose proof (no_call_in _ _ _ _ _ _ _ Hsat Hin). discriminate. }
  apply handoff_execv in Hes.
  destruct Hes as ((es0 & a' & -> & Hok) & Hq & ->).
  split; [|split; [assumption | reflexivity]].
  exists (pre1 ++ pre2 ++ pre3 ++ pre4 ++ es0), a'.
  rewrite <- !app_assoc. split; [reflexivity | assumption].
Qed.

(** The theorem at [mkbox -s /srv/sandbox /bin/sh] with an [execv] that
    fails. *)
Lemma X22_failed_execv_witness :
  snd (run (refusing is_execv K.ENOENT friendly) 1000 1000
           ["-s"; "/srv/sandbox"; "/bin/sh"]) = Stop (Exited 255) /\
  exists es0 a',
    firstn 15 (fst (run (refusing is_execv K.ENOENT friendly) 1000 1000
                        ["-s"; "/srv/sandbox"; "/bin/sh"])) =
    es0 ++ [Call dropcaps a'] /\ 0 <= ret a'.
Proof.
  split; [vm_compute; reflexivity|].
  exact (proj1 (X22_execv_comes_right_after_dropcaps
                  (refusing is_execv K.ENOENT friendly) 1000 1000
                  ["-s"; "/srv/sandbox"; "/bin/sh"]
                  (firstn 15 (fst (run (refusing is_execv K.ENOENT friendly)
                                       1000 1000
                                       ["-s"; "/srv/sandbox"; "/bin/sh"])))
                  (Some "/bin/sh") ["/bin/sh"] (failed K.ENOENT)
                  [Report "execv" "binary, argv + optind" (-1) K.ENOENT]
                  eq_refl)).
Defined.

(* ------------------------------------------------------------------ *)
(** ** The command line *)

Lemma getopt_all_word c rest :
  c <> "-"%char ->
  getopt_all (String "-" (String c EmptyString) :: rest) =
  let (here, used) := cluster (String c EmptyString) (hd_error rest) in
  let (later, operands) :=
    if used then
      match rest with
      | [] => ([], [])
      | _ :: rest' => getopt_all rest'
      end
    else getopt_all rest in
  (here ++ later, operands).
Proof.
  destruct c as [[] [] [] [] [] [] [] []]; intros Hc;
    solve [reflexivity | exfalso; apply Hc; reflexivity].
Qed.

Lemma getopt_all_operands operands :
  plain_operands operands -> getopt_all operands = ([], operands).
Proof.
  destruct operands as [|a rest]; [reflexivity|].
  cbn [plain_operands]. intros Ha.
  destruct a as [|c s]; [reflexivity|].
  destruct c as [[] [] [] [] [] [] [] []];
    solve [reflexivity | exfalso; apply (Ha s); reflexivity].
Qed.

(** X17: the command line that the option string of line 111 stands for.
    Take options as [getopt] hands them out, each one among
    [b B d D g r s t u] with an argument or [q], [Z] without, and operands
    the first of which does not start with ['-'].  Written out as one word
    per option, each argument as the next word, then the operands, the
    command line is read back by [getopt] as exactly these options, in
    order, and these operands.  An argument is taken as it is, whatever
    it starts with. *)
Theorem X17_options_written_out_are_read_back opts operands :
  Forall well_formed opts -> plain_operands operands ->
  getopt_all (render opts ++ operands) = (opts, operands).
Proof.
  intros Hopts Hplain.
  induction Hopts as [|[c arg] opts Ho _ IH]; cbn [render flat_map app].
  - apply getopt_all_operands; assumption.
  - fold (render opts).
    assert (Hc : c <> "-"%char).
    { intros ->. destruct Ho as [Ho|[Ho _]]; discriminate Ho. }
    unfold well_formed in Ho. cbn [fst snd] in Ho. cbn [fst snd].
    destruct Ho as [Ho|[Ho ->]]; rewrite Ho; cbn [app].
    + rewrite getopt_all_word by assumption.
      cbn [cluster hd_error]. rewrite Ho. rewrite IH. reflexivity.
    + rewrite getopt_all_word by assumption.
      cbn [cluster hd_error]. rewrite Ho.
      destruct (hd_error (render opts ++ operands)); cbn [cluster];
        rewrite IH; reflexivity.
Qed.

(** The theorem at [-q -s /srv/sandbox -b /etc=-etc /bin/sh -c ls]. *)
Lemma X17_command_line_witness :
  getopt_all ["-q"; "-s"; "/srv/sandbox"; "-b"; "/etc=-etc";
              "/bin/sh"; "-c"; "ls"] =
  ([("q"%char, ""); ("s"%char, "/srv/sandbox"); ("b"%char, "/etc=-etc")],
   ["/bin/sh"; "-c"; "ls"]).
Proof.
  apply (X17_options_written_out_are_read_back
           [("q"%char, ""); ("s"%char, "/srv/sandbox"); ("b"%char, "/etc=-etc")]
           ["/bin/sh"; "-c"; "ls"]).
  - apply Forall_cons; [right; split; reflexivity|].
    apply Forall_cons; [left; reflexivity|].
    apply Forall_cons; [left; reflexivity|].
    apply Forall_nil.
  - intros s H. discriminate H.
Defined.

(* ------------------------------------------------------------------ *)
(** ** The mandatory [-s], once more: what has run before the test *)

Lemma opt_t_done kernel l path h l' :
  snd (opt_t kernel l path h) = Ret l' ->
  In (Mount "sandbox-tmp" path (Some "tmpfs") tmpfs_flags (Some tmpfs_data))
     (calls (fst (opt_t kernel l path h))).
Proof.
  intros Hret. unfold opt_t in *.
  apply bind_ret_inv in Hret. destruct Hret as (es1 & [] & _ & Hret & ->).
  apply bind_ret_inv in Hret. destruct Hret as (es2 & buf & _ & Hret & ->).
  apply bind_ret_inv in Hret. destruct Hret as (es3 & [] & _ & Hret & ->).
  rewrite bind_ok_eq in *. cbv zeta in *.
  destruct (0 <=? ret _); [|discriminate].
  rewrite !calls_app. rewrite !in_app_iff. do 3 right. simpl. auto.
Qed.

(** An option loop that returned has been through the [case] of each of
    its options, and each of these returned. *)
Lemma option_loop_member kernel uid gid opts : forall l h es l',
  option_loop kernel uid gid opts l h = (es, Ret l') ->
  forall o, In o opts ->
  exists l0 h0 l1,
    snd (option_case kernel uid gid l0 o h0) = Ret l1 /\
    incl (calls (fst (option_case kernel uid gid l0 o h0))) (calls es).
Proof.
  induction opts as [|x opts IH]; intros l h es l' Hrun o Hin;
    [destruct Hin|].
  cbn [option_loop] in Hrun. apply bind_inv in Hrun.
  destruct Hrun as [(s & _ & Habs)|(es1 & l1 & es2 & Hcase & Hrest & ->)];
    [discriminate|].
  destruct Hin as [->|Hin].
  - exists l, h, l1. rewrite Hcase. cbn [fst snd]. split; [reflexivity|].
    rewrite calls_app. apply incl_appl. apply incl_refl.
  - destruct (IH _ _ _ _ Hrest o Hin) as (l0 & h0 & l2 & Hret & Hincl).
    exists l0, h0, l2. split; [exact Hret|].
    rewrite calls_app. apply incl_appr. exact Hincl.
Qed.

Lemma opt_b_done kernel l arg h l' :
  snd (opt_b kernel l arg h) = Ret l' ->
  exists src dst pre flags,
    splits_into arg src dst /\
    calls (fst (opt_b kernel l arg h)) =
      pre ++ [Mount src dst None flags None] /\
    (flags = Z.lor K.MS_REC K.MS_BIND \/ flags = K.MS_BIND).
Proof.
  intros Hret.
  destruct (refuses arg) eqn:Hr.
  { destruct (opt_b_refused kernel l arg h Hr) as [msg Hmsg].
    rewrite Hmsg in Hret. discriminate. }
  unfold refuses in Hr. destruct (strchr arg "=") as [i|] eqn:Hi;
    [|discriminate].
  destruct (strchr_some arg i Hi) as [[Heq Hno] Hlen].
  set (src := prefix i arg) in *. set (dst := drop (S i) arg) in *.
  assert (Hrel : starts_with_slash dst = false).
  { rewrite <- get_0_slash. rewrite <- (get_split src dst).
    rewrite Hlen, <- Heq. exact Hr. }
  assert (Hopt : opt_b kernel l arg = bind_mount kernel l src dst)
    by (rewrite Heq at 1; apply opt_b_accepted; assumption).
  rewrite Hopt in *.
  destruct (bind_mount_done kernel l src dst h l' Hret)
    as (_ & pre & flags & Hcalls & Hflags).
  exists src, dst, pre, flags. split; [split; assumption|]. auto.
Qed.

Lemma bind_eq {A B} (m : M A) (f : A -> M B) h :
  bind m f h =
  match m h with
  | (es, Ret a) => (es ++ fst (f a (h ++ es)), snd (f a (h ++ es)))
  | (es, Stop s) => (es, Stop s)
  end.
Proof.
  unfold bind. destruct (m h) as [es [a|s]]; [|reflexivity].
  destruct (f a (h ++ es)); reflexivity.
Qed.

Lemma bind_errorf_eq {A B} msg (f : A -> M B) h :
  bind (errorf msg) f h = ([Stderr msg], Stop (Exited 255)).
Proof. reflexivity. Qed.

(** C1, as the code has it: the test of [root_set] comes after the option
    loop.  When [getopt] yields no ['s'], a run (on arguments that fit the
    path buffer) ends with exit status 255 and makes neither the
    [pivot_root] nor the [execv]; [prctl] has been called and, when it went
    well, [unshare] right after it.  The events of the run are those of the
    prologue followed by the option loop over all the options, and then,
    when these two went through, the one message [-s option is mandatory]
    and nothing else.  So when the run gets to the test, its system calls
    start with [prctl], [unshare], [setdomainname] and [sethostname], the
    tmpfs of every [-t] has been mounted, and the source of every [-b] has
    been bind-mounted on its destination. *)
Theorem C1_missing_root_stops_after_the_options kernel uid gid args :
  Forall short args ->
  ~ In "s"%char (map fst (fst (getopt_all args))) ->
  let r := run kernel uid gid args in
  let opts := fst (getopt_all args) in
  let earlier :=
    (prologue kernel ;; option_loop kernel uid gid opts initial) [] in
  snd r = Stop (Exited 255) /\
  ~ In (PivotRoot "." ".oldroot") (calls (fst r)) /\
  (forall b argv, ~ In (Execv b argv) (calls (fst r))) /\
  (exists a rest,
      fst r = Call (Prctl K.PR_SET_PDEATHSIG K.SIGKILL) a :: rest /\
      (0 <= ret a ->
       exists a' rest', rest = Call (Unshare unshare_flags) a' :: rest')) /\
  fst r = fst earlier ++
          match snd earlier with
          | Ret _ => [Stderr "-s option is mandatory"]
          | Stop _ => []
          end /\
  (forall l,
      snd earlier = Ret l ->
      (exists rest, calls (fst r) = prologue_calls ++ rest) /\
      (forall path,
          In ("t"%char, path) opts ->
          In (Mount "sandbox-tmp" path (Some "tmpfs") tmpfs_flags
                    (Some tmpfs_data))
             (calls (fst r))) /\
      (forall arg,
          In ("b"%char, arg) opts ->
          exists src dst flags,
            splits_into arg src dst /\
            (flags = Z.lor K.MS_REC K.MS_BIND \/ flags = K.MS_BIND) /\
            In (Mount src dst None flags None) (calls (fst r)))).
Proof.
  intros Hshort Hno r opts earlier.
  destruct (main_without_root kernel uid gid args Hshort Hno [])
    as [Hcalls Hend].
  fold (run kernel uid gid args) in Hcalls, Hend. fold r in Hcalls, Hend.
  rewrite Forall_forall in Hcalls.
  assert (Hstop : snd r = Stop (Exited 255))
    by (destruct (snd r) as [[]|s]; [contradiction | congruence]).
  split; [exact Hstop|].
  split.
  { intros Hin. apply Hcalls in Hin.
    inversion Hin as [| | | |c Hc]; subst. inversion Hc; subst.
    match goal with H : mkdir_call _ |- _ => inversion H end. }
  split.
  { intros b argv Hin. apply Hcalls in Hin.
    inversion Hin as [| | | |c Hc]; subst. inversion Hc; subst.
    match goal with H : mkdir_call _ |- _ => inversion H end. }
  split; [apply run_starts_with_unshare|].
  assert (Hroot : sat early_call (fun l => root_set l = false)
                      (fun s => s = Exited 255)
                      (prologue kernel ;;
                       option_loop kernel uid gid opts initial)).
  { apply sat_bind with (R1 := any); [apply prologue_sat; reflexivity|].
    intros _ _.
    pose proof (getopt_all_short args Hshort) as Hopts. fold opts in Hopts.
    eapply sat_weaken;
      [apply (option_loop_sat kernel (fun s => s = Exited 255) eq_refl
                              uid gid opts initial)
      | auto using early_call
      | intros l Hl; rewrite Hl by assumption; reflexivity
      | auto ].
    eapply Forall_impl; [|exact Hopts]. intros; left; assumption. }
  assert (Hrun : r =
            bind (prologue kernel ;; option_loop kernel uid gid opts initial)
                 (fun l =>
                    (if root_set l then ret_ tt
                     else errorf "-s option is mandatory") ;;
                    pivot kernel ;;
                    handoff kernel l (snd (getopt_all args))) []).
  { unfold r, run, main, opts. rewrite bind_assoc.
    destruct (getopt_all args); reflexivity. }
  rewrite bind_eq in Hrun. fold earlier in Hrun.
  destruct (Hroot []) as [_ Hl]. fold earlier in Hl.
  destruct earlier as [es [l|s]] eqn:He; cbn [fst snd] in *.
  - rewrite Hl, bind_errorf_eq in Hrun. cbn [fst snd] in Hrun.
    rewrite Hrun. cbn [fst]. split; [reflexivity|].
    intros l0 _. unfold earlier in He. apply bind_inv in He.
    destruct He as [(s & _ & Habs)|(pre & [] & es' & Hp & Hloop & ->)];
      [discriminate|].
    destruct (prologue_prefix kernel []) as (n & _ & Hpre & Hn).
    rewrite Hp in Hpre, Hn. cbn [fst snd] in Hpre, Hn.
    destruct Hn as [Habs|[-> _]]; [discriminate|].
    change (firstn 4 prologue_calls) with prologue_calls in Hpre.
    rewrite !calls_app, Hpre. cbn [calls]. rewrite app_nil_r.
    split; [eexists; reflexivity|]. split.
    + intros path Hin.
      destruct (option_loop_member _ _ _ _ _ _ _ _ Hloop _ Hin)
        as (l1 & h1 & l2 & Hret & Hincl).
      apply in_or_app. right. apply Hincl.
      change (option_case kernel uid gid l1 ("t"%char, path))
        with (opt_t kernel l1 path) in *.
      apply (opt_t_done kernel l1 path h1 l2 Hret).
    + intros arg Hin.
      destruct (option_loop_member _ _ _ _ _ _ _ _ Hloop _ Hin)
        as (l1 & h1 & l2 & Hret & Hincl).
      change (option_case kernel uid gid l1 ("b"%char, arg))
        with (opt_b kernel l1 arg) in *.
      destruct (opt_b_done kernel l1 arg h1 l2 Hret)
        as (src & dst & pre' & flags & Hsplit & Hcalls' & Hflags).
      exists src, dst, flags. split; [exact Hsplit|]. split; [exact Hflags|].
      apply in_or_app. right. apply Hincl. rewrite Hcalls'.
      apply in_or_app. right. left. reflexivity.
  - rewrite Hrun. cbn [fst]. rewrite app_nil_r. split; [reflexivity|].
    intros l Habs. discriminate.
Qed.

(** The theorem at [mkbox -q -t tmp /bin/sh]: the tmpfs is mounted, then
    the run stops for want of [-s]. *)
Lemma C1_missing_root_witness :
  Forall short ["-q"; "-t"; "tmp"; "/bin/sh"] /\
  ~ In "s"%char
       (map fst (fst (getopt_all ["-q"; "-t"; "tmp"; "/bin/sh"]))) /\
  snd (run friendly 1000 1000 ["-q"; "-t"; "tmp"; "/bin/sh"]) =
    Stop (Exited 255) /\
  In (Mount "sandbox-tmp" "tmp" (Some "tmpfs") tmpfs_flags (Some tmpfs_data))
     (calls (fst (run friendly 1000 1000 ["-q"; "-t"; "tmp"; "/bin/sh"]))).
Proof.
  assert (H1 : Forall short ["-q"; "-t"; "tmp"; "/bin/sh"])
    by (repeat constructor).
  assert (H2 : ~ In "s"%char
                    (map fst (fst (getopt_all
                                     ["-q"; "-t"; "tmp"; "/bin/sh"]))))
    by (simpl; intros [H|[H|[]]]; discriminate).
  split; [exact H1 | split; [exact H2|]].
  pose proof (C1_missing_root_stops_after_the_options
                friendly 1000 1000 ["-q"; "-t"; "tmp"; "/bin/sh"] H1 H2)
    as (Hstop & _ & _ & _ & _ & Hmade).
  split; [exact Hstop|].
  destruct (Hmade {| verbose := false; root_set := false;
                     child_dir := None; binary := None |} eq_refl)
    as (_ & Htmp & _).
  apply Htmp. right. left. reflexivity.
Defined.

